(** * Jump-Egg: a shallow embedding of the simulation core

    The game keeps one mutable object [game.current]; a scheduler calls
    [loop], which derives a time delta and calls [update]; the input
    handlers call [initGame], [startCharging] and [releaseJump].

    Modelling choices.
    - JavaScript numbers are modelled as exact rationals ([Q]); rounding,
      infinities and NaN are outside the model.  [Math.floor] is [Qfloor].
    - Platform objects are shared between the platform array and
      [egg.onPlatform], and are mutated in place.  They live in a store
      ([heap], a total map from references to platform values); arrays
      and [onPlatform] hold references.  [nextRef] is the allocation
      counter: an object literal takes the next unused reference.
    - [Math.random], [Math.cos] and [Math.sin] come from the host.  The
      host is a record [MathEnv]; [seed] counts the calls made to
      [Math.random] so far, so the n-th call returns [random M n].
    - The React setters ([setUiScore] and the like) only mirror values of
      [game.current] for the page and are left out; the timer that clears
      [evolveFlashRef] after 1200 ms of wall-clock time is left out too.
    - The key and pointer handlers are functions of the game; of the
      page itself only the width of the experience bar is modelled, as a
      function of the mirrored tier and experience.
    - The [while] loop that extends the platform column does not return
      when the column is empty ([Math.min()] is [Infinity]); [update]
      therefore returns an [option]. *)

From Stdlib Require Import QArith Qminmax Qabs Qround ZArith List Bool Lia Lqa String.
Import ListNotations.
Local Open Scope Q_scope.

(** ** Numbers *)

Definition Qleb (a b : Q) : bool := Qle_bool a b.
Definition Qltb (a b : Q) : bool := negb (Qle_bool b a).
Definition Qeqb (a b : Q) : bool := Qeq_bool a b.

(** ** Tuning constants *)

Definition W : Q := 400.
Definition H : Q := 650.
Definition GRAVITY : Q := 0.28.
Definition MAX_JUMP_VEL : Q := 11.5.
Definition PLATFORM_GAP : Q := 80.
Definition EGG_R : Q := 18.

(** ** Data model *)

Inductive GameState := idle | charging | jumping | gameover.
Inductive PlatformType := normal | timed | fragile.

Definition GameState_eqb (a b : GameState) : bool :=
  match a, b with
  | idle, idle | charging, charging | jumping, jumping | gameover, gameover => true
  | _, _ => false
  end.

Definition PlatformType_eqb (a b : PlatformType) : bool :=
  match a, b with
  | normal, normal | timed, timed | fragile, fragile => true
  | _, _ => false
  end.

(** A reference to a platform object. *)
Abbreviation Ref := nat (only parsing).

Module Platform.
Record t := mk {
  x : Q; y : Q; w : Q; h : Q; speed : Q; hue : Q;
  type : PlatformType; timer : Q; landed : bool; removing : bool }.
Definition set_x (v : Q) (p : t) : t :=
  mk v (y p) (w p) (h p) (speed p) (hue p) (type p) (timer p) (landed p) (removing p).
Definition set_speed (v : Q) (p : t) : t :=
  mk (x p) (y p) (w p) (h p) v (hue p) (type p) (timer p) (landed p) (removing p).
Definition set_timer (v : Q) (p : t) : t :=
  mk (x p) (y p) (w p) (h p) (speed p) (hue p) (type p) v (landed p) (removing p).
Definition set_landed (v : bool) (p : t) : t :=
  mk (x p) (y p) (w p) (h p) (speed p) (hue p) (type p) (timer p) v (removing p).
Definition set_removing (v : bool) (p : t) : t :=
  mk (x p) (y p) (w p) (h p) (speed p) (hue p) (type p) (timer p) (landed p) v.
End Platform.

Module Egg.
Record t := mk { x : Q; y : Q; vx : Q; vy : Q; onPlatform : option Ref }.
Definition set_x (v : Q) (e : t) : t := mk v (y e) (vx e) (vy e) (onPlatform e).
Definition set_y (v : Q) (e : t) : t := mk (x e) v (vx e) (vy e) (onPlatform e).
Definition set_vx (v : Q) (e : t) : t := mk (x e) (y e) v (vy e) (onPlatform e).
Definition set_vy (v : Q) (e : t) : t := mk (x e) (y e) (vx e) v (onPlatform e).
Definition set_onPlatform (v : option Ref) (e : t) : t := mk (x e) (y e) (vx e) (vy e) v.
End Egg.

Module Camera.
Record t := mk { y : Q }.
End Camera.

Module Power.
Record t := mk { value : Q; dir : Q; speed : Q }.
Definition set_value (v : Q) (p : t) : t := mk v (dir p) (speed p).
Definition set_dir (v : Q) (p : t) : t := mk (value p) v (speed p).
End Power.

Module Bird.
Record t := mk { x : Q; y : Q; speed : Q; frame : Q }.
Definition set_x (v : Q) (b : t) : t := mk v (y b) (speed b) (frame b).
Definition set_frame (v : Q) (b : t) : t := mk (x b) (y b) (speed b) v.
End Bird.

Module Particle.
Record t := mk {
  x : Q; y : Q; vx : Q; vy : Q; life : Q; maxLife : Q; size : Q; hue : Q }.
End Particle.

Module LandingFx.
Record t := mk { y : Q; x : Q; timer : Q; text : string }.
Definition set_timer (v : Q) (f : t) : t := mk (y f) (x f) v (text f).
End LandingFx.

Abbreviation Heap := (Ref -> Platform.t) (only parsing).

(** [p.field = v] on the object behind reference [r]. *)
Definition store (r : Ref) (p : Platform.t) (hp : Heap) : Heap :=
  fun r' => if Nat.eqb r' r then p else hp r'.

Definition Ref_eqb (a b : option Ref) : bool :=
  match a, b with
  | Some i, Some j => Nat.eqb i j
  | None, None => true
  | _, _ => false
  end.

(** The host's [Math] object: [random n] is what the n-th call of
    [Math.random()] returns, [cosTurn t] is [Math.cos(t * Math.PI * 2)]
    and [sinTurn t] is [Math.sin(t * Math.PI * 2)]. *)
Record MathEnv := {
  random : nat -> Q;
  cosTurn : Q -> Q;
  sinTurn : Q -> Q }.

(** [game.current], with the platform store, [evolveFlashRef.current] and
    the count of random draws added. *)
Record Game := Build_Game {
  state : GameState;
  egg : Egg.t;
  platforms : list Ref;
  heap : Heap;
  nextRef : Ref;
  camera : Camera.t;
  power : Power.t;
  score : Z;
  highScore : Z;
  xp : Q;
  xpDecayTimer : Q;
  stageIdx : nat;
  prevStageIdx : nat;
  particles : list Particle.t;
  birds : list Bird.t;
  birdTimer : Q;
  perfectFlash : Q;
  landingFx : option LandingFx.t;
  heightReached : Q;
  highestPlatformY : Q;
  evolveFlash : bool;
  seed : nat }.

Definition set_state (v : GameState) (g : Game) : Game :=
  Build_Game
    v (egg g) (platforms g) (heap g) (nextRef g) (camera g) (power g) (score g)
    (highScore g) (xp g) (xpDecayTimer g) (stageIdx g) (prevStageIdx g) (particles g)
    (birds g) (birdTimer g) (perfectFlash g) (landingFx g) (heightReached g)
    (highestPlatformY g) (evolveFlash g) (seed g).
Definition set_egg (v : Egg.t) (g : Game) : Game :=
  Build_Game
    (state g) v (platforms g) (heap g) (nextRef g) (camera g) (power g) (score g)
    (highScore g) (xp g) (xpDecayTimer g) (stageIdx g) (prevStageIdx g) (particles g)
    (birds g) (birdTimer g) (perfectFlash g) (landingFx g) (heightReached g)
    (highestPlatformY g) (evolveFlash g) (seed g).
Definition set_platforms (v : list Ref) (g : Game) : Game :=
  Build_Game
    (state g) (egg g) v (heap g) (nextRef g) (camera g) (power g) (score g)
    (highScore g) (xp g) (xpDecayTimer g) (stageIdx g) (prevStageIdx g) (particles g)
    (birds g) (birdTimer g) (perfectFlash g) (landingFx g) (heightReached g)
    (highestPlatformY g) (evolveFlash g) (seed g).
Definition set_heap (v : Heap) (g : Game) : Game :=
  Build_Game
    (state g) (egg g) (platforms g) v (nextRef g) (camera g) (power g) (score g)
    (highScore g) (xp g) (xpDecayTimer g) (stageIdx g) (prevStageIdx g) (particles g)
    (birds g) (birdTimer g) (perfectFlash g) (landingFx g) (heightReached g)
    (highestPlatformY g) (evolveFlash g) (seed g).
Definition set_nextRef (v : Ref) (g : Game) : Game :=
  Build_Game
    (state g) (egg g) (platforms g) (heap g) v (camera g) (power g) (score g)
    (highScore g) (xp g) (xpDecayTimer g) (stageIdx g) (prevStageIdx g) (particles g)
    (birds g) (birdTimer g) (perfectFlash g) (landingFx g) (heightReached g)
    (highestPlatformY g) (evolveFlash g) (seed g).
Definition set_camera (v : Camera.t) (g : Game) : Game :=
  Build_Game
    (state g) (egg g) (platforms g) (heap g) (nextRef g) v (power g) (score g)
    (highScore g) (xp g) (xpDecayTimer g) (stageIdx g) (prevStageIdx g) (particles g)
    (birds g) (birdTimer g) (perfectFlash g) (landingFx g) (heightReached g)
    (highestPlatformY g) (evolveFlash g) (seed g).
Definition set_power (v : Power.t) (g : Game) : Game :=
  Build_Game
    (state g) (egg g) (platforms g) (heap g) (nextRef g) (camera g) v (score g)
    (highScore g) (xp g) (xpDecayTimer g) (stageIdx g) (prevStageIdx g) (particles g)
    (birds g) (birdTimer g) (perfectFlash g) (landingFx g) (heightReached g)
    (highestPlatformY g) (evolveFlash g) (seed g).
Definition set_score (v : Z) (g : Game) : Game :=
  Build_Game
    (state g) (egg g) (platforms g) (heap g) (nextRef g) (camera g) (power g) v
    (highScore g) (xp g) (xpDecayTimer g) (stageIdx g) (prevStageIdx g) (particles g)
    (birds g) (birdTimer g) (perfectFlash g) (landingFx g) (heightReached g)
    (highestPlatformY g) (evolveFlash g) (seed g).
Definition set_highScore (v : Z) (g : Game) : Game :=
  Build_Game
    (state g) (egg g) (platforms g) (heap g) (nextRef g) (camera g) (power g) (score g)
    v (xp g) (xpDecayTimer g) (stageIdx g) (prevStageIdx g) (particles g) (birds g)
    (birdTimer g) (perfectFlash g) (landingFx g) (heightReached g) (highestPlatformY g)
    (evolveFlash g) (seed g).
Definition set_xp (v : Q) (g : Game) : Game :=
  Build_Game
    (state g) (egg g) (platforms g) (heap g) (nextRef g) (camera g) (power g) (score g)
    (highScore g) v (xpDecayTimer g) (stageIdx g) (prevStageIdx g) (particles g)
    (birds g) (birdTimer g) (perfectFlash g) (landingFx g) (heightReached g)
    (highestPlatformY g) (evolveFlash g) (seed g).
Definition set_xpDecayTimer (v : Q) (g : Game) : Game :=
  Build_Game
    (state g) (egg g) (platforms g) (heap g) (nextRef g) (camera g) (power g) (score g)
    (highScore g) (xp g) v (stageIdx g) (prevStageIdx g) (particles g) (birds g)
    (birdTimer g) (perfectFlash g) (landingFx g) (heightReached g) (highestPlatformY g)
    (evolveFlash g) (seed g).
Definition set_stageIdx (v : nat) (g : Game) : Game :=
  Build_Game
    (state g) (egg g) (platforms g) (heap g) (nextRef g) (camera g) (power g) (score g)
    (highScore g) (xp g) (xpDecayTimer g) v (prevStageIdx g) (particles g) (birds g)
    (birdTimer g) (perfectFlash g) (landingFx g) (heightReached g) (highestPlatformY g)
    (evolveFlash g) (seed g).
Definition set_prevStageIdx (v : nat) (g : Game) : Game :=
  Build_Game
    (state g) (egg g) (platforms g) (heap g) (nextRef g) (camera g) (power g) (score g)
    (highScore g) (xp g) (xpDecayTimer g) (stageIdx g) v (particles g) (birds g)
    (birdTimer g) (perfectFlash g) (landingFx g) (heightReached g) (highestPlatformY g)
    (evolveFlash g) (seed g).
Definition set_particles (v : list Particle.t) (g : Game) : Game :=
  Build_Game
    (state g) (egg g) (platforms g) (heap g) (nextRef g) (camera g) (power g) (score g)
    (highScore g) (xp g) (xpDecayTimer g) (stageIdx g) (prevStageIdx g) v (birds g)
    (birdTimer g) (perfectFlash g) (landingFx g) (heightReached g) (highestPlatformY g)
    (evolveFlash g) (seed g).
Definition set_birds (v : list Bird.t) (g : Game) : Game :=
  Build_Game
    (state g) (egg g) (platforms g) (heap g) (nextRef g) (camera g) (power g) (score g)
    (highScore g) (xp g) (xpDecayTimer g) (stageIdx g) (prevStageIdx g) (particles g) v
    (birdTimer g) (perfectFlash g) (landingFx g) (heightReached g) (highestPlatformY g)
    (evolveFlash g) (seed g).
Definition set_birdTimer (v : Q) (g : Game) : Game :=
  Build_Game
    (state g) (egg g) (platforms g) (heap g) (nextRef g) (camera g) (power g) (score g)
    (highScore g) (xp g) (xpDecayTimer g) (stageIdx g) (prevStageIdx g) (particles g)
    (birds g) v (perfectFlash g) (landingFx g) (heightReached g) (highestPlatformY g)
    (evolveFlash g) (seed g).
Definition set_perfectFlash (v : Q) (g : Game) : Game :=
  Build_Game
    (state g) (egg g) (platforms g) (heap g) (nextRef g) (camera g) (power g) (score g)
    (highScore g) (xp g) (xpDecayTimer g) (stageIdx g) (prevStageIdx g) (particles g)
    (birds g) (birdTimer g) v (landingFx g) (heightReached g) (highestPlatformY g)
    (evolveFlash g) (seed g).
Definition set_landingFx (v : option LandingFx.t) (g : Game) : Game :=
  Build_Game
    (state g) (egg g) (platforms g) (heap g) (nextRef g) (camera g) (power g) (score g)
    (highScore g) (xp g) (xpDecayTimer g) (stageIdx g) (prevStageIdx g) (particles g)
    (birds g) (birdTimer g) (perfectFlash g) v (heightReached g) (highestPlatformY g)
    (evolveFlash g) (seed g).
Definition set_heightReached (v : Q) (g : Game) : Game :=
  Build_Game
    (state g) (egg g) (platforms g) (heap g) (nextRef g) (camera g) (power g) (score g)
    (highScore g) (xp g) (xpDecayTimer g) (stageIdx g) (prevStageIdx g) (particles g)
    (birds g) (birdTimer g) (perfectFlash g) (landingFx g) v (highestPlatformY g)
    (evolveFlash g) (seed g).
Definition set_highestPlatformY (v : Q) (g : Game) : Game :=
  Build_Game
    (state g) (egg g) (platforms g) (heap g) (nextRef g) (camera g) (power g) (score g)
    (highScore g) (xp g) (xpDecayTimer g) (stageIdx g) (prevStageIdx g) (particles g)
    (birds g) (birdTimer g) (perfectFlash g) (landingFx g) (heightReached g) v
    (evolveFlash g) (seed g).
Definition set_evolveFlash (v : bool) (g : Game) : Game :=
  Build_Game
    (state g) (egg g) (platforms g) (heap g) (nextRef g) (camera g) (power g) (score g)
    (highScore g) (xp g) (xpDecayTimer g) (stageIdx g) (prevStageIdx g) (particles g)
    (birds g) (birdTimer g) (perfectFlash g) (landingFx g) (heightReached g)
    (highestPlatformY g) v (seed g).
Definition set_seed (v : nat) (g : Game) : Game :=
  Build_Game
    (state g) (egg g) (platforms g) (heap g) (nextRef g) (camera g) (power g) (score g)
    (highScore g) (xp g) (xpDecayTimer g) (stageIdx g) (prevStageIdx g) (particles g)
    (birds g) (birdTimer g) (perfectFlash g) (landingFx g) (heightReached g)
    (highestPlatformY g) (evolveFlash g) v.

(** ** Evolution table *)

Record Stage := { emoji : string; name : string; need : Z; color : string }.

Definition STAGES : list Stage :=
  [ {| emoji := "🥚"; name := "알"; need := 0; color := "#F9E4B7" |};
    {| emoji := "🐣"; name := "병아리"; need := 15; color := "#FFEB3B" |};
    {| emoji := "🐥"; name := "아기새"; need := 40; color := "#FFC107" |};
    {| emoji := "🐔"; name := "닭"; need := 75; color := "#FF9800" |};
    {| emoji := "🦅"; name := "독수리"; need := 120; color := "#8D6E63" |};
    {| emoji := "🐉"; name := "드래곤"; need := 180; color := "#E53935" |};
    {| emoji := "🔥"; name := "피닉스"; need := 260; color := "#FFD700" |} ].

Definition needAt (i : nat) : Z :=
  need (nth i STAGES {| emoji := ""; name := ""; need := 0; color := "" |}).

(** The loop [for (i = ...; i >= 0; i--)] of [getStage], entered at [i]. *)
Fixpoint getStageFrom (i : nat) (jumps : Z) : nat :=
  if (needAt i <=? jumps)%Z then i
  else match i with
       | O => O
       | S i' => getStageFrom i' jumps
       end.

Definition getStage (jumps : Z) : nat :=
  getStageFrom (List.length STAGES - 1) jumps.

(** ** Helpers shared by the operations *)

(** [Math.max(0, Math.floor((540 - y) / 12))]: meters climbed at world [y]. *)
Definition metres (y : Q) : Z := Z.max 0 (Qfloor ((540 - y) / 12)).

(** [for (let i = 0; i < n; i++) body]. *)
Definition forUpTo {A : Type} (n : nat) (body : nat -> A -> A) (a : A) : A :=
  fold_left (fun acc i => body i acc) (seq 0 n) a.

Definition ofNat (n : nat) : Q := inject_Z (Z.of_nat n).

Section Model.

Variable M : MathEnv.

(** [g.particles.push({...})] where the object literal makes [k] calls to
    [Math.random()]; [lit d] is the literal, [d j] being its j-th draw. *)
Definition pushParticle (k : nat) (lit : (nat -> Q) -> Particle.t) (g : Game) : Game :=
  let d := fun j => random M (seed g + j) in
  set_seed (seed g + k) (set_particles (particles g ++ [lit d]) g).

(** ** Platform generator *)

Definition createPlatform (y : Q) (index : nat) (n : nat) : Platform.t * nat :=
  let heightM := metres y in
  let hm := inject_Z heightM in
  let widthBase := Qmax 50 (130 - hm * 0.35) in
  let widthVariance := Qmax 10 (25 - hm * 0.08) in
  let w := widthBase + random M n * widthVariance in
  let baseSpeed := 0.6 + Qmin 1.2 (hm * 0.008) in
  let zigzag := if Nat.eqb (index mod 2) 0 then 0.6 else 1.0 in
  let speed :=
    baseSpeed * zigzag * (0.8 + random M (n + 1) * 0.4)
    * (if Qltb 0.5 (random M (n + 2)) then 1 else -1) in
  let '(type, n') :=
    if (15 <=? heightM)%Z then
      let timedChance := Qmin 0.18 ((hm - 15) * 0.003) in
      let fragileChance := Qmin 0.15 ((hm - 15) * 0.002) in
      let roll := random M (n + 3) in
      (if Qltb roll timedChance then timed
       else if Qltb roll (timedChance + fragileChance) then fragile
       else normal, (n + 4)%nat)
    else (normal, (n + 3)%nat) in
  (Platform.mk
     (30 + random M n' * (W - 60 - w))
     y
     w
     11
     speed
     (match type with
      | timed => 0
      | fragile => 270
      | normal => ofNat ((index * 37) mod 360)
      end)
     type
     (match type with timed => 300 | _ => 0 end)
     false
     false,
   S n').

(** ** Commands *)

(** The [for] loop of [initGame]: iteration [i] (from 1) creates a platform
    and pushes it on the array being built. *)
Definition initPlatform (i : nat) (acc : list Ref * Heap * Ref * nat)
  : list Ref * Heap * Ref * nat :=
  let '(ps, hp, nr, sd) := acc in
  let '(p, sd') := createPlatform (540 - ofNat i * PLATFORM_GAP) i sd in
  (ps ++ [nr], store nr p hp, S nr, sd').

Definition startPlatform : Platform.t :=
  Platform.mk (W / 2 - 90) 540 180 11 0 140 normal 0 false false.

Definition initGame (g : Game) : Game :=
  let r0 := nextRef g in
  let '(ps, hp, nr, sd) :=
    forUpTo 25 (fun i => initPlatform (S i))
      ([r0], store r0 startPlatform (heap g), S r0, seed g) in
  Build_Game
    idle
    (Egg.mk (W / 2) (540 - EGG_R) 0 0 (Some r0))
    ps hp nr
    (Camera.mk 0)
    (Power.mk 50 1 1.6)
    0%Z
    (highScore g)
    0 0
    O O
    [] []
    0 0
    None
    540 540
    false
    sd.

Definition startCharging (g : Game) : Game :=
  match state g with
  | idle =>
      set_state charging
        (set_power (Power.set_dir 1 (Power.set_value 0 (power g))) g)
  | _ => g
  end.

Definition perfectBurst (i : nat) (g : Game) : Game :=
  let t := ofNat i / 24 in
  let speed := 3 + random M (seed g) * 4 in
  let e := egg g in
  pushParticle 3
    (fun d =>
       Particle.mk (Egg.x e) (Egg.y e)
         (cosTurn M t * speed) (sinTurn M t * speed - 2)
         (35 + d 0%nat * 20) 55 (3 + d 1%nat * 5) (45 + d 2%nat * 30))
    (set_seed (S (seed g)) g).

Definition sparkleRing (i : nat) (g : Game) : Game :=
  let t := ofNat i / 12 in
  let e := egg g in
  pushParticle 3
    (fun d =>
       Particle.mk (Egg.x e + cosTurn M t * 25) (Egg.y e + sinTurn M t * 25)
         (cosTurn M t * 1.5) (sinTurn M t * 1.5 - 1)
         (25 + d 0%nat * 15) 40 (2 + d 1%nat * 3) (180 + d 2%nat * 60))
    g.

Definition launchDust (i : nat) (g : Game) : Game :=
  let e := egg g in
  pushParticle 5
    (fun d =>
       Particle.mk (Egg.x e + (d 0%nat - 0.5) * 16) (Egg.y e + EGG_R)
         ((d 1%nat - 0.5) * 3) (d 2%nat * 2 + 1)
         (25 + d 3%nat * 15) 40 (2 + d 4%nat * 3) 45)
    g.

Definition isFragile (hp : Heap) (r : Ref) : bool :=
  PlatformType_eqb (Platform.type (hp r)) fragile.

(** Remove fragile platform after jumping off. *)
Definition breakFragile (g : Game) : Game :=
  match Egg.onPlatform (egg g) with
  | Some r =>
      if isFragile (heap g) r then
        let hp := store r (Platform.set_removing true (heap g r)) (heap g) in
        set_platforms
          (filter (fun p => negb (Platform.removing (hp p))) (platforms g))
          (set_heap hp g)
      else g
  | None => g
  end.

(** The first half of [releaseJump]: velocities, fragile platform, state. *)
Definition launch (g : Game) : Game :=
  let pwr := Power.value (power g) / 100 in
  let stageBonus := 1 + ofNat (stageIdx g) * 0.12 in
  let jumpVel := MAX_JUMP_VEL * Qmax 0.15 pwr * stageBonus in
  let e := egg g in
  let platVx :=
    match Egg.onPlatform e with
    | Some r => Platform.speed (heap g r) * 0.35
    | None => 0
    end in
  let g1 := breakFragile g in
  set_state jumping
    (set_egg
       (Egg.set_onPlatform None (Egg.set_vx platVx (Egg.set_vy (- jumpVel) e)))
       g1).

(** The second half: the perfect-release bonus and the particles. *)
Definition celebrate (g : Game) : Game :=
  let isPerfect := Qleb 99 (Power.value (power g)) in
  if isPerfect then
    let g1 := set_xp (xp g + 5) (set_perfectFlash 30 g) in
    let g2 := forUpTo 24 perfectBurst g1 in
    let g3 := forUpTo 12 sparkleRing g2 in
    set_landingFx
      (Some (LandingFx.mk (Egg.y (egg g3)) (Egg.x (egg g3)) 40
               "✨ PERFECT! +5 XP ✨"))
      g3
  else forUpTo 6 launchDust g.

Definition releaseJump (g : Game) : Game :=
  match state g with
  | charging => celebrate (launch g)
  | _ => g
  end.

(** ** Frame stepper *)

(** Power bar - only moves while charging. *)
Definition stepPower (dt : Q) (p : Power.t) : Power.t :=
  let p1 := Power.set_value (Power.value p + Power.dir p * Power.speed p * dt) p in
  let p2 :=
    if Qleb 100 (Power.value p1) then Power.set_dir (-1) (Power.set_value 100 p1)
    else p1 in
  if Qleb (Power.value p2) 0 then Power.set_dir 1 (Power.set_value 0 p2) else p2.

Definition phasePower (dt : Q) (g : Game) : Game :=
  match state g with
  | charging => set_power (stepPower dt (power g)) g
  | _ => g
  end.

(** Platforms move: the body of the first [for (const p of platforms)]. *)
Definition movePlatform (dt : Q) (p : Platform.t) : Platform.t :=
  if Qeqb (Platform.speed p) 0 then p
  else
    let p1 := Platform.set_x (Platform.x p + Platform.speed p * dt) p in
    let p2 :=
      if Qleb (Platform.x p1) 8
      then Platform.set_speed (Qabs (Platform.speed p1)) (Platform.set_x 8 p1)
      else p1 in
    if Qleb (W - 8) (Platform.x p2 + Platform.w p2)
    then Platform.set_speed (- Qabs (Platform.speed p2))
           (Platform.set_x (W - 8 - Platform.w p2) p2)
    else p2.

Definition phaseMove (dt : Q) (plats : list Ref) (g : Game) : Game :=
  set_heap
    (fold_left (fun hp r => store r (movePlatform dt (hp r)) hp) plats (heap g))
    g.

Definition isTimed (p : Platform.t) : bool := PlatformType_eqb (Platform.type p) timed.

(** Timed platform countdown: the body of the second loop, at platform [r]. *)
Definition timedStep (dt : Q) (g : Game) (r : Ref) : Game :=
  let p := heap g r in
  if isTimed p && Platform.landed p && Ref_eqb (Egg.onPlatform (egg g)) (Some r) then
    let p1 := Platform.set_timer (Platform.timer p - dt) p in
    if Qleb (Platform.timer p1) 0 && negb (Platform.removing p1) then
      let p2 := Platform.set_removing true (Platform.set_timer 0 p1) in
      let g1 := set_heap (store r p2 (heap g)) g in
      (* If egg is on this platform, fall *)
      if Ref_eqb (Egg.onPlatform (egg g1)) (Some r) then
        set_state jumping
          (set_egg (Egg.set_vy 0 (Egg.set_onPlatform None (egg g1))) g1)
      else g1
    else set_heap (store r p1 (heap g)) g
  else g.

Definition expiredTimed (hp : Heap) (r : Ref) : bool :=
  isTimed (hp r) && Platform.removing (hp r).

(** The countdown loop over the local [platforms], then
    [g.platforms = g.platforms.filter(...)]. *)
Definition phaseTimed (dt : Q) (plats : list Ref) (g : Game) : Game :=
  let g1 := fold_left (timedStep dt) plats g in
  set_platforms (filter (fun r => negb (expiredTimed (heap g1) r)) (platforms g1)) g1.

Definition birdInterval (height : Z) : Q :=
  if ((40 <=? height) && (height <? 80))%Z then 500
  else if ((80 <=? height) && (height <? 130))%Z then 350
  else if ((130 <=? height) && (height <? 200))%Z then 250
  else if ((200 <=? height) && (height <? 300))%Z then 170
  else if (300 <=? height)%Z then 120
  else 99999.

(** Bird spawning. *)
Definition phaseSpawn (dt : Q) (g : Game) : Game :=
  let g1 := set_birdTimer (birdTimer g + dt) g in
  let height := metres (heightReached g1) in
  if Qltb (birdInterval height) (birdTimer g1) then
    let n := seed g1 in
    let birdY := Camera.y (camera g1) + 80 + random M n * (H - 200) in
    let b :=
      Bird.mk (W + 30) birdY
        (1.5 + random M (S n) * 1.2 + Qmin 2 (inject_Z height * 0.01)) 0 in
    set_seed (n + 2) (set_birds (birds g1 ++ [b]) (set_birdTimer 0 g1))
  else g1.

Definition isGrounded (s : GameState) : bool :=
  match s with idle | charging => true | _ => false end.

Definition hitDust (i : nat) (g : Game) : Game :=
  let e := egg g in
  pushParticle 3
    (fun d =>
       Particle.mk (Egg.x e) (Egg.y e)
         (- (d 0%nat * 3 + 1)) ((d 1%nat - 0.5) * 3)
         15 15 (2 + d 2%nat * 3) 30)
    g.

Definition birdHits (e : Egg.t) (b : Bird.t) : bool :=
  let dx := Egg.x e - Bird.x b in
  let dy := Egg.y e - Bird.y b in
  Qltb (Qabs dx) (EGG_R + 14) && Qltb (Qabs dy) (EGG_R + 8).

(** [b.x -= b.speed * dt; b.frame += dt * 0.15]. *)
Definition flyBird (dt : Q) (b : Bird.t) : Bird.t :=
  Bird.set_frame (Bird.frame b + dt * 0.15)
    (Bird.set_x (Bird.x b - Bird.speed b * dt) b).

(** Update birds: the body of [for (const b of g.birds)]; returns the
    bird as the iteration leaves it. *)
Definition birdStep (dt : Q) (b : Bird.t) (g : Game) : Bird.t * Game :=
  let b1 := flyBird dt b in
  if birdHits (egg g) b1 then
    let g1 := set_egg (Egg.set_vx (-4) (egg g)) g in
    let g2 :=
      if isGrounded (state g1) then
        set_state jumping
          (set_egg (Egg.set_vy (-2) (Egg.set_onPlatform None (egg g1))) g1)
      else g1 in
    (Bird.set_x (-100) b1, forUpTo 6 hitDust g2)
  else (b1, g).

Fixpoint birdLoop (dt : Q) (bs : list Bird.t) (g : Game) : list Bird.t * Game :=
  match bs with
  | [] => ([], g)
  | b :: bs' =>
      let '(b1, g1) := birdStep dt b g in
      let '(bs1, g2) := birdLoop dt bs' g1 in
      (b1 :: bs1, g2)
  end.

Definition phaseBirds (dt : Q) (g : Game) : Game :=
  let '(bs, g1) := birdLoop dt (birds g) g in
  set_birds (filter (fun b => Qltb (-50) (Bird.x b)) bs) g1.

Definition devolveDust (i : nat) (g : Game) : Game :=
  let e := egg g in
  pushParticle 6
    (fun d =>
       Particle.mk (Egg.x e + (d 0%nat - 0.5) * 30) (Egg.y e + (d 1%nat - 0.5) * 30)
         ((d 2%nat - 0.5) * 3) (- (d 3%nat * 2))
         (20 + d 4%nat * 15) 35 (2 + d 5%nat * 3) 0)
    g.

(** XP decay when idle or charging. *)
Definition phaseDecay (dt : Q) (g : Game) : Game :=
  if isGrounded (state g) && Qltb 0 (xp g) then
    let g1 := set_xpDecayTimer (xpDecayTimer g + dt) g in
    let g2 := set_xp (Qmax 0 (xp g1 - 0.008 * dt)) g1 in
    let newStage := getStage (Qfloor (xp g2)) in
    let g3 := if (newStage <? stageIdx g2)%nat then forUpTo 10 devolveDust g2 else g2 in
    set_stageIdx newStage g3
  else g.

(** Egg on platform. *)
Definition phaseGrounded (dt : Q) (g : Game) : Game :=
  match Egg.onPlatform (egg g) with
  | Some r =>
      if isGrounded (state g) then
        let platScreenY := Platform.y (heap g r) - Camera.y (camera g) in
        if Qltb H platScreenY then
          set_state jumping (set_egg (Egg.set_vy 0 (Egg.set_onPlatform None (egg g))) g)
        else
          let e1 := Egg.set_x (Egg.x (egg g) + Platform.speed (heap g r) * dt) (egg g) in
          let e2 := Egg.set_x (Qmax EGG_R (Qmin (W - EGG_R) (Egg.x e1))) e1 in
          set_egg (Egg.set_y (Platform.y (heap g r) - EGG_R) e2) g
      else g
  | None => g
  end.

(** Integration of the airborne egg and the elastic side walls. *)
Definition integrate (dt : Q) (e : Egg.t) : Egg.t :=
  let e1 := Egg.set_vy (Egg.vy e + GRAVITY * dt) e in
  let e2 := Egg.set_x (Egg.x e1 + Egg.vx e1 * dt) e1 in
  let e3 := Egg.set_y (Egg.y e2 + Egg.vy e2 * dt) e2 in
  let e4 :=
    if Qltb (Egg.x e3) EGG_R
    then Egg.set_vx (Qabs (Egg.vx e3) * 0.7) (Egg.set_x EGG_R e3)
    else e3 in
  if Qltb (W - EGG_R) (Egg.x e4)
  then Egg.set_vx (- Qabs (Egg.vx e4) * 0.7) (Egg.set_x (W - EGG_R) e4)
  else e4.

(** Trail particles; [Math.random() > 0.5] is evaluated only when
    [egg.vy < -1]. *)
Definition trail (g : Game) : Game :=
  if Qltb (Egg.vy (egg g)) (-1) then
    let g1 := set_seed (S (seed g)) g in
    if Qltb 0.5 (random M (seed g)) then
      let e := egg g1 in
      if Qltb 0 (perfectFlash g1) then
        pushParticle 5
          (fun d =>
             Particle.mk (Egg.x e + (d 0%nat - 0.5) * 10) (Egg.y e + EGG_R + 4)
               ((d 1%nat - 0.5) * 2) (d 2%nat * 0.8 + 0.3)
               25 35 (3 + d 3%nat * 3) (45 + d 4%nat * 20))
          g1
      else
        pushParticle 5
          (fun d =>
             Particle.mk (Egg.x e + (d 0%nat - 0.5) * 10) (Egg.y e + EGG_R + 4)
               ((d 1%nat - 0.5) * 0.5) (d 2%nat * 0.8 + 0.3)
               (15 + d 3%nat * 10) 25 (1.5 + d 4%nat * 2) 200)
          g1
    else g1
  else g.

(** The test of the landing loop at platform [r]: on screen, not
    removing, crossed from above during this step, overlapping sideways. *)
Definition landsOn (dt : Q) (g : Game) (r : Ref) : bool :=
  let p := heap g r in
  let e := egg g in
  let screenY := Platform.y p - Camera.y (camera g) in
  if Qltb screenY (-20) || Qltb H screenY then false
  else if Platform.removing p then false
  else
    let prevY := Egg.y e - Egg.vy e * dt in
    Qleb (prevY + EGG_R) (Platform.y p + 4)
    && Qleb (Platform.y p - 2) (Egg.y e + EGG_R)
    && Qltb (Platform.x p) (Egg.x e + EGG_R * 0.6)
    && Qltb (Egg.x e - EGG_R * 0.6) (Platform.x p + Platform.w p).

Definition landDust (r : Ref) (i : nat) (g : Game) : Game :=
  let e := egg g in
  let p := heap g r in
  pushParticle 5
    (fun d =>
       Particle.mk (Egg.x e + (d 0%nat - 0.5) * 20) (Platform.y p)
         ((d 1%nat - 0.5) * 4) (- (d 2%nat * 2 + 0.5))
         (20 + d 3%nat * 15) 35 (2 + d 4%nat * 3) (Platform.hue p))
    g.

Definition evolveBurst (i : nat) (g : Game) : Game :=
  let t := ofNat i / 20 in
  let e := egg g in
  pushParticle 4
    (fun d =>
       Particle.mk (Egg.x e) (Egg.y e)
         (cosTurn M t * (2 + d 0%nat * 3)) (sinTurn M t * (2 + d 1%nat * 3))
         (30 + d 2%nat * 20) 50 (3 + d 3%nat * 4) 50)
    g.

(** The landing branch for the platform [r] that matched, statement by
    statement.  First the egg is put on the platform. *)
Definition touchDown (r : Ref) (g : Game) : Game :=
  let py := Platform.y (heap g r) in
  set_state idle
    (set_egg
       (Egg.set_onPlatform (Some r)
          (Egg.set_vx 0 (Egg.set_vy 0 (Egg.set_y (py - EGG_R) (egg g)))))
       g).

(** Mark timed platform as landed. *)
Definition markLanded (r : Ref) (g : Game) : Game :=
  if isTimed (heap g r)
  then set_heap (store r (Platform.set_landed true (heap g r)) (heap g)) g
  else g.

(** Only gain XP if landing higher than before. *)
Definition rewardLanding (r : Ref) (g : Game) : Game :=
  let py := Platform.y (heap g r) in
  if Qltb py (highestPlatformY g) then
    set_landingFx (Some (LandingFx.mk py (Egg.x (egg g)) 20 "+3 XP"))
      (set_highestPlatformY py (set_xp (xp g + 3) g))
  else
    set_landingFx (Some (LandingFx.mk py (Egg.x (egg g)) 20 "SAFE")) g.

Definition scoreLanding (r : Ref) (g : Game) : Game :=
  let py := Platform.y (heap g r) in
  set_xpDecayTimer 0
    (set_score (Z.max (score g) (Qfloor ((540 - py) / 12))) g).

(** Evolution check. *)
Definition evolveCheck (g : Game) : Game :=
  let g1 := set_prevStageIdx (stageIdx g) g in
  let g2 := set_stageIdx (getStage (Qfloor (xp g1))) g1 in
  if (prevStageIdx g2 <? stageIdx g2)%nat
  then forUpTo 20 evolveBurst (set_evolveFlash true g2)
  else g2.

Definition land (r : Ref) (g : Game) : Game :=
  evolveCheck
    (forUpTo 8 (landDust r)
       (scoreLanding r (rewardLanding r (markLanded r (touchDown r g))))).

(** Landing check: the first platform of the local array that matches. *)
Definition landing (dt : Q) (plats : list Ref) (g : Game) : Game :=
  if Qltb 0 (Egg.vy (egg g)) then
    let eggScreenY := Egg.y (egg g) - Camera.y (camera g) in
    if Qltb eggScreenY (H + 10) then
      match find (landsOn dt g) plats with
      | Some r => land r g
      | None => g
      end
    else g
  else g.

(** Game over - tighter boundary. *)
Definition fallCheck (g : Game) : Game :=
  if Qltb (Camera.y (camera g) + H + 20) (Egg.y (egg g)) then
    set_highScore (Z.max (highScore g) (score g)) (set_state gameover g)
  else g.

(** Jumping physics: the whole [if (g.state === "jumping")] block. *)
Definition phaseJumping (dt : Q) (plats : list Ref) (g : Game) : Game :=
  match state g with
  | jumping =>
      let g1 := set_egg (integrate dt (egg g)) g in
      let g2 := trail g1 in
      let g3 := landing dt plats g2 in
      fallCheck g3
  | _ => g
  end.

(** Camera, and the best height reached. *)
Definition phaseCamera (dt : Q) (g : Game) : Game :=
  let targetCamY := Egg.y (egg g) - H * 0.55 in
  let cy := Camera.y (camera g) in
  let g1 :=
    if Qltb targetCamY cy
    then set_camera (Camera.mk (cy + (targetCamY - cy) * 0.07 * dt)) g
    else g in
  set_heightReached (Qmin (heightReached g1) (Egg.y (egg g1))) g1.

(** [Math.min(...ys)]; [None] stands for [Infinity], the result on an
    empty array. *)
Fixpoint minOf (ys : list Q) : option Q :=
  match ys with
  | [] => None
  | y :: ys' =>
      match minOf ys' with
      | None => Some y
      | Some m => Some (Qmin y m)
      end
  end.

(** The local platform array with the store, the allocation counter and
    the random position, as the [while] loop changes them. *)
Abbreviation Column := (list Ref * Heap * Ref * nat)%type (only parsing).

(** [while (minY > camera.y - 300) {...}], run for at most [fuel]
    iterations; [None] when the fuel does not reach the loop's exit. *)
Fixpoint extendColumn (fuel : nat) (camY minY : Q) (c : Column) : option Column :=
  if Qltb (camY - 300) minY then
    match fuel with
    | O => None
    | S fuel' =>
        let '(ps, hp, nr, sd) := c in
        let idx := List.length ps in
        let newY := minY - PLATFORM_GAP in
        let '(p, sd') := createPlatform newY idx sd in
        extendColumn fuel' camY newY (ps ++ [nr], store nr p hp, S nr, sd')
    end
  else Some c.

(** Iterations the loop needs from [minY]: each one lowers [minY] by the gap. *)
Definition columnFuel (camY minY : Q) : nat :=
  Z.to_nat (Qceiling ((minY - (camY - 300)) / PLATFORM_GAP)).

(** Platform management, on the local array [plats]. *)
Definition phaseColumn (plats : list Ref) (g : Game) : option Game :=
  match minOf (map (fun r => Platform.y (heap g r)) plats) with
  | None => None
  | Some minY =>
      let camY := Camera.y (camera g) in
      match extendColumn (columnFuel camY minY) camY minY
              (plats, heap g, nextRef g, seed g) with
      | None => None
      | Some (ps, hp, nr, sd) =>
          Some
            (set_platforms
               (filter (fun r => Qltb (Platform.y (hp r)) (camY + H + 50)) ps)
               (set_seed sd (set_nextRef nr (set_heap hp g))))
      end
  end.

Definition stepParticle (dt : Q) (p : Particle.t) : Particle.t :=
  Particle.mk
    (Particle.x p + Particle.vx p * dt)
    (Particle.y p + Particle.vy p * dt)
    (Particle.vx p)
    (Particle.vy p + 0.05 * dt)
    (Particle.life p - dt)
    (Particle.maxLife p) (Particle.size p) (Particle.hue p).

(** Particles, landing FX and the perfect-jump flash. *)
Definition phaseEffects (dt : Q) (g : Game) : Game :=
  let g1 :=
    set_particles
      (filter (fun p => Qltb 0 (Particle.life p)) (map (stepParticle dt) (particles g)))
      g in
  let g2 :=
    match landingFx g1 with
    | Some fx =>
        let fx1 := LandingFx.set_timer (LandingFx.timer fx - dt) fx in
        if Qleb (LandingFx.timer fx1) 0 then set_landingFx None g1
        else set_landingFx (Some fx1) g1
    | None => g1
    end in
  if Qltb 0 (perfectFlash g2) then set_perfectFlash (perfectFlash g2 - dt) g2 else g2.

(** Everything [update] does before the camera step. *)
Definition beforeCamera (dt : Q) (plats : list Ref) (g : Game) : Game :=
  phaseJumping dt plats
    (phaseGrounded dt
       (phaseDecay dt
          (phaseBirds dt
             (phaseSpawn dt
                (phaseTimed dt plats
                   (phaseMove dt plats
                      (phasePower dt g))))))).

(** Everything [update] does before platform management. *)
Definition prePhases (dt : Q) (plats : list Ref) (g : Game) : Game :=
  phaseCamera dt (beforeCamera dt plats g).

(** [update(dt)].  [plats] is the local [platforms] that the function
    binds on entry: it keeps naming the array of that moment after
    [g.platforms] is assigned a filtered copy. *)
Definition update (dt : Q) (g : Game) : option Game :=
  match state g with
  | gameover => Some g
  | _ =>
      let plats := platforms g in
      match phaseColumn plats (prePhases dt plats g) with
      | Some g' => Some (phaseEffects dt g')
      | None => None
      end
  end.

(** ** Scheduler *)

(** The [dt] that [loop(time)] computes, [lastTime] being the previous
    time stamp. *)
Definition loopDt (lastTime time : Q) : Q := Qmin ((time - lastTime) / 16.67) 2.5.

(** [loop(time)]: the new [lastTime] and the game after [update(dt)]. *)
Definition loop (time : Q) (st : Q * Game) : option (Q * Game) :=
  let '(lastTime, g) := st in
  match update (loopDt lastTime time) g with
  | Some g' => Some (time, g')
  | None => None
  end.

(** ** Runs *)

(** What can happen to [game.current]: a frame with its [dt], or one of
    the three commands. *)
Inductive Event :=
| Frame (dt : Q)
| BeginCharge
| ReleaseJump
| Reset.

Definition apply (ev : Event) (g : Game) : option Game :=
  match ev with
  | Frame dt => update dt g
  | BeginCharge => Some (startCharging g)
  | ReleaseJump => Some (releaseJump g)
  | Reset => Some (initGame g)
  end.

Fixpoint run (evs : list Event) (g : Game) : option Game :=
  match evs with
  | [] => Some g
  | ev :: evs' =>
      match apply ev g with
      | Some g' => run evs' g'
      | None => None
      end
  end.

End Model.

(** The value [useRef] gives [game.current] before [initGame] runs. *)
Definition game0 : Game :=
  Build_Game
    idle
    (Egg.mk (W / 2) 0 0 0 None)
    []
    (fun _ => startPlatform)
    O
    (Camera.mk 0)
    (Power.mk 50 1 1.6)
    0%Z 0%Z
    0 0
    O O
    [] []
    0 0
    None
    0 540
    false
    O.

(** ** Input handlers *)

(** [onKeyDown(e)]: [space] tells whether the key is the space bar
    ([e.code === "Space" || e.key === " "]), [rep] is [e.repeat]. *)
Definition onKeyDown (M : MathEnv) (space rep : bool) (g : Game) : Game :=
  if space then
    if rep then g
    else
      match state g with
      | gameover => initGame M g
      | _ => startCharging g
      end
  else g.

Definition onKeyUp (M : MathEnv) (space : bool) (g : Game) : Game :=
  if space then releaseJump M g else g.

Definition handlePointerDown (M : MathEnv) (g : Game) : Game :=
  match state g with
  | gameover => initGame M g
  | _ => startCharging g
  end.

Definition handlePointerUp (M : MathEnv) (g : Game) : Game := releaseJump M g.

(** ** Page header *)

(** [STAGES[i]]; [None] stands for [undefined], past the end of the table. *)
Definition stageAt (i : nat) : option Stage := nth_error STAGES i.

(** The width of the experience bar, in percent, from the mirrored tier
    [uiStage] and experience [uiXP]; [None] stands for the TypeError of
    [STAGES[uiStage].need] when [uiStage] is not a row of the table. *)
Definition xpProgress (uiStage : nat) (uiXP : Q) : option Q :=
  match stageAt uiStage with
  | None => None
  | Some stageData =>
      let nextStage :=
        if (uiStage <? List.length STAGES - 1)%nat then stageAt (S uiStage) else None in
      let prevStageXP := inject_Z (need stageData) in
      match nextStage with
      | Some nx =>
          let nextStageXP := inject_Z (need nx) in
          Some (Qmin 100 ((uiXP - prevStageXP) / (nextStageXP - prevStageXP) * 100))
      | None => Some 100
      end
  end.

(** [Math.floor(uiXP)]. *)
Definition displayXP (uiXP : Q) : Z := Qfloor uiXP.

(** ** Sample inputs *)

(** A host whose random source always answers one half. *)
Definition hostHalf : MathEnv :=
  {| random := fun _ => 0.5; cosTurn := fun _ => 1; sinTurn := fun _ => 0 |}.

(** A host whose random source always answers 1, the end of the unit
    interval that products with an answer just below 1 can reach. *)
Definition hostOne : MathEnv :=
  {| random := fun _ => 1; cosTurn := fun _ => 1; sinTurn := fun _ => 0 |}.

(** A freshly reset game. *)
Definition fresh : Game := initGame hostHalf game0.

(** The same game once the run has ended. *)
Definition ended : Game := set_state gameover fresh.

(** The egg in the air just above the starting platform. *)
Definition airborne : Game :=
  set_state jumping (set_egg (Egg.set_onPlatform None (egg fresh)) fresh).

(** Charging on the starting platform with the bar at its top. *)
Definition fullCharge : Game :=
  set_power (Power.mk 100 (-1) 1.6) (set_state charging fresh).

(** Reset, hold the bar until it is full, release, and fly for a frame. *)
Definition perfectRun : list Event :=
  Reset :: BeginCharge :: repeat (Frame 2.5) 25 ++ [ReleaseJump; Frame 1].

(** A bird one step to the right of the egg of [g], at its height. *)
Definition birdAt (g : Game) : Bird.t :=
  Bird.mk (Egg.x (egg g) + 2) (Egg.y (egg g)) 2 0.

(** Charging with a bird about to arrive. *)
Definition chargingUnderBird : Game :=
  set_birds [birdAt fullCharge] fullCharge.

(** Charging on a fragile platform (the second object of the column). *)
Definition onFragile : Game :=
  set_state charging
    (set_egg (Egg.mk 150 (460 - EGG_R) 0 0 (Some 1%nat))
       (set_heap
          (store 1%nat (Platform.mk 100 460 100 11 0 270 fragile 0 false false)
             (heap fresh))
          fresh)).

(** Falling onto the starting platform, the best platform height so far
    being lower down. *)
Definition descending : Game :=
  set_highestPlatformY 600
    (set_state jumping (set_egg (Egg.mk 200 520 0 1 None) fresh)).

(** At rest on a timed platform (the second object of the column) whose
    countdown, already started, has one time unit left. *)
Definition onTimed : Game :=
  set_egg (Egg.mk 150 (460 - EGG_R) 0 0 (Some 1%nat))
    (set_heap
       (store 1%nat (Platform.mk 100 460 100 11 0 0 timed 1 true false)
          (heap fresh))
       fresh).

(** At rest at the bottom for so long that the bird timer has reached
    the value given to the lowest band. *)
Definition idleLong : Game := set_birdTimer 99999 fresh.

(** The heights of the platforms of a fresh column, in column order. *)
Definition columnHeights : list Q :=
  map (fun r => Platform.y (heap fresh r)) (platforms fresh).

(** A player who resets and then leaves the game alone for [n] frames of
    the longest time delta. *)
Definition idling (n : nat) : list Event := Reset :: repeat (Frame 2.5) n.

(** The number of such frames after which the bird timer stands at
    99997.5. *)
Definition longWait : nat := Z.to_nat 39999.

(** The egg in the air far below the view, falling. *)
Definition falling : Game :=
  set_state jumping (set_egg (Egg.mk 200 700 0 1 None) fresh).

(** In the air with the camera so high that the column ends less than
    300 above it. *)
Definition climbed : Game := set_camera (Camera.mk (-1300)) airborne.

(** In the air well above the starting platform, moving up: the camera
    target is above the camera. *)
Definition rising : Game :=
  set_state jumping (set_egg (Egg.mk 200 200 0 (-5) None) fresh).

(** At rest in the second tier, the experience just above its threshold
    of 15. *)
Definition evolved : Game := set_xp 15.001 (set_stageIdx 1 fresh).

(** [o] is a result and the result satisfies [P]. *)
Definition returns {A : Type} (o : option A) (P : A -> Prop) : Prop :=
  match o with
  | Some a => P a
  | None => False
  end.

(** [o] is a result. *)
Definition isSome {A : Type} (o : option A) : bool :=
  match o with Some _ => true | None => false end.

(** ** Vocabulary of the properties *)

(** [keeps f op]: the operation [op] leaves the observation [f] of the
    game as it was. *)
Definition keeps {B : Type} (f : Game -> B) (op : Game -> Game) : Prop :=
  forall g, f (op g) = f g.

(** An operation that only emits particles changes [particles] and [seed]. *)
Definition fxOnly (op : Game -> Game) : Prop :=
  forall g, exists ps sd, op g = set_seed sd (set_particles ps g).

(** Moving a platform changes its [x] and [speed] only. *)
Definition sameButMotion (p p' : Platform.t) : Prop :=
  p' = Platform.set_speed (Platform.speed p') (Platform.set_x (Platform.x p') p).

(** The countdown changes a platform's [timer] and [removing] only. *)
Definition sameButTimer (p p' : Platform.t) : Prop :=
  p' = Platform.set_removing (Platform.removing p') (Platform.set_timer (Platform.timer p') p).

(** The egg when its platform gives way: no platform, no vertical speed. *)
Definition dropped (e : Egg.t) : Egg.t := Egg.set_vy 0 (Egg.set_onPlatform None e).

(** The part of [land] that is not particles. *)
Definition landed (r : Ref) (g : Game) : Game :=
  let py := Platform.y (heap g r) in
  let higher := Qltb py (highestPlatformY g) in
  let x := if higher then xp g + 3 else xp g in
  set_stageIdx (getStage (Qfloor x))
    (set_prevStageIdx (stageIdx g)
       (set_xpDecayTimer 0
          (set_score (Z.max (score g) (Qfloor ((540 - py) / 12)))
             (set_landingFx
                (Some (LandingFx.mk py (Egg.x (egg g)) 20
                         (if higher then "+3 XP" else "SAFE")))
                (set_highestPlatformY (if higher then py else highestPlatformY g)
                   (set_xp x
                      (set_heap
                         (if isTimed (heap g r)
                          then store r (Platform.set_landed true (heap g r)) (heap g)
                          else heap g)
                         (set_state idle
                            (set_egg
                               (Egg.mk (Egg.x (egg g)) (py - EGG_R) 0 0 (Some r))
                               g))))))))).

(** The airborne egg after integration and trail particles. *)
Definition flown (dt : Q) (ps : list Particle.t) (sd : nat) (g : Game) : Game :=
  set_seed sd (set_particles ps (set_egg (integrate dt (egg g)) g)).

(** [r] was allocated and is not in the column. *)
Definition gone (r : Ref) (g : Game) : Prop :=
  (r < nextRef g)%nat /\ ~ In r (platforms g).

(** [quiet g]: the egg rests on the starting platform of a fresh column,
    nothing has been gained and no bird is around. *)
Definition quiet (g : Game) : Prop :=
  state g = idle
  /\ Qltb 0 (xp g) = false
  /\ birds g = []
  /\ Egg.onPlatform (egg g) = Some 0%nat
  /\ heap g 0%nat = startPlatform
  /\ camera g = Camera.mk 0
  /\ map (fun r => Platform.y (heap g r)) (platforms g) = columnHeights
  /\ 522 <= heightReached g
  /\ Egg.x (egg g) <= 382.

(** The bird that the spawning phase creates in game [g]. *)
Definition newBird (M : MathEnv) (g : Game) : Bird.t :=
  Bird.mk (W + 30)
    (Camera.y (camera g) + 80 + random M (seed g) * (H - 200))
    (1.5 + random M (S (seed g)) * 1.2
     + Qmin 2 (inject_Z (metres (heightReached g)) * 0.01))
    0.

(** [Math.random()] answers between 0 and 1, both included: the products
    the generator forms with an answer just below 1 may be as large as
    with 1 itself. *)
Definition closedRandom (M : MathEnv) : Prop :=
  forall n, 0 <= random M n /\ random M n <= 1.

(** [Math.random()] answers in the unit interval, 1 excluded. *)
Definition unitRandom (M : MathEnv) : Prop :=
  forall n, 0 <= random M n /\ random M n < 1.

(** An operation that appends [k] particles and changes nothing else but
    the random position. *)
Definition emits (k : nat) (op : Game -> Game) : Prop :=
  forall g, exists ps sd,
    op g = set_seed sd (set_particles (particles g ++ ps) g) /\ List.length ps = k.

(** An observation of the game that platform management, the effects and
    the camera step cannot change. *)
Definition tailStable {B : Type} (f : Game -> B) : Prop :=
  forall pf fx ps pl sd nr hp hr cam G,
    f (set_perfectFlash pf (set_landingFx fx (set_particles ps (set_platforms pl
         (set_seed sd (set_nextRef nr (set_heap hp
            (set_heightReached hr (set_camera cam G)))))))))
    = f G.


(** The egg's centre is at least its radius away from both side walls. *)
Definition inField (e : Egg.t) : Prop :=
  EGG_R <= Egg.x e /\ Egg.x e <= W - EGG_R.

(** The egg is on a platform exactly in the two grounded states. *)
Definition supported (g : Game) : Prop :=
  (isGrounded (state g) = true -> Egg.onPlatform (egg g) <> None)
  /\ (isGrounded (state g) = false -> Egg.onPlatform (egg g) = None).

(** At rest the tier is the tier of the experience. *)
Definition synced (g : Game) : Prop :=
  isGrounded (state g) = true -> stageIdx g = getStage (Qfloor (xp g)).

(** What a phase may do to the state and the egg's platform: leave both,
    or put the egg in the air. *)
Definition staysOrFalls (g : Game) (st : GameState) (e : Egg.t) : Prop :=
  (st = state g /\ Egg.onPlatform e = Egg.onPlatform (egg g))
  \/ (st = jumping /\ Egg.onPlatform e = None).

(** The state changes that each event allows. *)
Definition stepOk (ev : Event) (s s' : GameState) : Prop :=
  match ev with
  | Frame _ => (s' = charging -> s = charging) /\ (s = gameover -> s' = gameover)
  | BeginCharge => (s = idle /\ s' = charging) \/ (s <> idle /\ s' = s)
  | ReleaseJump => (s = charging /\ s' = jumping) \/ (s <> charging /\ s' = s)
  | Reset => s' = idle
  end.

(** Every reference in the column has been allocated. *)
Definition allocated (g : Game) : Prop :=
  forall r, In r (platforms g) -> (r < nextRef g)%nat.

(** The platform under the egg is allocated and not more than 20 above
    the top edge of the view. *)
Definition eggInView (g : Game) : Prop :=
  forall r, Egg.onPlatform (egg g) = Some r ->
    (r < nextRef g)%nat /\ Camera.y (camera g) - 20 <= Platform.y (heap g r).

(** So is every platform of the column that is marked as removed. *)
Definition marksInView (g : Game) : Prop :=
  forall r, In r (platforms g) -> Platform.removing (heap g r) = true ->
    Camera.y (camera g) - 20 <= Platform.y (heap g r).

(** Some platform of the column is at least 300 above the camera. *)
Definition stocked (g : Game) : Prop :=
  exists t, In t (platforms g)
            /\ Platform.y (heap g t) <= Camera.y (camera g) - 300.

Definition sound (g : Game) : Prop :=
  allocated g /\ eggInView g /\ marksInView g /\ stocked g.

(** Time does not run backwards. *)
Definition forward (ev : Event) : Prop :=
  match ev with
  | Frame dt => 0 <= dt
  | _ => True
  end.

(** * Properties *)

(** ** Comparisons *)

Lemma Qleb_le (a b : Q) : Qleb a b = true <-> a <= b.
Proof. apply Qle_bool_iff. Qed.

Lemma Qltb_lt (a b : Q) : Qltb a b = true <-> a < b.
Proof.
  unfold Qltb. rewrite negb_true_iff. split; intro Hab.
  - apply Qnot_le_lt. intro Hle. apply Qle_bool_iff in Hle. congruence.
  - destruct (Qle_bool b a) eqn:E; [|reflexivity].
    apply Qle_bool_iff in E. exfalso. exact (Qlt_not_le _ _ Hab E).
Qed.

Lemma Qltb_ge (a b : Q) : Qltb a b = false <-> b <= a.
Proof.
  unfold Qltb. rewrite negb_false_iff. apply Qle_bool_iff.
Qed.

Lemma Qleb_gt (a b : Q) : Qleb a b = false <-> b < a.
Proof.
  split; intro Hab.
  - apply Qnot_le_lt. intro Hle. apply Qleb_le in Hle. congruence.
  - destruct (Qleb a b) eqn:E; [|reflexivity].
    apply Qleb_le in E. exfalso. exact (Qlt_not_le _ _ Hab E).
Qed.

(** ** The model on small inputs *)

Example getStage_steps :
  map getStage [0; 14; 15; 39; 40; 75; 120; 180; 259; 260; 5000; -3]%Z
  = [0; 0; 1; 1; 2; 3; 4; 5; 5; 6; 6; 0]%nat.
Proof. reflexivity. Qed.

Example power_bounces_at_the_top :
  stepPower 1 (Power.mk 99 1 1.6) = Power.mk 100 (-1) 1.6.
Proof. reflexivity. Qed.

Example power_bounces_at_the_bottom :
  stepPower 1 (Power.mk 1 (-1) 1.6) = Power.mk 0 1 1.6.
Proof. reflexivity. Qed.

Example platform_turns_at_the_right_margin :
  movePlatform 1 (Platform.mk 290 100 100 11 3 0 normal 0 false false)
  = Platform.mk (W - 8 - 100) 100 100 11 (- Qabs 3) 0 normal 0 false false.
Proof. reflexivity. Qed.

Example fresh_column :
  platforms fresh = seq 0 26
  /\ map (fun y => Qeq_bool y 540) (firstn 1 columnHeights) = [true]
  /\ map (fun r => Platform.type (heap fresh r)) (firstn 3 (platforms fresh))
     = [normal; normal; normal]
  /\ Egg.onPlatform (egg fresh) = Some 0%nat.
Proof. repeat split; vm_compute; reflexivity. Qed.

Example no_platforms_no_return : update hostHalf 1 game0 = None.
Proof. reflexivity. Qed.

Lemma fxOnly_pushParticle M k lit : fxOnly (pushParticle M k lit).
Proof. intro g. eexists _, _. reflexivity. Qed.

Lemma fxOnly_forUpTo n body : (forall i, fxOnly (body i)) -> fxOnly (forUpTo n body).
Proof.
  intros Hb. unfold forUpTo. generalize (seq 0 n) as l.
  induction l as [|i l IH]; intro g; cbn.
  - exists (particles g), (seed g). destruct g; reflexivity.
  - destruct (Hb i g) as (ps & sd & ->).
    destruct (IH (set_seed sd (set_particles ps g))) as (ps' & sd' & ->).
    exists ps', sd'. reflexivity.
Qed.

Lemma fxOnly_perfectBurst M i : fxOnly (perfectBurst M i).
Proof. intro g. eexists _, _. reflexivity. Qed.

Lemma fxOnly_sparkleRing M i : fxOnly (sparkleRing M i).
Proof. intro g. eexists _, _. reflexivity. Qed.

Lemma fxOnly_launchDust M i : fxOnly (launchDust M i).
Proof. intro g. eexists _, _. reflexivity. Qed.

Lemma fxOnly_hitDust M i : fxOnly (hitDust M i).
Proof. intro g. eexists _, _. reflexivity. Qed.

Lemma fxOnly_devolveDust M i : fxOnly (devolveDust M i).
Proof. intro g. eexists _, _. reflexivity. Qed.

Lemma fxOnly_landDust M r i : fxOnly (landDust M r i).
Proof. intro g. eexists _, _. reflexivity. Qed.

Lemma fxOnly_evolveBurst M i : fxOnly (evolveBurst M i).
Proof. intro g. eexists _, _. reflexivity. Qed.

(** ** The commands *)

Lemma gameover_frame_noop_aux (M : MathEnv) (dt : Q) (g : Game) :
  state g = gameover -> update M dt g = Some g.
Proof. intro Hs. unfold update. rewrite Hs. reflexivity. Qed.

(** C10: in [gameover] a frame changes nothing, whatever [dt] is, and
    neither do begin-charge and release-jump; reset leads back to [idle]. *)
Theorem gameover_frame_is_noop (M : MathEnv) (dt : Q) (g : Game) :
  state g = gameover ->
  update M dt g = Some g
  /\ startCharging g = g
  /\ releaseJump M g = g
  /\ state (initGame M g) = idle.
Proof.
  intro Hs. unfold update, startCharging, releaseJump. rewrite Hs.
  split; [reflexivity|]. split; [reflexivity|]. split; [reflexivity|].
  unfold initGame.
  destruct (forUpTo 25 _ _) as [[[ps hp] nr] sd]. reflexivity.
Qed.

Lemma gameover_frame_is_noop_witness :
  state ended = gameover
  /\ update hostHalf 1 ended = Some ended
  /\ startCharging ended = ended
  /\ releaseJump hostHalf ended = ended
  /\ state (initGame hostHalf ended) = idle.
Proof.
  split; [reflexivity|].
  apply (gameover_frame_is_noop hostHalf 1 ended). reflexivity.
Defined.

(** ** The scheduler's time delta *)

Lemma frame_units (a : Q) : a / 16.67 == a * (100 # 1667).
Proof. field. Qed.

(** C1 as the code has it: [loop] hands [update] the value
    [min((time - lastTime) / 16.67, 2.5)].  It is never above 2.5 frame
    intervals; it is non-negative exactly when the clock did not run
    backwards, there being no clamp from below. *)
Theorem loop_dt_bounded_above (M : MathEnv) (lastTime time : Q) (g : Game) :
  loop M time (lastTime, g)
  = option_map (fun g' => (time, g')) (update M (loopDt lastTime time) g)
  /\ loopDt lastTime time <= 2.5
  /\ (0 <= loopDt lastTime time <-> lastTime <= time).
Proof.
  split; [|split].
  - unfold loop. destruct (update M _ g); reflexivity.
  - apply Q.le_min_r.
  - unfold loopDt. rewrite Q.min_glb_iff, frame_units. split.
    + intros [Hd _]. lra.
    + intro Hle. split; lra.
Qed.

Lemma loop_dt_bounded_above_witness :
  loopDt 0 1000 <= 2.5 /\ (0 <= loopDt 0 1000 <-> 0 <= 1000).
Proof.
  exact (proj2 (loop_dt_bounded_above hostHalf 0 1000 fresh)).
Defined.

(** C1 as stated fails: when the time stamp is below the previous one the
    delta is negative, and [update] integrates with it (gravity then acts
    upwards: the egg at rest leaves the frame with velocity -28). *)
Lemma negative_dt_reaches_integrator :
  ~ (0 <= loopDt 1667 0)
  /\ returns (loop hostHalf 0 (1667, airborne))
       (fun st => Egg.vy (egg (snd st)) == Egg.vy (egg airborne) + GRAVITY * loopDt 1667 0).
Proof.
  split.
  - vm_compute. intro Hc. apply Hc. reflexivity.
  - vm_compute. reflexivity.
Qed.

(** ** Releasing a jump *)

(** What [celebrate] changes: the experience, the flash, the landing cue
    and the particles (with the random position). *)
Lemma celebrate_footprint (M : MathEnv) (g : Game) :
  exists ps sd fx pf,
    celebrate M g
    = set_seed sd (set_particles ps (set_landingFx fx (set_perfectFlash pf
        (set_xp (if Qleb 99 (Power.value (power g)) then xp g + 5 else xp g) g)))).
Proof.
  unfold celebrate. destruct (Qleb 99 _).
  - cbv zeta.
    destruct (fxOnly_forUpTo 24 (perfectBurst M) (fxOnly_perfectBurst M)
                (set_xp (xp g + 5) (set_perfectFlash 30 g))) as (ps1 & sd1 & ->).
    destruct (fxOnly_forUpTo 12 (sparkleRing M) (fxOnly_sparkleRing M)
                (set_seed sd1 (set_particles ps1
                   (set_xp (xp g + 5) (set_perfectFlash 30 g))))) as (ps2 & sd2 & ->).
    eexists ps2, sd2, _, 30. reflexivity.
  - destruct (fxOnly_forUpTo 6 (launchDust M) (fxOnly_launchDust M) g) as (ps & sd & ->).
    exists ps, sd, (landingFx g), (perfectFlash g). destruct g; reflexivity.
Qed.

(** The egg and the state that [releaseJump] leaves when charging. *)
Lemma releaseJump_egg_state (M : MathEnv) (g : Game) :
  state g = charging ->
  egg (releaseJump M g)
  = Egg.mk (Egg.x (egg g)) (Egg.y (egg g))
      (match Egg.onPlatform (egg g) with
       | Some r => Platform.speed (heap g r) * 0.35
       | None => 0
       end)
      (- (MAX_JUMP_VEL * Qmax 0.15 (Power.value (power g) / 100)
          * (1 + ofNat (stageIdx g) * 0.12)))
      None
  /\ state (releaseJump M g) = jumping.
Proof.
  intro Hs. unfold releaseJump. rewrite Hs.
  destruct (celebrate_footprint M (launch g)) as (ps & sd & fx & pf & ->).
  split; reflexivity.
Qed.

(** C3: [releaseJump] does nothing unless the state is [charging]; when
    charging it launches the egg upwards at
    [MAX_JUMP_VEL * max(0.15, power/100) * (1 + stageIdx * 0.12)], gives
    it 0.35 of the launch platform's lateral speed, and sets the state to
    [jumping]; at power 100 and tier 0 the launch speed is
    [MAX_JUMP_VEL * 1 * 1]. *)
Theorem releaseJump_launch (M : MathEnv) (g : Game) :
  (state g <> charging -> releaseJump M g = g)
  /\ (state g = charging ->
      - Egg.vy (egg (releaseJump M g))
        == MAX_JUMP_VEL * Qmax 0.15 (Power.value (power g) / 100)
           * (1 + ofNat (stageIdx g) * 0.12)
      /\ (forall r, Egg.onPlatform (egg g) = Some r ->
          Egg.vx (egg (releaseJump M g)) = Platform.speed (heap g r) * 0.35)
      /\ state (releaseJump M g) = jumping
      /\ (Power.value (power g) == 100 -> stageIdx g = O ->
          - Egg.vy (egg (releaseJump M g)) == MAX_JUMP_VEL * 1 * 1)).
Proof.
  split.
  - intro Hs. unfold releaseJump. destruct (state g); congruence.
  - intro Hs. destruct (releaseJump_egg_state M g Hs) as [He Hst].
    rewrite He. cbn [Egg.vy Egg.vx].
    split; [apply Qopp_involutive|].
    split; [intros r Hr; rewrite Hr; reflexivity|].
    split; [exact Hst|].
    intros Hp Hi. rewrite Hi, Qopp_involutive.
    assert (Hm : Qmax 0.15 (Power.value (power g) / 100) == 1).
    { rewrite Q.max_r.
      - rewrite Hp. reflexivity.
      - rewrite Hp. discriminate. }
    rewrite Hm. reflexivity.
Qed.

Lemma releaseJump_launch_witness :
  state fullCharge = charging
  /\ - Egg.vy (egg (releaseJump hostHalf fullCharge)) == MAX_JUMP_VEL * 1 * 1
  /\ state (releaseJump hostHalf fullCharge) = jumping.
Proof.
  split; [reflexivity|].
  destruct (proj2 (releaseJump_launch hostHalf fullCharge) eq_refl)
    as (_ & _ & Hst & Hv).
  split; [apply Hv; reflexivity | exact Hst].
Defined.

(** ** What each phase of a frame may change *)

Lemma phasePower_footprint (dt : Q) (g : Game) :
  phasePower dt g
  = set_power (match state g with
               | charging => stepPower dt (power g)
               | _ => power g
               end) g.
Proof. unfold phasePower. destruct g as [[] ? ? ? ? ? ? ? ? ? ? ? ? ? ? ? ? ? ? ? ? ?]; reflexivity. Qed.

Lemma movePlatform_motion (dt : Q) (p : Platform.t) : sameButMotion p (movePlatform dt p).
Proof.
  unfold movePlatform, sameButMotion.
  destruct (Qeqb _ 0); [destruct p; reflexivity|].
  cbv zeta. destruct (Qleb _ 8); cbn; destruct (Qleb _ _); reflexivity.
Qed.

Lemma sameButMotion_refl (p : Platform.t) : sameButMotion p p.
Proof. destruct p; reflexivity. Qed.

Lemma sameButMotion_trans (p q r : Platform.t) :
  sameButMotion p q -> sameButMotion q r -> sameButMotion p r.
Proof. unfold sameButMotion. intros Hq Hr. rewrite Hr, Hq. reflexivity. Qed.

Lemma moveAll_motion (dt : Q) (plats : list Ref) (hp : Heap) (r : Ref) :
  sameButMotion (hp r)
    (fold_left (fun hp r => store r (movePlatform dt (hp r)) hp) plats hp r).
Proof.
  revert hp. induction plats as [|r0 plats IH]; intro hp; cbn [fold_left].
  - apply sameButMotion_refl.
  - eapply sameButMotion_trans; [|apply IH].
    unfold store. destruct (Nat.eqb r r0) eqn:E.
    + apply Nat.eqb_eq in E. subst r0. apply movePlatform_motion.
    + apply sameButMotion_refl.
Qed.

Lemma sameButTimer_refl (p : Platform.t) : sameButTimer p p.
Proof. destruct p; reflexivity. Qed.

Lemma sameButTimer_trans (p q r : Platform.t) :
  sameButTimer p q -> sameButTimer q r -> sameButTimer p r.
Proof. unfold sameButTimer. intros Hq Hr. rewrite Hr, Hq. reflexivity. Qed.

Lemma timedStep_footprint (dt : Q) (g : Game) (r : Ref) :
  exists hp e st,
    timedStep dt g r = set_state st (set_egg e (set_heap hp g))
    /\ (st = state g \/ st = jumping)
    /\ (e = egg g \/ e = dropped (egg g))
    /\ (forall r', sameButTimer (heap g r') (hp r')).
Proof.
  unfold timedStep.
  destruct (isTimed _ && _ && _).
  - cbv zeta. destruct (Qleb _ 0 && _).
    + destruct (Ref_eqb _ _).
      * eexists _, _, _. split; [reflexivity|].
        split; [right; reflexivity|]. split; [right; reflexivity|].
        intro r'. cbn. unfold store. destruct (Nat.eqb r' r) eqn:E.
        -- apply Nat.eqb_eq in E. subst r'. destruct (heap g r); reflexivity.
        -- apply sameButTimer_refl.
      * exists (store r (Platform.set_removing true (Platform.set_timer 0
                  (Platform.set_timer (Platform.timer (heap g r) - dt) (heap g r)))) (heap g)),
               (egg g), (state g).
        split; [destruct g; reflexivity|].
        split; [left; reflexivity|]. split; [left; reflexivity|].
        intro r'. unfold store. destruct (Nat.eqb r' r) eqn:E.
        -- apply Nat.eqb_eq in E. subst r'. destruct (heap g r); reflexivity.
        -- apply sameButTimer_refl.
    + exists (store r (Platform.set_timer (Platform.timer (heap g r) - dt) (heap g r)) (heap g)),
             (egg g), (state g).
      split; [destruct g; reflexivity|].
      split; [left; reflexivity|]. split; [left; reflexivity|].
      intro r'. unfold store. destruct (Nat.eqb r' r) eqn:E.
      * apply Nat.eqb_eq in E. subst r'. destruct (heap g r); reflexivity.
      * apply sameButTimer_refl.
  - exists (heap g), (egg g), (state g).
    split; [destruct g; reflexivity|].
    split; [left; reflexivity|]. split; [left; reflexivity|].
    intro r'. apply sameButTimer_refl.
Qed.

Lemma timedLoop_footprint (dt : Q) (plats : list Ref) (g : Game) :
  exists hp e st,
    fold_left (timedStep dt) plats g = set_state st (set_egg e (set_heap hp g))
    /\ (st = state g \/ st = jumping)
    /\ (e = egg g \/ e = dropped (egg g))
    /\ (forall r', sameButTimer (heap g r') (hp r')).
Proof.
  revert g. induction plats as [|r plats IH]; intro g; cbn [fold_left].
  - exists (heap g), (egg g), (state g).
    split; [destruct g; reflexivity|].
    split; [left; reflexivity|]. split; [left; reflexivity|].
    intro r'. apply sameButTimer_refl.
  - destruct (timedStep_footprint dt g r) as (hp1 & e1 & st1 & -> & Hst1 & He1 & Hhp1).
    destruct (IH (set_state st1 (set_egg e1 (set_heap hp1 g))))
      as (hp2 & e2 & st2 & -> & Hst2 & He2 & Hhp2).
    exists hp2, e2, st2. split; [reflexivity|].
    cbn in Hst2, He2, Hhp2.
    split; [|split].
    + destruct Hst2 as [->| ->]; [exact Hst1 | right; reflexivity].
    + destruct He2 as [->| ->]; [exact He1|].
      destruct He1 as [->| ->]; right; reflexivity.
    + intro r'. eapply sameButTimer_trans; [apply Hhp1 | apply Hhp2].
Qed.

Lemma phaseTimed_footprint (dt : Q) (plats : list Ref) (g : Game) :
  exists hp e st pl,
    phaseTimed dt plats g
    = set_platforms pl (set_state st (set_egg e (set_heap hp g)))
    /\ (st = state g \/ st = jumping)
    /\ (e = egg g \/ e = dropped (egg g))
    /\ (forall r', sameButTimer (heap g r') (hp r'))
    /\ pl = filter (fun r => negb (expiredTimed hp r)) (platforms g).
Proof.
  unfold phaseTimed.
  destruct (timedLoop_footprint dt plats g) as (hp & e & st & -> & Hst & He & Hhp).
  exists hp, e, st, (filter (fun r => negb (expiredTimed hp r)) (platforms g)).
  split; [reflexivity|]. repeat split; assumption.
Qed.

Lemma phaseSpawn_footprint (M : MathEnv) (dt : Q) (g : Game) :
  exists sd bs t,
    phaseSpawn M dt g = set_seed sd (set_birds bs (set_birdTimer t g)).
Proof.
  unfold phaseSpawn. cbv zeta. destruct (Qltb _ _).
  - eexists _, _, _. reflexivity.
  - exists (seed g), (birds g), (birdTimer g + dt). destruct g; reflexivity.
Qed.

Lemma birdStep_footprint (M : MathEnv) (dt : Q) (b : Bird.t) (g : Game) :
  exists ps sd e st,
    snd (birdStep M dt b g) = set_seed sd (set_particles ps (set_state st (set_egg e g)))
    /\ (st = state g \/ st = jumping)
    /\ Egg.x e = Egg.x (egg g) /\ Egg.y e = Egg.y (egg g).
Proof.
  unfold birdStep. cbv zeta. destruct (birdHits _ _).
  - cbn [snd].
    match goal with |- context [forUpTo 6 (hitDust M) ?g2] =>
      destruct (fxOnly_forUpTo 6 (hitDust M) (fxOnly_hitDust M) g2) as (ps & sd & ->)
    end.
    cbn [state set_egg].
    destruct (isGrounded (state g)).
    + eexists ps, sd, _, jumping. split; [reflexivity|].
      split; [right; reflexivity|]. split; reflexivity.
    + exists ps, sd, (Egg.set_vx (-4) (egg g)), (state g).
      split; [destruct g; reflexivity|].
      split; [left; reflexivity|]. split; reflexivity.
  - exists (particles g), (seed g), (egg g), (state g).
    split; [destruct g; reflexivity|].
    split; [left; reflexivity|]. split; reflexivity.
Qed.

Lemma birdLoop_footprint (M : MathEnv) (dt : Q) (bs : list Bird.t) (g : Game) :
  exists ps sd e st,
    snd (birdLoop M dt bs g) = set_seed sd (set_particles ps (set_state st (set_egg e g)))
    /\ (st = state g \/ st = jumping)
    /\ Egg.x e = Egg.x (egg g) /\ Egg.y e = Egg.y (egg g).
Proof.
  revert g. induction bs as [|b bs IH]; intro g; cbn [birdLoop].
  - exists (particles g), (seed g), (egg g), (state g).
    split; [destruct g; reflexivity|].
    split; [left; reflexivity|]. split; reflexivity.
  - destruct (birdStep_footprint M dt b g) as (ps1 & sd1 & e1 & st1 & H1 & Hst1 & Hx1 & Hy1).
    destruct (birdStep M dt b g) as [b1 g1]. cbn [snd] in H1. subst g1.
    destruct (IH (set_seed sd1 (set_particles ps1 (set_state st1 (set_egg e1 g)))))
      as (ps2 & sd2 & e2 & st2 & H2 & Hst2 & Hx2 & Hy2).
    destruct (birdLoop M dt bs _) as [bs1 g2]. cbn [snd] in H2 |- *. subst g2.
    exists ps2, sd2, e2, st2. split; [reflexivity|].
    cbn in Hst2, Hx2, Hy2.
    split; [|split].
    + destruct Hst2 as [->| ->]; [exact Hst1 | right; reflexivity].
    + congruence.
    + congruence.
Qed.

Lemma phaseBirds_footprint (M : MathEnv) (dt : Q) (g : Game) :
  exists bs ps sd e st,
    phaseBirds M dt g
    = set_birds bs (set_seed sd (set_particles ps (set_state st (set_egg e g))))
    /\ (st = state g \/ st = jumping)
    /\ Egg.x e = Egg.x (egg g) /\ Egg.y e = Egg.y (egg g).
Proof.
  unfold phaseBirds.
  destruct (birdLoop_footprint M dt (birds g) g) as (ps & sd & e & st & H1 & Hst & Hx & Hy).
  destruct (birdLoop M dt (birds g) g) as [bs g1]. cbn [snd] in H1. subst g1.
  eexists _, ps, sd, e, st. split; [reflexivity|]. repeat split; assumption.
Qed.

Lemma phaseDecay_footprint (M : MathEnv) (dt : Q) (g : Game) :
  exists ps sd si x t,
    phaseDecay M dt g
    = set_seed sd (set_particles ps (set_stageIdx si (set_xp x (set_xpDecayTimer t g))))
    /\ (x = xp g \/ x = Qmax 0 (xp g - 0.008 * dt)).
Proof.
  unfold phaseDecay. destruct (isGrounded (state g) && Qltb 0 (xp g)).
  - cbv zeta. destruct (_ <? _)%nat.
    + match goal with |- context [forUpTo 10 (devolveDust M) ?g2] =>
        destruct (fxOnly_forUpTo 10 (devolveDust M) (fxOnly_devolveDust M) g2)
          as (ps & sd & ->)
      end.
      exists ps, sd, (getStage (Qfloor (Qmax 0 (xp g - 0.008 * dt)))),
        (Qmax 0 (xp g - 0.008 * dt)), (xpDecayTimer g + dt).
      split; [reflexivity|]. right. reflexivity.
    + exists (particles g), (seed g), (getStage (Qfloor (Qmax 0 (xp g - 0.008 * dt)))),
        (Qmax 0 (xp g - 0.008 * dt)), (xpDecayTimer g + dt).
      split; [destruct g; reflexivity|]. right. reflexivity.
  - exists (particles g), (seed g), (stageIdx g), (xp g), (xpDecayTimer g).
    split; [destruct g; reflexivity|]. left. reflexivity.
Qed.

Lemma phaseDecay_airborne (M : MathEnv) (dt : Q) (g : Game) :
  isGrounded (state g) = false -> phaseDecay M dt g = g.
Proof. intro Hg. unfold phaseDecay. rewrite Hg. reflexivity. Qed.

Lemma phaseGrounded_footprint (dt : Q) (g : Game) :
  exists e st,
    phaseGrounded dt g = set_state st (set_egg e g)
    /\ (st = state g \/ st = jumping).
Proof.
  unfold phaseGrounded. destruct (Egg.onPlatform (egg g)) as [r|].
  - destruct (isGrounded (state g)).
    + cbv zeta. destruct (Qltb H _).
      * eexists _, _. split; [reflexivity|]. right. reflexivity.
      * match goal with |- context [set_egg ?e g] => exists e, (state g) end.
        split; [destruct g; reflexivity|]. left. reflexivity.
    + exists (egg g), (state g). split; [destruct g; reflexivity|]. left. reflexivity.
  - exists (egg g), (state g). split; [destruct g; reflexivity|]. left. reflexivity.
Qed.

Lemma phaseGrounded_airborne (dt : Q) (g : Game) :
  isGrounded (state g) = false -> phaseGrounded dt g = g.
Proof.
  intro Hg. unfold phaseGrounded. rewrite Hg.
  destruct (Egg.onPlatform (egg g)); reflexivity.
Qed.

Lemma fxOnly_trail (M : MathEnv) : fxOnly (trail M).
Proof.
  intro g. unfold trail. destruct (Qltb (Egg.vy (egg g)) (-1)).
  - cbv zeta. destruct (Qltb 0.5 _).
    + destruct (Qltb 0 _); eexists _, _; reflexivity.
    + exists (particles g), (S (seed g)). destruct g; reflexivity.
  - exists (particles g), (seed g). destruct g; reflexivity.
Qed.

Ltac game_simpl :=
  cbn [state egg platforms heap nextRef camera power score highScore xp xpDecayTimer
       stageIdx prevStageIdx particles birds birdTimer perfectFlash landingFx
       heightReached highestPlatformY evolveFlash seed
       set_state set_egg set_platforms set_heap set_nextRef set_camera set_power
       set_score set_highScore set_xp set_xpDecayTimer set_stageIdx set_prevStageIdx
       set_particles set_birds set_birdTimer set_perfectFlash set_landingFx
       set_heightReached set_highestPlatformY set_evolveFlash set_seed].

Ltac game_simpl_in H :=
  cbn [state egg platforms heap nextRef camera power score highScore xp xpDecayTimer
       stageIdx prevStageIdx particles birds birdTimer perfectFlash landingFx
       heightReached highestPlatformY evolveFlash seed
       set_state set_egg set_platforms set_heap set_nextRef set_camera set_power
       set_score set_highScore set_xp set_xpDecayTimer set_stageIdx set_prevStageIdx
       set_particles set_birds set_birdTimer set_perfectFlash set_landingFx
       set_heightReached set_highestPlatformY set_evolveFlash set_seed] in H.

Lemma store_same (r : Ref) (p : Platform.t) (hp : Heap) : store r p hp r = p.
Proof. unfold store. rewrite Nat.eqb_refl. reflexivity. Qed.

Lemma store_other (r r' : Ref) (p : Platform.t) (hp : Heap) :
  r' <> r -> store r p hp r' = hp r'.
Proof. intro Hne. unfold store. apply Nat.eqb_neq in Hne. rewrite Hne. reflexivity. Qed.

Lemma evolveCheck_footprint (M : MathEnv) (g : Game) :
  exists ps sd ef,
    evolveCheck M g
    = set_seed sd (set_particles ps (set_evolveFlash ef
        (set_stageIdx (getStage (Qfloor (xp g))) (set_prevStageIdx (stageIdx g) g)))).
Proof.
  unfold evolveCheck. cbv zeta. game_simpl. destruct (_ <? _)%nat.
  - match goal with |- context [forUpTo 20 (evolveBurst M) ?g7] =>
      destruct (fxOnly_forUpTo 20 (evolveBurst M) (fxOnly_evolveBurst M) g7)
        as (ps & sd & ->)
    end.
    exists ps, sd, true. reflexivity.
  - exists (particles g), (seed g), (evolveFlash g). destruct g; reflexivity.
Qed.

Lemma land_footprint (M : MathEnv) (r : Ref) (g : Game) :
  exists ps sd ef,
    land M r g = set_seed sd (set_particles ps (set_evolveFlash ef (landed r g))).
Proof.
  unfold land.
  destruct (fxOnly_forUpTo 8 (landDust M r) (fxOnly_landDust M r)
              (scoreLanding r (rewardLanding r (markLanded r (touchDown r g)))))
    as (ps & sd & ->).
  destruct (evolveCheck_footprint M
              (set_seed sd (set_particles ps
                 (scoreLanding r (rewardLanding r (markLanded r (touchDown r g)))))))
    as (ps2 & sd2 & ef & ->).
  exists ps2, sd2, ef.
  unfold landed, scoreLanding, rewardLanding, markLanded, touchDown. cbv zeta. game_simpl.
  destruct (isTimed (heap g r)); game_simpl;
    rewrite ?store_same; cbn [Platform.y Platform.set_landed];
    destruct (Qltb (Platform.y (heap g r)) (highestPlatformY g)); game_simpl;
    rewrite ?store_same; reflexivity.
Qed.

Lemma fallCheck_cases (g : Game) :
  fallCheck g = g
  \/ fallCheck g = set_highScore (Z.max (highScore g) (score g)) (set_state gameover g).
Proof. unfold fallCheck. destruct (Qltb _ _); [right|left]; reflexivity. Qed.

(** The three ways through the jumping block: not jumping; jumping with
    no platform caught; jumping and landing on the first platform that
    passes the landing test. *)
Lemma phaseJumping_cases (M : MathEnv) (dt : Q) (plats : list Ref) (g : Game) :
  (state g <> jumping /\ phaseJumping M dt plats g = g)
  \/ (state g = jumping /\ exists ps sd,
        phaseJumping M dt plats g = fallCheck (flown dt ps sd g))
  \/ (state g = jumping /\ exists ps sd r ps' sd' ef,
        find (landsOn dt (flown dt ps sd g)) plats = Some r
        /\ Qltb 0 (Egg.vy (integrate dt (egg g))) = true
        /\ phaseJumping M dt plats g
           = fallCheck (set_seed sd' (set_particles ps' (set_evolveFlash ef
               (landed r (flown dt ps sd g)))))).
Proof.
  unfold phaseJumping. destruct (state g) eqn:Es;
    try (left; split; [congruence|reflexivity]).
  right. cbv zeta.
  destruct (fxOnly_trail M (set_egg (integrate dt (egg g)) g)) as (ps & sd & ->).
  fold (flown dt ps sd g). unfold landing.
  destruct (Qltb 0 (Egg.vy (egg (flown dt ps sd g)))) eqn:Ev;
    [|left; split; [reflexivity|exists ps, sd; reflexivity]].
  destruct (Qltb _ (H + 10));
    [|left; split; [reflexivity|exists ps, sd; reflexivity]].
  destruct (find _ plats) as [r|] eqn:Ef;
    [|left; split; [reflexivity|exists ps, sd; reflexivity]].
  right. split; [reflexivity|].
  destruct (land_footprint M r (flown dt ps sd g)) as (ps' & sd' & ef & ->).
  exists ps, sd, r, ps', sd', ef. split; [exact Ef|]. split; [exact Ev|reflexivity].
Qed.

Ltac jumping_kept M dt plats g :=
  destruct (phaseJumping_cases M dt plats g)
    as [[_ ->]|[[_ (ps & sd & ->)]|[_ (ps & sd & r & ps' & sd' & ef & _ & _ & ->)]]];
  [ reflexivity
  | destruct (fallCheck_cases (flown dt ps sd g)) as [-> | ->]; reflexivity
  | match goal with |- context [fallCheck ?G] =>
      destruct (fallCheck_cases G) as [-> | ->]; reflexivity
    end ].

Lemma phaseJumping_keeps_camera (M : MathEnv) (dt : Q) (plats : list Ref) :
  keeps camera (phaseJumping M dt plats).
Proof. intro g. jumping_kept M dt plats g. Qed.

Lemma phaseJumping_keeps_power (M : MathEnv) (dt : Q) (plats : list Ref) :
  keeps power (phaseJumping M dt plats).
Proof. intro g. jumping_kept M dt plats g. Qed.

Lemma phaseJumping_keeps_nextRef (M : MathEnv) (dt : Q) (plats : list Ref) :
  keeps nextRef (phaseJumping M dt plats).
Proof. intro g. jumping_kept M dt plats g. Qed.

Lemma phaseJumping_keeps_platforms (M : MathEnv) (dt : Q) (plats : list Ref) :
  keeps platforms (phaseJumping M dt plats).
Proof. intro g. jumping_kept M dt plats g. Qed.

Lemma phaseJumping_keeps_birdTimer (M : MathEnv) (dt : Q) (plats : list Ref) :
  keeps birdTimer (phaseJumping M dt plats).
Proof. intro g. jumping_kept M dt plats g. Qed.

Lemma phaseJumping_keeps_birds (M : MathEnv) (dt : Q) (plats : list Ref) :
  keeps birds (phaseJumping M dt plats).
Proof. intro g. jumping_kept M dt plats g. Qed.

Lemma phaseEffects_footprint (dt : Q) (g : Game) :
  exists pf fx ps,
    phaseEffects dt g = set_perfectFlash pf (set_landingFx fx (set_particles ps g))
    /\ fx = match landingFx g with
            | Some f =>
                if Qleb (LandingFx.timer f - dt) 0 then None
                else Some (LandingFx.set_timer (LandingFx.timer f - dt) f)
            | None => None
            end.
Proof.
  unfold phaseEffects. cbv zeta. game_simpl.
  set (ps := filter _ _).
  destruct (landingFx g) as [f|] eqn:Ef.
  - cbn [LandingFx.timer LandingFx.set_timer]. destruct (Qleb _ 0); game_simpl.
    + destruct (Qltb 0 (perfectFlash g)).
      * exists (perfectFlash g - dt), None, ps. split; reflexivity.
      * exists (perfectFlash g), None, ps. split; reflexivity.
    + destruct (Qltb 0 (perfectFlash g)).
      * exists (perfectFlash g - dt),
          (Some (LandingFx.set_timer (LandingFx.timer f - dt) f)), ps.
        split; reflexivity.
      * exists (perfectFlash g),
          (Some (LandingFx.set_timer (LandingFx.timer f - dt) f)), ps.
        split; reflexivity.
  - game_simpl. destruct (Qltb 0 (perfectFlash g)).
    + exists (perfectFlash g - dt), None, ps. split; [|reflexivity].
      destruct g; cbn in Ef; subst; reflexivity.
    + exists (perfectFlash g), None, ps. split; [|reflexivity].
      destruct g; cbn in Ef; subst; reflexivity.
Qed.

(** ** Extending the column *)

(** The loop appends freshly allocated references and leaves the objects
    allocated before it as they were. *)
Lemma extendColumn_shape (M : MathEnv) (fuel : nat) (camY : Q) :
  forall minY ps hp nr sd c',
    extendColumn M fuel camY minY (ps, hp, nr, sd) = Some c' ->
    exists k hp' sd',
      c' = (ps ++ seq nr k, hp', (nr + k)%nat, sd')
      /\ (forall r, (r < nr)%nat -> hp' r = hp r).
Proof.
  induction fuel as [|fuel IH]; intros minY ps hp nr sd c'; cbn [extendColumn].
  - destruct (Qltb _ minY); [discriminate|].
    intro Hc. injection Hc as <-. exists O, hp, sd.
    cbn [seq]. rewrite app_nil_r, Nat.add_0_r. split; [reflexivity|]. reflexivity.
  - destruct (Qltb _ minY).
    + destruct (createPlatform M _ _ sd) as [p sd1]. intro Hc.
      apply IH in Hc. destruct Hc as (k & hp' & sd' & -> & Hhp).
      exists (S k), hp', sd'. split.
      * cbn [seq]. rewrite <- app_assoc. cbn [app].
        rewrite Nat.add_succ_r. reflexivity.
      * intros r Hr. rewrite Hhp by lia. apply store_other. lia.
    + intro Hc. injection Hc as <-. exists O, hp, sd.
      cbn [seq]. rewrite app_nil_r, Nat.add_0_r. split; reflexivity.
Qed.

(** Enough fuel takes the loop to its exit. *)
Lemma extendColumn_enough (M : MathEnv) (fuel : nat) (camY : Q) :
  forall minY c,
    (minY - (camY - 300)) / PLATFORM_GAP <= ofNat fuel ->
    exists c', extendColumn M fuel camY minY c = Some c'.
Proof.
  assert (Hgap : forall a, a / PLATFORM_GAP == a * (1 # 80)) by (intro a; unfold PLATFORM_GAP; field).
  induction fuel as [|fuel IH]; intros minY c Hle; cbn [extendColumn];
    destruct (Qltb (camY - 300) minY) eqn:Ec; try (exists c; reflexivity).
  - exfalso. apply Qltb_lt in Ec. rewrite Hgap in Hle.
    change (ofNat 0) with 0 in Hle. lra.
  - destruct c as [[[ps hp] nr] sd].
    destruct (createPlatform M _ _ sd) as [p sd1].
    apply IH. rewrite Hgap in Hle |- *.
    unfold ofNat in Hle |- *. rewrite Nat2Z.inj_succ in Hle.
    unfold Z.succ in Hle. rewrite inject_Z_plus in Hle.
    unfold PLATFORM_GAP. change (inject_Z 1) with 1 in Hle. lra.
Qed.

Lemma columnFuel_enough (camY minY : Q) :
  (minY - (camY - 300)) / PLATFORM_GAP <= ofNat (columnFuel camY minY).
Proof.
  unfold columnFuel, ofNat.
  set (a := (minY - (camY - 300)) / PLATFORM_GAP).
  apply Qle_trans with (inject_Z (Qceiling a)); [apply Qle_ceiling|].
  rewrite <- Zle_Qle. lia.
Qed.

Lemma minOf_nonempty (ys : list Q) : ys <> [] -> exists m, minOf ys = Some m.
Proof.
  destruct ys as [|y ys]; [congruence|]. intros _. cbn.
  destruct (minOf ys); eexists; reflexivity.
Qed.

(** Platform management returns whenever the local array is not empty. *)
Lemma phaseColumn_returns (M : MathEnv) (plats : list Ref) (g : Game) :
  plats <> [] -> exists g', phaseColumn M plats g = Some g'.
Proof.
  intro Hne. unfold phaseColumn.
  destruct (minOf_nonempty (map (fun r => Platform.y (heap g r)) plats)) as [m ->].
  { destruct plats; [congruence|discriminate]. }
  cbv zeta.
  destruct (extendColumn_enough M _ (Camera.y (camera g)) m
              (plats, heap g, nextRef g, seed g)
              (columnFuel_enough (Camera.y (camera g)) m)) as [[[[ps hp] nr] sd] ->].
  eexists. reflexivity.
Qed.

(** An empty column never leaves the loop. *)
Lemma phaseColumn_empty (M : MathEnv) (g : Game) : phaseColumn M [] g = None.
Proof. reflexivity. Qed.

Lemma phaseColumn_footprint (M : MathEnv) (plats : list Ref) (g g' : Game) :
  phaseColumn M plats g = Some g' ->
  exists k hp sd,
    g' = set_platforms
           (filter (fun r => Qltb (Platform.y (hp r)) (Camera.y (camera g) + H + 50))
              (plats ++ seq (nextRef g) k))
           (set_seed sd (set_nextRef (nextRef g + k)%nat (set_heap hp g)))
    /\ (forall r, (r < nextRef g)%nat -> hp r = heap g r).
Proof.
  unfold phaseColumn. destruct (minOf _) as [m|]; [|discriminate].
  cbv zeta. destruct (extendColumn M _ _ m _) as [c|] eqn:Ec; [|discriminate].
  apply extendColumn_shape in Ec. destruct Ec as (k & hp & sd & -> & Hhp).
  intro Hg. injection Hg as <-. exists k, hp, sd. split; [reflexivity|exact Hhp].
Qed.

(** ** A frame returns *)

Lemma update_returns (M : MathEnv) (dt : Q) (g : Game) :
  platforms g <> [] -> exists g', update M dt g = Some g'.
Proof.
  intro Hne. unfold update. destruct (state g); try (exists g; reflexivity);
    destruct (phaseColumn_returns M (platforms g) (prePhases M dt (platforms g) g) Hne)
      as [g1 ->]; eexists; reflexivity.
Qed.

(** With an empty column a frame outside [gameover] does not return. *)
Lemma update_empty_column (M : MathEnv) (dt : Q) (g : Game) :
  platforms g = [] -> state g <> gameover -> update M dt g = None.
Proof.
  intros He Hs. unfold update. rewrite He.
  destruct (state g); try reflexivity. congruence.
Qed.

Lemma phaseCamera_footprint (dt : Q) (g : Game) :
  phaseCamera dt g
  = set_heightReached (Qmin (heightReached g) (Egg.y (egg g)))
      (set_camera
         (Camera.mk
            (if Qltb (Egg.y (egg g) - H * 0.55) (Camera.y (camera g))
             then Camera.y (camera g)
                  + (Egg.y (egg g) - H * 0.55 - Camera.y (camera g)) * 0.07 * dt
             else Camera.y (camera g)))
         g).
Proof.
  unfold phaseCamera. cbv zeta. destruct (Qltb _ _); [reflexivity|].
  destruct g as [? ? ? ? ? [cy] ? ? ? ? ? ? ? ? ? ? ? ? ? ? ? ?]. reflexivity.
Qed.

(** Opens the phases before the jumping block, innermost first, replacing
    each by the fields it sets. *)
Ltac open_ground_phases :=
  repeat
    (game_simpl;
     match goal with
     | |- context [phasePower ?dt ?X] => rewrite (phasePower_footprint dt X)
     | |- context [phaseMove ?dt ?pl ?X] => unfold phaseMove
     | |- context [phaseTimed ?dt ?pl ?X] =>
         let Hst := fresh "Hst" in
         let He := fresh "He" in
         let Hhp := fresh "Hhp" in
         let Hpl := fresh "Hpl" in
         destruct (phaseTimed_footprint dt pl X) as (? & ? & ? & ? & -> & Hst & He & Hhp & Hpl);
         game_simpl_in Hst; game_simpl_in He; game_simpl_in Hhp; game_simpl_in Hpl
     | |- context [phaseSpawn ?M ?dt ?X] =>
         destruct (phaseSpawn_footprint M dt X) as (? & ? & ? & ->)
     | |- context [phaseBirds ?M ?dt ?X] =>
         let Hst := fresh "Hst" in
         let Hx := fresh "Hx" in
         let Hy := fresh "Hy" in
         destruct (phaseBirds_footprint M dt X) as (? & ? & ? & ? & ? & -> & Hst & Hx & Hy);
         game_simpl_in Hst; game_simpl_in Hx; game_simpl_in Hy
     | |- context [phaseDecay ?M ?dt ?X] =>
         let Hxp := fresh "Hxp" in
         destruct (phaseDecay_footprint M dt X) as (? & ? & ? & ? & ? & -> & Hxp);
         game_simpl_in Hxp
     | |- context [phaseGrounded ?dt ?X] =>
         let Hst := fresh "Hst" in
         destruct (phaseGrounded_footprint dt X) as (? & ? & -> & Hst);
         game_simpl_in Hst
     end);
  game_simpl.

Lemma beforeCamera_camera (M : MathEnv) (dt : Q) (plats : list Ref) (g : Game) :
  camera (beforeCamera M dt plats g) = camera g.
Proof.
  unfold beforeCamera. rewrite phaseJumping_keeps_camera.
  open_ground_phases. reflexivity.
Qed.

Lemma beforeCamera_nextRef (M : MathEnv) (dt : Q) (plats : list Ref) (g : Game) :
  nextRef (beforeCamera M dt plats g) = nextRef g.
Proof.
  unfold beforeCamera. rewrite phaseJumping_keeps_nextRef.
  open_ground_phases. reflexivity.
Qed.

Lemma beforeCamera_power (M : MathEnv) (dt : Q) (plats : list Ref) (g : Game) :
  power (beforeCamera M dt plats g) = power (phasePower dt g).
Proof.
  unfold beforeCamera. rewrite phaseJumping_keeps_power.
  rewrite (phasePower_footprint dt g) at 2.
  open_ground_phases. reflexivity.
Qed.

(** What a frame outside [gameover] returns, phase by phase. *)
Lemma update_unfold (M : MathEnv) (dt : Q) (g g' : Game) :
  state g <> gameover ->
  update M dt g = Some g' ->
  exists g1,
    phaseColumn M (platforms g) (prePhases M dt (platforms g) g) = Some g1
    /\ g' = phaseEffects dt g1.
Proof.
  intros Hs. unfold update.
  destruct (state g); try congruence;
    (destruct (phaseColumn M _ _) as [g1|]; [|discriminate]);
    intro Hg; injection Hg as <-; exists g1; split; reflexivity.
Qed.

(** What platform management and the effects leave alone. *)
Lemma tail_fields (M : MathEnv) (dt : Q) (plats : list Ref) (g0 g1 : Game) :
  phaseColumn M plats g0 = Some g1 ->
  state (phaseEffects dt g1) = state g0
  /\ egg (phaseEffects dt g1) = egg g0
  /\ camera (phaseEffects dt g1) = camera g0
  /\ power (phaseEffects dt g1) = power g0
  /\ xp (phaseEffects dt g1) = xp g0
  /\ highestPlatformY (phaseEffects dt g1) = highestPlatformY g0
  /\ birds (phaseEffects dt g1) = birds g0
  /\ birdTimer (phaseEffects dt g1) = birdTimer g0
  /\ heightReached (phaseEffects dt g1) = heightReached g0
  /\ landingFx (phaseEffects dt g1)
     = match landingFx g0 with
       | Some f =>
           if Qleb (LandingFx.timer f - dt) 0 then None
           else Some (LandingFx.set_timer (LandingFx.timer f - dt) f)
       | None => None
       end.
Proof.
  intro Hc.
  apply phaseColumn_footprint in Hc. destruct Hc as (k & hp & sd & -> & _).
  match goal with |- context [phaseEffects dt ?X] =>
    destruct (phaseEffects_footprint dt X) as (pf & fx & ps & -> & Hfx)
  end.
  repeat (split; [reflexivity|]). exact Hfx.
Qed.

Lemma update_tail (M : MathEnv) (dt : Q) (g g' : Game) :
  state g <> gameover ->
  update M dt g = Some g' ->
  state g' = state (prePhases M dt (platforms g) g)
  /\ egg g' = egg (prePhases M dt (platforms g) g)
  /\ camera g' = camera (prePhases M dt (platforms g) g)
  /\ power g' = power (prePhases M dt (platforms g) g)
  /\ xp g' = xp (prePhases M dt (platforms g) g)
  /\ highestPlatformY g' = highestPlatformY (prePhases M dt (platforms g) g)
  /\ birds g' = birds (prePhases M dt (platforms g) g)
  /\ birdTimer g' = birdTimer (prePhases M dt (platforms g) g)
  /\ heightReached g' = heightReached (prePhases M dt (platforms g) g)
  /\ landingFx g'
     = match landingFx (prePhases M dt (platforms g) g) with
       | Some f =>
           if Qleb (LandingFx.timer f - dt) 0 then None
           else Some (LandingFx.set_timer (LandingFx.timer f - dt) f)
       | None => None
       end.
Proof.
  intros Hs Hu. destruct (update_unfold M dt g g' Hs Hu) as (g1 & Hc & ->).
  exact (tail_fields M dt (platforms g) _ g1 Hc).
Qed.

(** The camera step, read field by field on any input. *)
Lemma phaseCamera_fields (dt : Q) (g : Game) :
  state (phaseCamera dt g) = state g
  /\ egg (phaseCamera dt g) = egg g
  /\ power (phaseCamera dt g) = power g
  /\ xp (phaseCamera dt g) = xp g
  /\ highestPlatformY (phaseCamera dt g) = highestPlatformY g
  /\ nextRef (phaseCamera dt g) = nextRef g
  /\ birds (phaseCamera dt g) = birds g
  /\ birdTimer (phaseCamera dt g) = birdTimer g
  /\ landingFx (phaseCamera dt g) = landingFx g
  /\ Camera.y (camera (phaseCamera dt g))
     = (if Qltb (Egg.y (egg g) - H * 0.55) (Camera.y (camera g))
        then Camera.y (camera g)
             + (Egg.y (egg g) - H * 0.55 - Camera.y (camera g)) * 0.07 * dt
        else Camera.y (camera g)).
Proof.
  rewrite phaseCamera_footprint. repeat (split; [reflexivity|]). reflexivity.
Qed.

(** ** The camera *)

Lemma ease_moves_up (cy target dt : Q) :
  0 <= dt -> target < cy -> cy + (target - cy) * 0.07 * dt <= cy.
Proof.
  intros Hdt Ht.
  assert (Hp : 0 <= (cy - target) * (0.07 * dt)).
  { apply Qmult_le_0_compat; lra. }
  assert (He : (target - cy) * 0.07 * dt == - ((cy - target) * (0.07 * dt))) by ring.
  rewrite He. lra.
Qed.

(** C6: over a frame with [dt >= 0] the camera's [y] does not grow; it is
    eased towards [egg.y - H * 0.55] when that target is above it (smaller
    [y]) and is left alone otherwise. *)
Theorem camera_only_moves_up (M : MathEnv) (dt : Q) (g : Game) :
  0 <= dt ->
  platforms g <> [] ->
  returns (update M dt g) (fun g' =>
    Camera.y (camera g') <= Camera.y (camera g)
    /\ (state g <> gameover ->
        let target := Egg.y (egg g') - H * 0.55 in
        Camera.y (camera g')
        = if Qltb target (Camera.y (camera g))
          then Camera.y (camera g) + (target - Camera.y (camera g)) * 0.07 * dt
          else Camera.y (camera g))).
Proof.
  intros Hdt Hne.
  destruct (update_returns M dt g Hne) as [g' Hu]. rewrite Hu. cbn [returns].
  assert (Hg : state g = gameover \/ state g <> gameover)
    by (destruct (state g); (left; reflexivity) || (right; discriminate)).
  destruct Hg as [Hg|Hg].
  - rewrite (gameover_frame_noop_aux M dt g Hg) in Hu. injection Hu as <-.
    split; [apply Qle_refl | intro Hc; contradiction].
  - destruct (update_tail M dt g g' Hg Hu) as (_ & He & Hc & _).
    rewrite He, Hc. unfold prePhases.
    pose proof (beforeCamera_camera M dt (platforms g) g) as Hk.
    set (G := beforeCamera M dt (platforms g) g) in *. clearbody G.
    destruct (phaseCamera_fields dt G) as (_ & HeG & _ & _ & _ & _ & _ & _ & _ & HcG).
    rewrite HeG, HcG, Hk.
    set (tgt := Egg.y (egg G) - H * 0.55).
    split; [|intros _; reflexivity].
    destruct (Qltb tgt (Camera.y (camera g))) eqn:Et.
    + apply ease_moves_up; [exact Hdt|]. apply Qltb_lt. exact Et.
    + apply Qle_refl.
Qed.

Lemma camera_only_moves_up_witness :
  0 <= 1 /\ platforms rising <> []
  /\ returns (update hostHalf 1 rising) (fun g' =>
       Camera.y (camera g') <= Camera.y (camera rising)
       /\ Camera.y (camera g')
          = Camera.y (camera rising)
            + (Egg.y (egg g') - H * 0.55 - Camera.y (camera rising)) * 0.07 * 1
       /\ Camera.y (camera g') < Camera.y (camera rising)).
Proof.
  assert (Hdt : 0 <= 1) by discriminate.
  assert (Hne : platforms rising <> []) by (vm_compute; discriminate).
  split; [exact Hdt|]. split; [exact Hne|].
  pose proof (camera_only_moves_up hostHalf 1 rising Hdt Hne) as Hc.
  assert (Ht : option_map
                 (fun g' => Qltb (Egg.y (egg g') - H * 0.55) (Camera.y (camera rising)))
                 (update hostHalf 1 rising) = Some true)
    by (vm_compute; reflexivity).
  destruct (update hostHalf 1 rising) as [g'|]; [|exact Hc].
  cbn [returns] in Hc |- *. cbn [option_map] in Ht.
  destruct Hc as [Hle Hf].
  assert (Hs : state rising <> gameover) by discriminate.
  specialize (Hf Hs). cbv zeta in Hf.
  destruct (Qltb (Egg.y (egg g') - H * 0.55) (Camera.y (camera rising))) eqn:Et;
    [|discriminate Ht].
  split; [exact Hle|]. split; [exact Hf|].
  apply Qltb_lt in Et. rewrite Hf. clear Hf Hle Ht.
  revert Et. generalize (Egg.y (egg g')). generalize (Camera.y (camera rising)).
  intros cy ey Et. unfold H in *. lra.
Defined.

(** C6 as stated fails: a time stamp below the previous one makes the
    time delta negative (here -1), the easing step then has the opposite
    sign, and the frame ends with the camera lower down (a larger [y])
    than it began. *)
Lemma negative_dt_moves_camera_down :
  loopDt 16.67 0 == -1
  /\ returns (loop hostHalf 0 (16.67, rising))
       (fun st => Camera.y (camera rising) < Camera.y (camera (snd st)))
  /\ returns (update hostHalf (-1) rising)
       (fun g' => Camera.y (camera rising) < Camera.y (camera g')).
Proof.
  split; [vm_compute; reflexivity|]. split; vm_compute; reflexivity.
Qed.

(** ** Experience *)

Lemma landed_xp (r : Ref) (g : Game) :
  xp (landed r g)
  = if Qltb (Platform.y (heap g r)) (highestPlatformY g) then xp g + 3 else xp g.
Proof. reflexivity. Qed.

Lemma fallCheck_xp (g : Game) : xp (fallCheck g) = xp g.
Proof. destruct (fallCheck_cases g) as [-> | ->]; reflexivity. Qed.

(** The jumping block leaves the experience alone or adds the landing bonus. *)
Lemma phaseJumping_xp (M : MathEnv) (dt : Q) (plats : list Ref) (g : Game) :
  xp (phaseJumping M dt plats g) = xp g \/ xp (phaseJumping M dt plats g) = xp g + 3.
Proof.
  destruct (phaseJumping_cases M dt plats g)
    as [[_ ->]|[[_ (ps & sd & ->)]|[_ (ps & sd & r & ps' & sd' & ef & _ & _ & ->)]]].
  - left. reflexivity.
  - left. rewrite fallCheck_xp. reflexivity.
  - rewrite fallCheck_xp.
    generalize (landed_xp r (flown dt ps sd g)).
    generalize (landed r (flown dt ps sd g)). intros L Hl.
    assert (Hs : xp (set_seed sd' (set_particles ps' (set_evolveFlash ef L))) = xp L)
      by reflexivity.
    rewrite Hs, Hl.
    assert (Hf : xp (flown dt ps sd g) = xp g) by reflexivity.
    rewrite Hf.
    destruct (Qltb _ _); [right|left]; reflexivity.
Qed.

Lemma groundPhases_xp (M : MathEnv) (dt : Q) (plats : list Ref) (g : Game) :
  let g1 := phaseGrounded dt (phaseDecay M dt (phaseBirds M dt (phaseSpawn M dt
              (phaseTimed dt plats (phaseMove dt plats (phasePower dt g)))))) in
  xp g1 = xp g \/ xp g1 = Qmax 0 (xp g - 0.008 * dt).
Proof.
  cbv zeta. open_ground_phases. assumption.
Qed.

Lemma beforeCamera_xp_nonneg (M : MathEnv) (dt : Q) (plats : list Ref) (g : Game) :
  0 <= xp g -> 0 <= xp (beforeCamera M dt plats g).
Proof.
  intro Hx. unfold beforeCamera.
  pose proof (groundPhases_xp M dt plats g) as Hg. cbv zeta in Hg.
  set (G := phaseGrounded dt _) in *. clearbody G.
  assert (HG : 0 <= xp G).
  { destruct Hg as [-> | ->]; [exact Hx | apply Q.le_max_l]. }
  destruct (phaseJumping_xp M dt plats G) as [-> | ->]; [exact HG|].
  lra.
Qed.

(** A frame keeps the experience non-negative. *)
Lemma update_xp_nonneg (M : MathEnv) (dt : Q) (g g' : Game) :
  0 <= xp g -> update M dt g = Some g' -> 0 <= xp g'.
Proof.
  intros Hx Hu.
  assert (Hg : state g = gameover \/ state g <> gameover)
    by (destruct (state g); (left; reflexivity) || (right; discriminate)).
  destruct Hg as [Hg|Hg].
  - rewrite (gameover_frame_noop_aux M dt g Hg) in Hu. injection Hu as <-. exact Hx.
  - destruct (update_tail M dt g g' Hg Hu) as (_ & _ & _ & _ & -> & _).
    unfold prePhases.
    pose proof (beforeCamera_xp_nonneg M dt (platforms g) g Hx) as Hb.
    set (G := beforeCamera M dt (platforms g) g) in *. clearbody G.
    destruct (phaseCamera_fields dt G) as (_ & _ & _ & -> & _). exact Hb.
Qed.

Lemma breakFragile_footprint (g : Game) :
  exists pl hp,
    breakFragile g = set_platforms pl (set_heap hp g)
    /\ incl pl (platforms g).
Proof.
  unfold breakFragile. destruct (Egg.onPlatform (egg g)) as [r|].
  - destruct (isFragile (heap g) r).
    + eexists _, _. split; [reflexivity|].
      intros x Hx. apply filter_In in Hx. exact (proj1 Hx).
    + exists (platforms g), (heap g). split; [destruct g; reflexivity|].
      apply incl_refl.
  - exists (platforms g), (heap g). split; [destruct g; reflexivity|].
    apply incl_refl.
Qed.

(** [releaseJump] while charging, as the fields it sets. *)
Lemma releaseJump_footprint (M : MathEnv) (g : Game) :
  state g = charging ->
  exists ps sd fx pf e pl hp,
    releaseJump M g
    = set_seed sd (set_particles ps (set_landingFx fx (set_perfectFlash pf
        (set_xp (if Qleb 99 (Power.value (power g)) then xp g + 5 else xp g)
           (set_state jumping (set_egg e (set_platforms pl (set_heap hp g))))))))
    /\ incl pl (platforms g).
Proof.
  intro Hs. unfold releaseJump. rewrite Hs.
  destruct (celebrate_footprint M (launch g)) as (ps & sd & fx & pf & ->).
  unfold launch. cbv zeta.
  destruct (breakFragile_footprint g) as (pl & hp & -> & Hpl).
  eexists ps, sd, fx, pf, _, pl, hp. split; [reflexivity|exact Hpl].
Qed.

Lemma releaseJump_xp (M : MathEnv) (g : Game) :
  xp (releaseJump M g) = xp g \/ xp (releaseJump M g) = xp g + 5.
Proof.
  destruct (state g) eqn:Es;
    try (left; unfold releaseJump; rewrite Es; reflexivity).
  destruct (releaseJump_footprint M g Es)
    as (ps & sd & fx & pf & e & pl & hp & -> & _).
  game_simpl. destruct (Qleb 99 _); [right|left]; reflexivity.
Qed.

Lemma initGame_xp (M : MathEnv) (g : Game) : xp (initGame M g) = 0.
Proof.
  unfold initGame. destruct (forUpTo 25 _ _) as [[[ps hp] nr] sd]. reflexivity.
Qed.

Lemma startCharging_xp (g : Game) : xp (startCharging g) = xp g.
Proof. unfold startCharging. destruct (state g); reflexivity. Qed.

Lemma apply_xp_nonneg (M : MathEnv) (ev : Event) (g g' : Game) :
  0 <= xp g -> apply M ev g = Some g' -> 0 <= xp g'.
Proof.
  intros Hx. destruct ev as [dt| | |]; cbn [apply].
  - apply update_xp_nonneg. exact Hx.
  - intro Hg. injection Hg as <-. rewrite startCharging_xp. exact Hx.
  - intro Hg. injection Hg as <-.
    destruct (releaseJump_xp M g) as [-> | ->]; [exact Hx|lra].
  - intro Hg. injection Hg as <-. rewrite initGame_xp. apply Qle_refl.
Qed.

Lemma run_xp_nonneg (M : MathEnv) (evs : list Event) :
  forall g g', 0 <= xp g -> run M evs g = Some g' -> 0 <= xp g'.
Proof.
  induction evs as [|ev evs IH]; intros g g' Hx; cbn [run].
  - intro Hg. injection Hg as <-. exact Hx.
  - destruct (apply M ev g) as [g1|] eqn:Ea; [|discriminate].
    apply IH. exact (apply_xp_nonneg M ev g g1 Hx Ea).
Qed.

(** C8: in every state that frames (of any [dt]) and commands reach from
    the initial game, the experience is non-negative. *)
Theorem experience_never_negative (M : MathEnv) (evs : list Event) (g : Game) :
  run M evs game0 = Some g -> 0 <= xp g.
Proof.
  apply run_xp_nonneg. apply Qle_refl.
Qed.

Lemma experience_never_negative_witness :
  returns (run hostHalf perfectRun game0) (fun g => xp g == 5 /\ 0 <= xp g).
Proof.
  assert (Hx : option_map (fun g => Qeq_bool (xp g) 5) (run hostHalf perfectRun game0)
               = Some true) by (vm_compute; reflexivity).
  destruct (run hostHalf perfectRun game0) as [g|] eqn:E; [|discriminate Hx].
  cbn [option_map] in Hx. injection Hx as Hx. split.
  - apply Qeq_bool_iff. exact Hx.
  - exact (experience_never_negative hostHalf perfectRun g E).
Defined.

(** ** The power meter *)

Lemma update_power (M : MathEnv) (dt : Q) (g g' : Game) :
  update M dt g = Some g' -> power g' = power (phasePower dt g).
Proof.
  intro Hu.
  assert (Hg : state g = gameover \/ state g <> gameover)
    by (destruct (state g); (left; reflexivity) || (right; discriminate)).
  destruct Hg as [Hg|Hg].
  - rewrite (gameover_frame_noop_aux M dt g Hg) in Hu. injection Hu as <-.
    unfold phasePower. rewrite Hg. reflexivity.
  - destruct (update_tail M dt g g' Hg Hu) as (_ & _ & _ & -> & _).
    unfold prePhases.
    generalize (beforeCamera_power M dt (platforms g) g).
    generalize (beforeCamera M dt (platforms g) g). intros G HG.
    destruct (phaseCamera_fields dt G) as (_ & _ & -> & _). exact HG.
Qed.

(** The collision branch of the bird loop, when the egg is grounded. *)
Lemma birdStep_knocks_off (M : MathEnv) (dt : Q) (b : Bird.t) (g : Game) :
  isGrounded (state g) = true ->
  birdHits (egg g) (flyBird dt b) = true ->
  exists ps sd,
    snd (birdStep M dt b g)
    = set_seed sd (set_particles ps
        (set_state jumping
           (set_egg (Egg.set_vy (-2) (Egg.set_onPlatform None (Egg.set_vx (-4) (egg g))))
              g))).
Proof.
  intros Hg Hh. unfold birdStep. cbv zeta. rewrite Hh. cbn [snd].
  game_simpl. rewrite Hg.
  match goal with |- context [forUpTo 6 (hitDust M) ?g2] =>
    destruct (fxOnly_forUpTo 6 (hitDust M) (fxOnly_hitDust M) g2) as (ps & sd & ->)
  end.
  exists ps, sd. reflexivity.
Qed.

Lemma phaseBirds_power (M : MathEnv) (dt : Q) (g : Game) :
  power (phaseBirds M dt g) = power g.
Proof.
  destruct (phaseBirds_footprint M dt g) as (bs & ps & sd & e & st & -> & _).
  reflexivity.
Qed.

(** C9: a bird that hits the egg while the game is [charging] puts the
    egg in the air and leaves the power meter (value, direction, speed)
    as it is; so does the whole bird loop.  A frame ends with the meter
    advanced once if it started in [charging] and untouched otherwise:
    after the hit the meter keeps its value and no longer moves. *)
Theorem bird_hit_keeps_power (M : MathEnv) (dt : Q) :
  (forall b g,
     state g = charging ->
     birdHits (egg g) (flyBird dt b) = true ->
     let g1 := snd (birdStep M dt b g) in
     state g1 = jumping /\ Egg.onPlatform (egg g1) = None /\ power g1 = power g)
  /\ (forall g, power (phaseBirds M dt g) = power g)
  /\ (forall g g',
       update M dt g = Some g' ->
       power g' = match state g with
                  | charging => stepPower dt (power g)
                  | _ => power g
                  end).
Proof.
  split; [|split].
  - intros b g Hs Hh g1. subst g1.
    destruct (birdStep_knocks_off M dt b g) as (ps & sd & ->);
      [rewrite Hs; reflexivity | exact Hh |].
    split; [reflexivity|]. split; reflexivity.
  - apply phaseBirds_power.
  - intros g g' Hu. rewrite (update_power M dt g g' Hu).
    unfold phasePower. destruct (state g); reflexivity.
Qed.

Lemma bird_hit_keeps_power_witness :
  state chargingUnderBird = charging
  /\ birdHits (egg chargingUnderBird) (flyBird 1 (birdAt fullCharge)) = true
  /\ state (snd (birdStep hostHalf 1 (birdAt fullCharge) chargingUnderBird)) = jumping
  /\ power (snd (birdStep hostHalf 1 (birdAt fullCharge) chargingUnderBird))
     = power chargingUnderBird.
Proof.
  assert (Hs : state chargingUnderBird = charging) by reflexivity.
  assert (Hh : birdHits (egg chargingUnderBird) (flyBird 1 (birdAt fullCharge)) = true)
    by (vm_compute; reflexivity).
  destruct (proj1 (bird_hit_keeps_power hostHalf 1)
              (birdAt fullCharge) chargingUnderBird Hs Hh)
    as (H1 & _ & H3).
  split; [exact Hs|]. split; [exact Hh|]. split; [exact H1|exact H3].
Defined.

(** ** Platforms that left the column *)

Lemma initPlatform_step (M : MathEnv) (i : nat) ps hp nr sd :
  exists p sd1,
    initPlatform M i (ps, hp, nr, sd) = (ps ++ [nr], store nr p hp, S nr, sd1).
Proof.
  unfold initPlatform. destruct (createPlatform M _ i sd) as [p sd1].
  exists p, sd1. reflexivity.
Qed.

Lemma initLoop_shape (M : MathEnv) (l : list nat) :
  forall ps hp nr sd,
    exists hp' sd',
      fold_left (fun acc i => initPlatform M (S i) acc) l (ps, hp, nr, sd)
      = (ps ++ seq nr (List.length l), hp', (nr + List.length l)%nat, sd').
Proof.
  induction l as [|i l IH]; intros ps hp nr sd; cbn [fold_left List.length].
  - exists hp, sd. cbn [seq]. rewrite app_nil_r, Nat.add_0_r. reflexivity.
  - destruct (initPlatform_step M (S i) ps hp nr sd) as (p & sd1 & ->).
    destruct (IH (ps ++ [nr]) (store nr p hp) (S nr) sd1) as (hp' & sd' & IHeq).
    exists hp', sd'. rewrite IHeq.
    cbn [seq]. rewrite <- app_assoc. cbn [app].
    rewrite Nat.add_succ_r. reflexivity.
Qed.

(** Reset builds the column from fresh references only. *)
Lemma initGame_platforms (M : MathEnv) (g : Game) :
  platforms (initGame M g) = seq (nextRef g) 26
  /\ nextRef (initGame M g) = (nextRef g + 26)%nat.
Proof.
  unfold initGame, forUpTo. cbv beta.
  destruct (initLoop_shape M (seq 0 25) [nextRef g]
              (store (nextRef g) startPlatform (heap g)) (S (nextRef g)) (seed g))
    as (hp' & sd' & Heq).
  rewrite Heq, length_seq. cbn [platforms nextRef]. split.
  - reflexivity.
  - lia.
Qed.

Lemma beforeCamera_platforms_incl (M : MathEnv) (dt : Q) (plats : list Ref) (g : Game) :
  incl (platforms (beforeCamera M dt plats g)) (platforms g).
Proof.
  unfold beforeCamera. rewrite phaseJumping_keeps_platforms.
  open_ground_phases. subst. intros r0 Hr0. apply filter_In in Hr0. exact (proj1 Hr0).
Qed.

(** After a frame the column holds references of the column the frame
    began with and references allocated during the frame. *)
Lemma update_platforms (M : MathEnv) (dt : Q) (g g' : Game) :
  update M dt g = Some g' ->
  exists k,
    nextRef g' = (nextRef g + k)%nat
    /\ forall r, In r (platforms g') ->
         In r (platforms g) \/ (nextRef g <= r < nextRef g + k)%nat.
Proof.
  intro Hu.
  assert (Hg : state g = gameover \/ state g <> gameover)
    by (destruct (state g); (left; reflexivity) || (right; discriminate)).
  destruct Hg as [Hg|Hg].
  - rewrite (gameover_frame_noop_aux M dt g Hg) in Hu. injection Hu as <-.
    exists O. split; [lia|]. intros r Hr. left. exact Hr.
  - destruct (update_unfold M dt g g' Hg Hu) as (g1 & Hc & ->).
    unfold prePhases in Hc. revert Hc.
    generalize (beforeCamera_nextRef M dt (platforms g) g).
    generalize (beforeCamera M dt (platforms g) g). intros G HG Hc.
    apply phaseColumn_footprint in Hc. destruct Hc as (k & hp & sd & -> & _).
    match goal with |- context [phaseEffects dt ?X] =>
      destruct (phaseEffects_footprint dt X) as (pf & fx & ps & -> & _)
    end.
    destruct (phaseCamera_fields dt G) as (_ & _ & _ & _ & _ & Hn & _).
    exists k. game_simpl. rewrite Hn, HG. split; [reflexivity|].
    intros r Hr. apply filter_In in Hr. destruct Hr as [Hr _].
    apply in_app_or in Hr. destruct Hr as [Hr|Hr]; [left; exact Hr|].
    right. apply in_seq in Hr. exact Hr.
Qed.

Lemma update_keeps_gone (M : MathEnv) (dt : Q) (r : Ref) (g g' : Game) :
  gone r g -> update M dt g = Some g' -> gone r g'.
Proof.
  intros [Hlt Hnin] Hu. destruct (update_platforms M dt g g' Hu) as (k & Hn & Hin).
  split; [lia|]. intro Hr. destruct (Hin r Hr) as [H1|H1]; [exact (Hnin H1)|lia].
Qed.

Lemma releaseJump_keeps_gone (M : MathEnv) (r : Ref) (g : Game) :
  gone r g -> gone r (releaseJump M g).
Proof.
  intros [Hlt Hnin]. destruct (state g) eqn:Es;
    try (unfold releaseJump; rewrite Es; split; assumption).
  destruct (releaseJump_footprint M g Es)
    as (ps & sd & fx & pf & e & pl & hp & -> & Hpl).
  split; [exact Hlt|]. game_simpl. intro Hr. exact (Hnin (Hpl r Hr)).
Qed.

Lemma startCharging_keeps_gone (r : Ref) (g : Game) :
  gone r g -> gone r (startCharging g).
Proof. unfold startCharging. destruct (state g); intro Hg; exact Hg. Qed.

Lemma initGame_keeps_gone (M : MathEnv) (r : Ref) (g : Game) :
  gone r g -> gone r (initGame M g).
Proof.
  intros [Hlt _]. destruct (initGame_platforms M g) as [Hp Hn].
  unfold gone. rewrite Hp, Hn. split; [lia|].
  intro Hr. apply in_seq in Hr. lia.
Qed.

Lemma run_keeps_gone (M : MathEnv) (r : Ref) (evs : list Event) :
  forall g g', gone r g -> run M evs g = Some g' -> gone r g'.
Proof.
  induction evs as [|ev evs IH]; intros g g' Hg; cbn [run].
  - intro He. injection He as <-. exact Hg.
  - destruct (apply M ev g) as [g1|] eqn:Ea; [|discriminate].
    apply IH. destruct ev as [dt| | |]; cbn [apply] in Ea.
    + exact (update_keeps_gone M dt r g g1 Hg Ea).
    + injection Ea as <-. apply startCharging_keeps_gone. exact Hg.
    + injection Ea as <-. apply releaseJump_keeps_gone. exact Hg.
    + injection Ea as <-. apply initGame_keeps_gone. exact Hg.
Qed.

(** [releaseJump] takes the fragile launch platform out of the column. *)
Lemma releaseJump_breaks_fragile (M : MathEnv) (g : Game) (r : Ref) :
  state g = charging ->
  Egg.onPlatform (egg g) = Some r ->
  Platform.type (heap g r) = fragile ->
  ~ In r (platforms (releaseJump M g))
  /\ nextRef (releaseJump M g) = nextRef g.
Proof.
  intros Hs Hr Ht. unfold releaseJump. rewrite Hs.
  destruct (celebrate_footprint M (launch g)) as (ps & sd & fx & pf & ->).
  unfold launch, breakFragile. cbv zeta. rewrite Hr.
  unfold isFragile. rewrite Ht. cbn [PlatformType_eqb]. game_simpl.
  split; [|reflexivity].
  intro Hin. apply filter_In in Hin. destruct Hin as [_ Hrem].
  rewrite store_same in Hrem. discriminate Hrem.
Qed.

(** C5: when the egg is released from a fragile platform, [releaseJump]
    itself takes the platform out of the column, and no later frame or
    command (reset included) puts it back. *)
Theorem fragile_platform_never_returns (M : MathEnv) (g : Game) (r : Ref) :
  state g = charging ->
  Egg.onPlatform (egg g) = Some r ->
  Platform.type (heap g r) = fragile ->
  (r < nextRef g)%nat ->
  ~ In r (platforms (releaseJump M g))
  /\ forall evs g', run M evs (releaseJump M g) = Some g' -> ~ In r (platforms g').
Proof.
  intros Hs Hr Ht Hlt.
  destruct (releaseJump_breaks_fragile M g r Hs Hr Ht) as [Hnin Hn].
  split; [exact Hnin|].
  intros evs g' Hrun.
  assert (Hg : gone r (releaseJump M g)) by (split; [rewrite Hn; exact Hlt|exact Hnin]).
  exact (proj2 (run_keeps_gone M r evs _ g' Hg Hrun)).
Qed.

Lemma fragile_platform_never_returns_witness :
  state onFragile = charging
  /\ ~ In 1%nat (platforms (releaseJump hostHalf onFragile))
  /\ returns (run hostHalf [Frame 1; BeginCharge; Frame 1; Reset; Frame 1]
               (releaseJump hostHalf onFragile))
       (fun g' => ~ In 1%nat (platforms g')).
Proof.
  assert (Hlt : (1 < nextRef onFragile)%nat)
    by (apply Nat.ltb_lt; vm_compute; reflexivity).
  destruct (fragile_platform_never_returns hostHalf onFragile 1%nat
              eq_refl eq_refl eq_refl Hlt) as [Hnow Hlater].
  split; [reflexivity|]. split; [exact Hnow|].
  assert (Hs : option_map (fun _ => tt)
                 (run hostHalf [Frame 1; BeginCharge; Frame 1; Reset; Frame 1]
                    (releaseJump hostHalf onFragile)) = Some tt)
    by (vm_compute; reflexivity).
  destruct (run hostHalf _ (releaseJump hostHalf onFragile)) as [g'|] eqn:E;
    [|discriminate Hs].
  exact (Hlater _ g' E).
Defined.

(** ** Landing *)

Lemma sameButMotion_y (p p' : Platform.t) :
  sameButMotion p p' -> Platform.y p' = Platform.y p.
Proof. unfold sameButMotion. intros ->. reflexivity. Qed.

Lemma sameButTimer_y (p p' : Platform.t) :
  sameButTimer p p' -> Platform.y p' = Platform.y p.
Proof. unfold sameButTimer. intros ->. reflexivity. Qed.

(** The phases up to the bird loop, innermost first. *)
Ltac open_bird_phases :=
  repeat
    (game_simpl;
     match goal with
     | |- context [phasePower ?dt ?X] => rewrite (phasePower_footprint dt X)
     | |- context [phaseMove ?dt ?pl ?X] => unfold phaseMove
     | |- context [phaseTimed ?dt ?pl ?X] =>
         let Hst := fresh "Hst" in
         let He := fresh "He" in
         let Hhp := fresh "Hhp" in
         let Hpl := fresh "Hpl" in
         destruct (phaseTimed_footprint dt pl X) as (? & ? & ? & ? & -> & Hst & He & Hhp & Hpl);
         game_simpl_in Hst; game_simpl_in He; game_simpl_in Hhp; game_simpl_in Hpl
     | |- context [phaseSpawn ?M ?dt ?X] =>
         destruct (phaseSpawn_footprint M dt X) as (? & ? & ? & ->)
     | |- context [phaseBirds ?M ?dt ?X] =>
         let Hst := fresh "Hst" in
         let Hx := fresh "Hx" in
         let Hy := fresh "Hy" in
         destruct (phaseBirds_footprint M dt X) as (? & ? & ? & ? & ? & -> & Hst & Hx & Hy);
         game_simpl_in Hst; game_simpl_in Hx; game_simpl_in Hy
     end);
  game_simpl.

(** A frame that starts in the air reaches the jumping block still in
    the air, with its experience, its best platform height and the
    heights of the platforms as they were. *)
Lemma airborne_until_jumping (M : MathEnv) (dt : Q) (plats : list Ref) (g : Game) :
  state g = jumping ->
  exists G,
    beforeCamera M dt plats g = phaseJumping M dt plats G
    /\ state G = jumping
    /\ xp G = xp g
    /\ highestPlatformY G = highestPlatformY g
    /\ (forall r, Platform.y (heap G r) = Platform.y (heap g r)).
Proof.
  intro Hs. unfold beforeCamera.
  assert (Hb : exists B,
             phaseBirds M dt (phaseSpawn M dt (phaseTimed dt plats
               (phaseMove dt plats (phasePower dt g)))) = B
             /\ state B = jumping /\ xp B = xp g
             /\ highestPlatformY B = highestPlatformY g
             /\ (forall r, Platform.y (heap B r) = Platform.y (heap g r))).
  { eexists. split; [reflexivity|]. open_bird_phases.
    rewrite Hs in *.
    split; [|split; [reflexivity|split; [reflexivity|]]].
    - destruct Hst0 as [->| ->]; [|reflexivity].
      destruct Hst as [->| ->]; reflexivity.
    - intro r. rewrite (sameButTimer_y _ _ (Hhp r)).
      apply sameButMotion_y. apply moveAll_motion. }
  destruct Hb as (B & -> & HsB & HxB & HhB & HyB).
  exists B.
  assert (Hgr : isGrounded (state B) = false) by (rewrite HsB; reflexivity).
  rewrite (phaseDecay_airborne M dt B Hgr), (phaseGrounded_airborne dt B Hgr).
  repeat split; assumption.
Qed.

Lemma landed_fields (r : Ref) (g : Game) :
  state (landed r g) = idle
  /\ egg (landed r g) = Egg.mk (Egg.x (egg g)) (Platform.y (heap g r) - EGG_R) 0 0 (Some r)
  /\ xp (landed r g)
     = (if Qltb (Platform.y (heap g r)) (highestPlatformY g) then xp g + 3 else xp g)
  /\ highestPlatformY (landed r g)
     = (if Qltb (Platform.y (heap g r)) (highestPlatformY g)
        then Platform.y (heap g r) else highestPlatformY g)
  /\ landingFx (landed r g)
     = Some (LandingFx.mk (Platform.y (heap g r)) (Egg.x (egg g)) 20
               (if Qltb (Platform.y (heap g r)) (highestPlatformY g)
                then "+3 XP" else "SAFE"))
  /\ score (landed r g)
     = Z.max (score g) (Qfloor ((540 - Platform.y (heap g r)) / 12)).
Proof. repeat (split; [reflexivity|]). reflexivity. Qed.

(** The landing branch: what [land] leaves in the fields the landing
    rule speaks of. *)
Lemma land_fields (M : MathEnv) (r : Ref) (g : Game) :
  state (land M r g) = idle
  /\ egg (land M r g) = Egg.mk (Egg.x (egg g)) (Platform.y (heap g r) - EGG_R) 0 0 (Some r)
  /\ xp (land M r g)
     = (if Qltb (Platform.y (heap g r)) (highestPlatformY g) then xp g + 3 else xp g)
  /\ highestPlatformY (land M r g)
     = (if Qltb (Platform.y (heap g r)) (highestPlatformY g)
        then Platform.y (heap g r) else highestPlatformY g)
  /\ landingFx (land M r g)
     = Some (LandingFx.mk (Platform.y (heap g r)) (Egg.x (egg g)) 20
               (if Qltb (Platform.y (heap g r)) (highestPlatformY g)
                then "+3 XP" else "SAFE")).
Proof.
  destruct (land_footprint M r g) as (ps & sd & ef & ->).
  generalize (landed_fields r g). generalize (landed r g).
  intros L (H1 & H2 & H3 & H4 & H5 & _).
  repeat split; assumption.
Qed.

(** A frame that starts in the air and ends with the egg at rest on
    platform [r] has landed it there, with the effects of the landing
    branch.  (The cue has already aged by [dt] when the frame ends.) *)
Lemma airborne_frame_landing
    (M : MathEnv) (dt : Q) (g g' : Game) (r : Ref) :
  state g = jumping ->
  update M dt g = Some g' ->
  state g' = idle ->
  Egg.onPlatform (egg g') = Some r ->
  let py := Platform.y (heap g r) in
  let cue (text : string) :=
    if Qleb (20 - dt) 0 then None
    else Some (LandingFx.mk py (Egg.x (egg g')) (20 - dt) text) in
  (py < highestPlatformY g ->
   xp g' = xp g + 3 /\ highestPlatformY g' = py /\ landingFx g' = cue "+3 XP"%string)
  /\ (~ py < highestPlatformY g ->
      xp g' = xp g /\ highestPlatformY g' = highestPlatformY g
      /\ landingFx g' = cue "SAFE"%string).
Proof.
  intros Hs Hu Hi Hr py cue.
  assert (Hg : state g <> gameover) by congruence.
  destruct (update_tail M dt g g' Hg Hu)
    as (Hst & Heg & _ & _ & Hxp & Hhi & _ & _ & _ & Hfx).
  unfold prePhases in Hst, Heg, Hxp, Hhi, Hfx.
  destruct (airborne_until_jumping M dt (platforms g) g Hs)
    as (G & HG & HsG & HxG & HhG & HyG).
  rewrite HG in Hst, Heg, Hxp, Hhi, Hfx.
  destruct (phaseCamera_fields dt (phaseJumping M dt (platforms g) G))
    as (Cs & Ce & _ & Cx & Ch & _ & _ & _ & Cf & _).
  rewrite Cs in Hst. rewrite Ce in Heg. rewrite Cx in Hxp. rewrite Ch in Hhi.
  rewrite Cf in Hfx. clear Cs Ce Cx Ch Cf HG.
  destruct (phaseJumping_cases M dt (platforms g) G)
    as [[Hn _]|[[_ (ps & sd & Hj)]|[_ (ps & sd & r' & ps' & sd' & ef & _ & _ & Hj)]]].
  - contradiction.
  - exfalso. rewrite Hj in Hst.
    destruct (fallCheck_cases (flown dt ps sd G)) as [Hf|Hf]; rewrite Hf in Hst.
    + change (state (flown dt ps sd G)) with (state G) in Hst. congruence.
    + cbn in Hst. congruence.
  - rewrite Hj in Hst, Heg, Hxp, Hhi, Hfx. clear Hj.
    assert (HyF : Platform.y (heap (flown dt ps sd G) r') = Platform.y (heap g r'))
      by (rewrite <- HyG; reflexivity).
    assert (HhF : highestPlatformY (flown dt ps sd G) = highestPlatformY g)
      by (rewrite <- HhG; reflexivity).
    assert (HxF : xp (flown dt ps sd G) = xp g) by (rewrite <- HxG; reflexivity).
    revert Hst Heg Hxp Hhi Hfx.
    generalize (landed_fields r' (flown dt ps sd G)).
    rewrite HyF, HhF, HxF. clear HyF HhF HxF.
    generalize (Egg.x (egg (flown dt ps sd G))). intro ex.
    generalize (landed r' (flown dt ps sd G)).
    intros L (L1 & L2 & L3 & L4 & L5 & _) Hst Heg Hxp Hhi Hfx.
    assert (Hfc : fallCheck (set_seed sd' (set_particles ps' (set_evolveFlash ef L)))
                  = set_seed sd' (set_particles ps' (set_evolveFlash ef L))).
    { destruct (fallCheck_cases (set_seed sd' (set_particles ps' (set_evolveFlash ef L))))
        as [Hf|Hf]; [exact Hf|].
      exfalso. rewrite Hf in Hst. cbn in Hst. congruence. }
    rewrite Hfc in Hst, Heg, Hxp, Hhi, Hfx. clear Hfc.
    change (egg g' = egg L) in Heg. change (xp g' = xp L) in Hxp.
    change (highestPlatformY g' = highestPlatformY L) in Hhi.
    change (landingFx (set_seed sd' (set_particles ps' (set_evolveFlash ef L))))
      with (landingFx L) in Hfx.
    rewrite L2 in Heg. rewrite L3 in Hxp. rewrite L4 in Hhi. rewrite L5 in Hfx.
    cbn [LandingFx.timer LandingFx.set_timer] in Hfx.
    assert (Hrr : r' = r).
    { rewrite Heg in Hr. cbn in Hr. congruence. }
    subst r'. fold py in Hxp, Hhi, Hfx.
    assert (Hex : Egg.x (egg g') = ex) by (rewrite Heg; reflexivity).
    subst cue. cbv beta. rewrite Hex.
    split; intro Hcmp.
    + apply Qltb_lt in Hcmp. rewrite Hcmp in Hxp, Hhi, Hfx.
      split; [exact Hxp|]. split; [exact Hhi|].
      rewrite Hfx. destruct (Qleb (20 - dt) 0); reflexivity.
    + assert (Hc : Qltb py (highestPlatformY g) = false).
      { destruct (Qltb py (highestPlatformY g)) eqn:E; [|reflexivity].
        apply Qltb_lt in E. contradiction. }
      rewrite Hc in Hxp, Hhi, Hfx.
      split; [exact Hxp|]. split; [exact Hhi|].
      rewrite Hfx. destruct (Qleb (20 - dt) 0); reflexivity.
Qed.

(** C4: whenever the landing branch runs for platform [r], and so in
    every frame that starts in the air and ends with the egg at rest on
    [r]: if the platform's [y] is below the run's [highestPlatformY]
    (numerically), the experience grows by 3, [highestPlatformY] becomes
    that [y] and the cue reads [+3 XP]; otherwise experience and
    [highestPlatformY] stay and the cue reads [SAFE]. *)
Theorem landing_awards_experience (M : MathEnv) :
  (forall r G,
     let py := Platform.y (heap G r) in
     let L := land M r G in
     (py < highestPlatformY G ->
      xp L = xp G + 3 /\ highestPlatformY L = py
      /\ option_map LandingFx.text (landingFx L) = Some "+3 XP"%string)
     /\ (~ py < highestPlatformY G ->
         xp L = xp G /\ highestPlatformY L = highestPlatformY G
         /\ option_map LandingFx.text (landingFx L) = Some "SAFE"%string))
  /\ (forall dt g g' r,
       state g = jumping ->
       update M dt g = Some g' ->
       state g' = idle ->
       Egg.onPlatform (egg g') = Some r ->
       let py := Platform.y (heap g r) in
       let cue (text : string) :=
         if Qleb (20 - dt) 0 then None
         else Some (LandingFx.mk py (Egg.x (egg g')) (20 - dt) text) in
       (py < highestPlatformY g ->
        xp g' = xp g + 3 /\ highestPlatformY g' = py
        /\ landingFx g' = cue "+3 XP"%string)
       /\ (~ py < highestPlatformY g ->
           xp g' = xp g /\ highestPlatformY g' = highestPlatformY g
           /\ landingFx g' = cue "SAFE"%string)).
Proof.
  split.
  - intros r G py L. subst py L.
    destruct (land_fields M r G) as (_ & _ & Hx & Hh & Hf).
    rewrite Hx, Hh, Hf. cbn [option_map LandingFx.text].
    split; intro Hcmp.
    + apply Qltb_lt in Hcmp. rewrite Hcmp. repeat split.
    + assert (Hc : Qltb (Platform.y (heap G r)) (highestPlatformY G) = false).
      { destruct (Qltb _ _) eqn:E; [|reflexivity].
        apply Qltb_lt in E. contradiction. }
      rewrite Hc. repeat split.
  - intros dt g g' r. apply airborne_frame_landing.
Qed.

Lemma landing_awards_experience_witness :
  state descending = jumping
  /\ returns (update hostHalf 1 descending) (fun g' =>
       state g' = idle
       /\ Egg.onPlatform (egg g') = Some 0%nat
       /\ xp g' = xp descending + 3
       /\ highestPlatformY g' = Platform.y (heap descending 0%nat)).
Proof.
  split; [reflexivity|].
  assert (Hc : option_map
                 (fun g' => (GameState_eqb (state g') idle,
                             Ref_eqb (Egg.onPlatform (egg g')) (Some 0%nat)))
                 (update hostHalf 1 descending) = Some (true, true))
    by (vm_compute; reflexivity).
  destruct (update hostHalf 1 descending) as [g'|] eqn:E; [|discriminate Hc].
  cbn [option_map] in Hc. injection Hc as Hst Hon. cbn [returns].
  assert (Hi : state g' = idle)
    by (destruct (state g'); try discriminate Hst; reflexivity).
  assert (Hr : Egg.onPlatform (egg g') = Some 0%nat).
  { destruct (Egg.onPlatform (egg g')) as [[|n]|]; try discriminate Hon. reflexivity. }
  assert (Hlt : Platform.y (heap descending 0%nat) < highestPlatformY descending)
    by (vm_compute; reflexivity).
  destruct (proj2 (landing_awards_experience hostHalf)
              1 descending g' 0%nat eq_refl E Hi Hr) as [Hhigher _].
  destruct (Hhigher Hlt) as (Hx & Hh & _).
  split; [exact Hi|]. split; [exact Hr|]. split; [exact Hx|exact Hh].
Defined.

(** ** Timed platforms *)

Lemma Ref_eqb_eq (a : option Ref) (r : Ref) : Ref_eqb a (Some r) = true <-> a = Some r.
Proof.
  destruct a as [i|]; cbn; [|split; discriminate].
  rewrite Nat.eqb_eq. split; congruence.
Qed.

Lemma option_eq_dec_ref (a : option Ref) (r : Ref) : {a = Some r} + {a <> Some r}.
Proof.
  destruct a as [i|]; [|right; discriminate].
  destruct (Nat.eq_dec i r) as [->|Hne]; [left; reflexivity|right; congruence].
Qed.

(** The countdown leaves alone every platform the egg is not on. *)
Lemma timedStep_elsewhere (dt : Q) (g : Game) (r : Ref) :
  Egg.onPlatform (egg g) <> Some r -> timedStep dt g r = g.
Proof.
  intro Hne. unfold timedStep.
  destruct (Ref_eqb (Egg.onPlatform (egg g)) (Some r)) eqn:E.
  - apply Ref_eqb_eq in E. contradiction.
  - rewrite andb_false_r. reflexivity.
Qed.

Lemma timedLoop_elsewhere (dt : Q) (plats : list Ref) (g : Game) :
  (forall r, In r plats -> Egg.onPlatform (egg g) <> Some r) ->
  fold_left (timedStep dt) plats g = g.
Proof.
  induction plats as [|r0 plats IH]; intro Hall; cbn [fold_left]; [reflexivity|].
  rewrite timedStep_elsewhere by (apply Hall; left; reflexivity).
  apply IH. intros r Hr. apply Hall. right. exact Hr.
Qed.

(** After the step at the egg's platform the egg is still there or on no
    platform at all. *)
Lemma timedStep_onPlatform (dt : Q) (g : Game) (r : Ref) :
  Egg.onPlatform (egg (timedStep dt g r)) = Egg.onPlatform (egg g)
  \/ Egg.onPlatform (egg (timedStep dt g r)) = None.
Proof.
  unfold timedStep. destruct (isTimed _ && _ && _); [|left; reflexivity].
  cbv zeta. destruct (Qleb _ 0 && _); [|left; reflexivity].
  destruct (Ref_eqb _ _); [right|left]; reflexivity.
Qed.

(** With the egg on [r] and [r] listed once, the loop is its step at [r]. *)
Lemma timedLoop_at (dt : Q) (plats : list Ref) (g : Game) (r : Ref) :
  NoDup plats -> In r plats -> Egg.onPlatform (egg g) = Some r ->
  fold_left (timedStep dt) plats g = timedStep dt g r.
Proof.
  revert g. induction plats as [|r0 plats IH]; intros g Hnd Hin Hon; [contradiction|].
  cbn [fold_left]. inversion Hnd as [|? ? Hnotin Hnd']; subst.
  destruct (Nat.eq_dec r0 r) as [->|Hne].
  - apply timedLoop_elsewhere. intros r1 Hr1 Heq.
    destruct (timedStep_onPlatform dt g r) as [Hk|Hk]; rewrite Hk in Heq.
    + rewrite Hon in Heq. injection Heq as ->. contradiction.
    + discriminate Heq.
  - rewrite timedStep_elsewhere by (rewrite Hon; congruence).
    apply IH; [exact Hnd' | | exact Hon].
    destruct Hin as [Hin|Hin]; [congruence|exact Hin].
Qed.

(** The countdown phase never touches a platform the egg is not on: its
    timer is frozen, on screen or off. *)
Lemma countdown_frozen_elsewhere (dt : Q) (plats : list Ref) (g : Game) (r : Ref) :
  Egg.onPlatform (egg g) <> Some r ->
  heap (phaseTimed dt plats g) r = heap g r.
Proof.
  unfold phaseTimed. cbv zeta. game_simpl.
  revert g. induction plats as [|r0 plats IH]; intros g Hne; cbn [fold_left]; [reflexivity|].
  destruct (option_eq_dec_ref (Egg.onPlatform (egg g)) r0) as [Hon|Hon].
  - rewrite IH.
    + unfold timedStep. destruct (isTimed _ && _ && _); [|reflexivity].
      cbv zeta. destruct (Qleb _ 0 && _).
      * destruct (Ref_eqb _ _); game_simpl; apply store_other; congruence.
      * game_simpl. apply store_other. congruence.
    + destruct (timedStep_onPlatform dt g r0) as [Hk|Hk]; rewrite Hk; congruence.
  - rewrite timedStep_elsewhere by exact Hon. apply IH. exact Hne.
Qed.

(** The countdown step at the egg's own platform, timed and landed on. *)
Lemma timedStep_under_egg (dt : Q) (g : Game) (r : Ref) :
  Egg.onPlatform (egg g) = Some r ->
  Platform.type (heap g r) = timed ->
  Platform.landed (heap g r) = true ->
  timedStep dt g r
  = if Qleb (Platform.timer (heap g r) - dt) 0 && negb (Platform.removing (heap g r))
    then set_state jumping
           (set_egg (dropped (egg g))
              (set_heap
                 (store r
                    (Platform.set_removing true
                       (Platform.set_timer 0
                          (Platform.set_timer (Platform.timer (heap g r) - dt) (heap g r))))
                    (heap g))
                 g))
    else set_heap
           (store r (Platform.set_timer (Platform.timer (heap g r) - dt) (heap g r))
              (heap g))
           g.
Proof.
  intros Hon Hty Hla. unfold timedStep, isTimed. rewrite Hty, Hla, Hon.
  cbn [PlatformType_eqb Ref_eqb andb]. rewrite Nat.eqb_refl. cbv zeta.
  cbn [Platform.timer Platform.set_timer Platform.removing].
  destruct (Qleb _ 0 && _); [|reflexivity].
  game_simpl. rewrite Hon. cbn [Ref_eqb]. rewrite Nat.eqb_refl. reflexivity.
Qed.

(** The countdown phase at the egg's own platform [r], timed and landed
    on: the timer loses [dt]; when that brings it to zero or below (and
    the platform is not yet marked) the timer is set to 0, the platform
    is marked, [g.platforms] is assigned a copy without it, and the egg
    is dropped with no vertical speed in state [jumping]. *)
Lemma countdown_under_egg (dt : Q) (g : Game) (r : Ref) :
  NoDup (platforms g) -> In r (platforms g) ->
  Egg.onPlatform (egg g) = Some r ->
  Platform.type (heap g r) = timed ->
  Platform.landed (heap g r) = true ->
  let g1 := phaseTimed dt (platforms g) g in
  if Qleb (Platform.timer (heap g r) - dt) 0 && negb (Platform.removing (heap g r))
  then Platform.timer (heap g1 r) = 0
       /\ Platform.removing (heap g1 r) = true
       /\ ~ In r (platforms g1)
       /\ Egg.onPlatform (egg g1) = None
       /\ Egg.vy (egg g1) = 0
       /\ state g1 = jumping
  else Platform.timer (heap g1 r) = Platform.timer (heap g r) - dt
       /\ Platform.removing (heap g1 r) = Platform.removing (heap g r)
       /\ egg g1 = egg g /\ state g1 = state g.
Proof.
  intros Hnd Hin Hon Hty Hla g1. subst g1. unfold phaseTimed. cbv zeta.
  rewrite (timedLoop_at dt (platforms g) g r Hnd Hin Hon).
  rewrite (timedStep_under_egg dt g r Hon Hty Hla).
  destruct (Qleb (Platform.timer (heap g r) - dt) 0 && negb (Platform.removing (heap g r))).
  - game_simpl. rewrite store_same.
    cbn [Platform.timer Platform.removing Platform.set_removing Platform.set_timer].
    split; [reflexivity|]. split; [reflexivity|]. split; [|repeat split].
    intro Hr. apply filter_In in Hr. destruct Hr as [_ Hr].
    unfold expiredTimed, isTimed in Hr. rewrite store_same in Hr.
    cbn [Platform.type Platform.removing Platform.set_removing Platform.set_timer] in Hr.
    rewrite Hty in Hr. discriminate Hr.
  - game_simpl. rewrite store_same. cbn [Platform.timer Platform.removing Platform.set_timer].
    repeat split.
Qed.

(** ** The column at the end of a frame *)

Lemma phaseCamera_heap (dt : Q) (g : Game) :
  heap (phaseCamera dt g) = heap g /\ nextRef (phaseCamera dt g) = nextRef g.
Proof. rewrite phaseCamera_footprint. split; reflexivity. Qed.

Lemma landed_heap_y (r r' : Ref) (g : Game) :
  Platform.y (heap (landed r g) r') = Platform.y (heap g r').
Proof.
  unfold landed. cbv zeta. game_simpl. destruct (isTimed (heap g r)); [|reflexivity].
  unfold store. destruct (Nat.eqb r' r) eqn:E; [|reflexivity].
  apply Nat.eqb_eq in E. subst r'. reflexivity.
Qed.

Lemma fallCheck_heap (g : Game) : heap (fallCheck g) = heap g.
Proof. destruct (fallCheck_cases g) as [-> | ->]; reflexivity. Qed.

(** No phase changes the height of a platform. *)
Lemma phaseJumping_heap_y (M : MathEnv) (dt : Q) (plats : list Ref) (g : Game) (r : Ref) :
  Platform.y (heap (phaseJumping M dt plats g) r) = Platform.y (heap g r).
Proof.
  destruct (phaseJumping_cases M dt plats g)
    as [[_ ->]|[[_ (ps & sd & ->)]|[_ (ps & sd & r' & ps' & sd' & ef & _ & _ & ->)]]].
  - reflexivity.
  - rewrite fallCheck_heap. reflexivity.
  - rewrite fallCheck_heap.
    generalize (landed_heap_y r' r (flown dt ps sd g)).
    generalize (landed r' (flown dt ps sd g)). intros L HL.
    assert (Hs : heap (set_seed sd' (set_particles ps' (set_evolveFlash ef L))) = heap L)
      by reflexivity.
    rewrite Hs, HL.
    assert (Hf : heap (flown dt ps sd g) = heap g) by reflexivity.
    rewrite Hf. reflexivity.
Qed.

Lemma beforeCamera_heap_y (M : MathEnv) (dt : Q) (plats : list Ref) (g : Game) (r : Ref) :
  Platform.y (heap (beforeCamera M dt plats g) r) = Platform.y (heap g r).
Proof.
  unfold beforeCamera. rewrite phaseJumping_heap_y.
  open_ground_phases.
  rewrite (sameButTimer_y _ _ (Hhp r)).
  apply sameButMotion_y. apply moveAll_motion.
Qed.

(** At the end of a frame the column is the array the frame began with,
    extended, and culled by height alone: a platform of that array is in
    the column again whenever it is not too far below the camera,
    whatever its [removing] mark. *)
Lemma update_rebuilds_column (M : MathEnv) (dt : Q) (g g' : Game) (r : Ref) :
  state g <> gameover ->
  update M dt g = Some g' ->
  In r (platforms g) ->
  (r < nextRef g)%nat ->
  Platform.y (heap g r) < Camera.y (camera g') + H + 50 ->
  In r (platforms g').
Proof.
  intros Hg Hu Hin Hlt Hy.
  destruct (update_tail M dt g g' Hg Hu) as (_ & _ & Hcam & _).
  rewrite Hcam in Hy. clear Hcam.
  destruct (update_unfold M dt g g' Hg Hu) as (g1 & Hc & ->).
  unfold prePhases in Hc, Hy. revert Hc Hy.
  generalize (beforeCamera_heap_y M dt (platforms g) g r).
  generalize (beforeCamera_nextRef M dt (platforms g) g).
  generalize (beforeCamera M dt (platforms g) g). intros G HnG HyG Hc Hy.
  destruct (phaseCamera_heap dt G) as [Hh Hn].
  apply phaseColumn_footprint in Hc. destruct Hc as (k & hp & sd & -> & Hhp).
  match goal with |- context [phaseEffects dt ?X] =>
    destruct (phaseEffects_footprint dt X) as (pf & fx & ps & -> & _)
  end.
  game_simpl. apply filter_In. split.
  - apply in_or_app. left. exact Hin.
  - apply Qltb_lt. rewrite Hhp by (rewrite Hn, HnG; exact Hlt).
    rewrite Hh, HyG. exact Hy.
Qed.

(** C2 at a failing input: the egg rests on a timed platform with one
    time unit left.  The countdown phase marks the platform and assigns
    [g.platforms] a copy without it, and the egg is dropped; but platform
    management rebuilds [g.platforms] from the array bound when the frame
    began, so the frame ends with the expired platform in the column. *)
Theorem expired_timed_platform_stays_in_column :
  Egg.onPlatform (egg onTimed) = Some 1%nat
  /\ ~ In 1%nat
         (platforms
            (phaseTimed 1 (platforms onTimed)
               (phaseMove 1 (platforms onTimed) (phasePower 1 onTimed))))
  /\ returns (update hostHalf 1 onTimed) (fun g' =>
       state g' = jumping
       /\ Egg.onPlatform (egg g') = None
       /\ Platform.timer (heap g' 1%nat) = 0
       /\ Platform.removing (heap g' 1%nat) = true
       /\ In 1%nat (platforms g')).
Proof.
  split; [reflexivity|]. split.
  - assert (Hc : existsb (Nat.eqb 1)
                   (platforms
                      (phaseTimed 1 (platforms onTimed)
                         (phaseMove 1 (platforms onTimed) (phasePower 1 onTimed))))
                 = false) by (vm_compute; reflexivity).
    intro Hin. rewrite <- not_true_iff_false in Hc. apply Hc.
    apply existsb_exists. exists 1%nat. split; [exact Hin|reflexivity].
  - assert (Hc : option_map
                   (fun g' => (GameState_eqb (state g') jumping,
                               Ref_eqb (Egg.onPlatform (egg g')) None,
                               Platform.timer (heap g' 1%nat),
                               Platform.removing (heap g' 1%nat),
                               existsb (Nat.eqb 1) (platforms g')))
                   (update hostHalf 1 onTimed)
                 = Some (true, true, 0, true, true))
      by (vm_compute; reflexivity).
    destruct (update hostHalf 1 onTimed) as [g'|]; [|discriminate Hc].
    cbn [option_map] in Hc. injection Hc as Hst Hon Hti Hre Hin. cbn [returns].
    split; [destruct (state g'); try discriminate Hst; reflexivity|].
    split; [destruct (Egg.onPlatform (egg g')); [discriminate Hon|reflexivity]|].
    split; [exact Hti|]. split; [exact Hre|].
    apply existsb_exists in Hin. destruct Hin as (x & Hx & Hex).
    destruct x as [|[|x]]; try discriminate Hex. exact Hx.
Qed.

(** ** Birds *)

(** The five bands and the value used below them. *)
Lemma birdInterval_bands (h : Z) :
  ((h < 40)%Z -> birdInterval h = 99999)
  /\ ((40 <= h < 80)%Z -> birdInterval h = 500)
  /\ ((80 <= h < 130)%Z -> birdInterval h = 350)
  /\ ((130 <= h < 200)%Z -> birdInterval h = 250)
  /\ ((200 <= h < 300)%Z -> birdInterval h = 170)
  /\ ((300 <= h)%Z -> birdInterval h = 120).
Proof.
  unfold birdInterval.
  repeat split; intro Hh;
    repeat match goal with
           | |- context [(?a <=? ?b)%Z] => destruct (Z.leb_spec a b); try lia
           | |- context [(?a <? ?b)%Z] => destruct (Z.ltb_spec a b); try lia
           end; reflexivity.
Qed.

(** The interval shrinks as the height grows. *)
Lemma birdInterval_antitone (h1 h2 : Z) :
  (h1 <= h2)%Z -> birdInterval h2 <= birdInterval h1.
Proof.
  intro Hle. unfold birdInterval.
  repeat match goal with
         | |- context [(?a <=? ?b)%Z] => destruct (Z.leb_spec a b); try lia
         | |- context [(?a <? ?b)%Z] => destruct (Z.ltb_spec a b); try lia
         end; cbn [andb]; discriminate.
Qed.

(** Below the lowest band the spawning phase adds no bird as long as the
    accumulated timer stays within 99999. *)
Lemma phaseSpawn_below_band (M : MathEnv) (dt : Q) (g : Game) :
  (metres (heightReached g) < 40)%Z ->
  birdTimer g + dt <= 99999 ->
  phaseSpawn M dt g = set_birdTimer (birdTimer g + dt) g.
Proof.
  intros Hh Ht. unfold phaseSpawn. cbv zeta. game_simpl.
  destruct (birdInterval_bands (metres (heightReached g))) as (Hb & _).
  rewrite (Hb Hh).
  destruct (Qltb 99999 (birdTimer g + dt)) eqn:E; [|reflexivity].
  apply Qltb_lt in E. exfalso. exact (Qlt_not_le _ _ E Ht).
Qed.

(** Below the lowest band the spawning phase does add a bird once the
    accumulated timer exceeds 99999. *)
Lemma phaseSpawn_sentinel (M : MathEnv) (dt : Q) (g : Game) :
  (metres (heightReached g) < 40)%Z ->
  99999 < birdTimer g + dt ->
  exists b, birds (phaseSpawn M dt g) = birds g ++ [b] /\ Bird.x b = W + 30.
Proof.
  intros Hh Ht. unfold phaseSpawn. cbv zeta. game_simpl.
  destruct (birdInterval_bands (metres (heightReached g))) as (Hb & _).
  rewrite (Hb Hh).
  apply Qltb_lt in Ht. rewrite Ht. game_simpl.
  eexists. split; reflexivity.
Qed.

(** The same at a hand-built input: at rest on the starting platform
    with the bird timer at 99999, the next frame creates a bird. *)
Theorem bird_spawns_below_lowest_band :
  (metres (heightReached idleLong) < 40)%Z
  /\ state idleLong = idle
  /\ birds idleLong = []
  /\ returns (update hostHalf 1 idleLong) (fun g' =>
       (metres (heightReached g') < 40)%Z /\ List.length (birds g') = 1%nat).
Proof.
  split; [vm_compute; reflexivity|]. split; [reflexivity|]. split; [reflexivity|].
  assert (Hc : option_map
                 (fun g' => (metres (heightReached g') <? 40, List.length (birds g'))%Z)
                 (update hostHalf 1 idleLong) = Some (true, 1%nat))
    by (vm_compute; reflexivity).
  destruct (update hostHalf 1 idleLong) as [g'|]; [|discriminate Hc].
  cbn [option_map] in Hc. injection Hc as Hm Hl. cbn [returns].
  split; [apply Z.ltb_lt; exact Hm | exact Hl].
Qed.

Lemma phasePower_idle (dt : Q) (g : Game) : state g = idle -> phasePower dt g = g.
Proof. intro Hs. unfold phasePower. rewrite Hs. reflexivity. Qed.

Lemma moveAll_still (dt : Q) (plats : list Ref) (hp : Heap) (r : Ref) :
  Qeqb (Platform.speed (hp r)) 0 = true ->
  fold_left (fun hp r => store r (movePlatform dt (hp r)) hp) plats hp r = hp r.
Proof.
  revert hp. induction plats as [|r0 plats IH]; intros hp Hs; cbn [fold_left]; [reflexivity|].
  assert (Hr : store r0 (movePlatform dt (hp r0)) hp r = hp r).
  { unfold store. destruct (Nat.eqb r r0) eqn:E; [|reflexivity].
    apply Nat.eqb_eq in E. subst r0. unfold movePlatform. rewrite Hs. reflexivity. }
  rewrite IH; [exact Hr|]. rewrite Hr. exact Hs.
Qed.

Lemma timedStep_not_timed (dt : Q) (g : Game) (r : Ref) :
  isTimed (heap g r) = false -> timedStep dt g r = g.
Proof. intro Ht. unfold timedStep. rewrite Ht. reflexivity. Qed.

Lemma phaseTimed_idle (dt : Q) (plats : list Ref) (g : Game) (r0 : Ref) :
  Egg.onPlatform (egg g) = Some r0 ->
  isTimed (heap g r0) = false ->
  phaseTimed dt plats g
  = set_platforms (filter (fun r => negb (expiredTimed (heap g) r)) (platforms g)) g.
Proof.
  intros Hon Ht. unfold phaseTimed.
  assert (Hl : fold_left (timedStep dt) plats g = g).
  { induction plats as [|r plats IH]; cbn [fold_left]; [reflexivity|].
    destruct (Nat.eq_dec r r0) as [->|Hne].
    - rewrite timedStep_not_timed by exact Ht. exact IH.
    - rewrite timedStep_elsewhere by (rewrite Hon; congruence). exact IH. }
  rewrite Hl. reflexivity.
Qed.

Lemma phaseBirds_none (M : MathEnv) (dt : Q) (g : Game) :
  birds g = [] -> phaseBirds M dt g = g.
Proof.
  intro Hb. unfold phaseBirds. rewrite Hb. cbn [birdLoop filter].
  destruct g; cbn in Hb; subst; reflexivity.
Qed.

Lemma phaseDecay_none (M : MathEnv) (dt : Q) (g : Game) :
  Qltb 0 (xp g) = false -> phaseDecay M dt g = g.
Proof. intro Hx. unfold phaseDecay. rewrite Hx, andb_false_r. reflexivity. Qed.

Lemma phaseGrounded_rest (dt : Q) (g : Game) (r : Ref) :
  state g = idle ->
  Egg.onPlatform (egg g) = Some r ->
  Qltb H (Platform.y (heap g r) - Camera.y (camera g)) = false ->
  phaseGrounded dt g
  = set_egg
      (Egg.mk
         (Qmax EGG_R (Qmin (W - EGG_R) (Egg.x (egg g) + Platform.speed (heap g r) * dt)))
         (Platform.y (heap g r) - EGG_R)
         (Egg.vx (egg g)) (Egg.vy (egg g)) (Some r))
      g.
Proof.
  intros Hs Hon Hv. unfold phaseGrounded. rewrite Hon, Hs. cbn [isGrounded].
  cbv zeta. rewrite Hv. unfold Egg.set_y, Egg.set_x. cbn [Egg.x Egg.y Egg.vx Egg.vy Egg.onPlatform].
  rewrite Hon. reflexivity.
Qed.

Lemma phaseJumping_grounded (M : MathEnv) (dt : Q) (plats : list Ref) (g : Game) :
  state g = idle -> phaseJumping M dt plats g = g.
Proof. intro Hs. unfold phaseJumping. rewrite Hs. reflexivity. Qed.

(** When the topmost platform is far enough above the camera the loop
    is not entered. *)
Lemma phaseColumn_settled (M : MathEnv) (plats : list Ref) (g : Game) (m : Q) :
  minOf (map (fun r => Platform.y (heap g r)) plats) = Some m ->
  Qltb (Camera.y (camera g) - 300) m = false ->
  phaseColumn M plats g
  = Some (set_platforms
            (filter (fun r => Qltb (Platform.y (heap g r)) (Camera.y (camera g) + H + 50))
               plats) g).
Proof.
  intros Hm Hc. unfold phaseColumn. rewrite Hm. cbv zeta.
  assert (He : forall fuel c, extendColumn M fuel (Camera.y (camera g)) m c = Some c).
  { intros fuel c. destruct fuel; cbn [extendColumn]; rewrite Hc; reflexivity. }
  rewrite He. destruct g; reflexivity.
Qed.

Lemma filter_all {A : Type} (f : A -> bool) (l : list A) :
  forallb f l = true -> filter f l = l.
Proof.
  induction l as [|a l IH]; cbn; [reflexivity|].
  intro Hf. apply andb_true_iff in Hf. destruct Hf as [Ha Hl].
  rewrite Ha, (IH Hl). reflexivity.
Qed.

Lemma forallb_heights (f : Q -> bool) (hp : Heap) (plats : list Ref) :
  forallb (fun r => f (Platform.y (hp r))) plats
  = forallb f (map (fun r => Platform.y (hp r)) plats).
Proof. induction plats as [|r plats IH]; cbn; [reflexivity|]. rewrite IH. reflexivity. Qed.

Lemma metres_low (hr : Q) : 522 <= hr -> (metres hr < 40)%Z.
Proof.
  intro Hh. unfold metres.
  assert (Hf : (Qfloor ((540 - hr) / 12) <= Qfloor (3 # 2))%Z).
  { apply Qfloor_resp_le.
    assert (Hd : (540 - hr) / 12 == (540 - hr) * (1 # 12)) by field.
    rewrite Hd. lra. }
  change (Qfloor (3 # 2)) with 1%Z in Hf. lia.
Qed.

Lemma columnHeights_top :
  exists m, minOf columnHeights = Some m /\ Qltb (0 - 300) m = false.
Proof. eexists. split; vm_compute; reflexivity. Qed.

Lemma columnHeights_on_screen :
  forallb (fun y => Qltb y (0 + H + 50)) columnHeights = true.
Proof. vm_compute. reflexivity. Qed.

(** The phases before platform management, for an idle player below the
    lowest band whose bird timer stays within 99999. *)
Lemma quiet_prePhases (M : MathEnv) (dt : Q) (g : Game) :
  quiet g ->
  birdTimer g + dt <= 99999 ->
  exists G,
    prePhases M dt (platforms g) g = G
    /\ quiet (set_platforms (platforms g) G)
    /\ birdTimer G = birdTimer g + dt.
Proof.
  intros (Hs & Hx & Hb & Hon & Hp0 & Hcam & Hys & Hhr & Hex) Ht.
  unfold prePhases, beforeCamera.
  rewrite (phasePower_idle dt g Hs). unfold phaseMove.
  assert (F1 : fold_left (fun hp r => store r (movePlatform dt (hp r)) hp)
                 (platforms g) (heap g) 0%nat = startPlatform).
  { rewrite moveAll_still; [exact Hp0|]. rewrite Hp0. reflexivity. }
  assert (F2 : forall r,
             Platform.y (fold_left (fun hp r => store r (movePlatform dt (hp r)) hp)
                           (platforms g) (heap g) r)
             = Platform.y (heap g r)).
  { intro r. apply sameButMotion_y. apply moveAll_motion. }
  revert F1 F2.
  generalize (fold_left (fun hp r => store r (movePlatform dt (hp r)) hp)
                (platforms g) (heap g)).
  intros hp2 F1 F2.
  rewrite (phaseTimed_idle dt (platforms g) (set_heap hp2 g) 0%nat);
    [|exact Hon|game_simpl; rewrite F1; reflexivity].
  game_simpl.
  generalize (filter (fun r => negb (expiredTimed hp2 r)) (platforms g)). intro pl3.
  rewrite phaseSpawn_below_band;
    [|apply metres_low; exact Hhr|exact Ht].
  game_simpl.
  rewrite phaseBirds_none by exact Hb.
  rewrite phaseDecay_none by exact Hx.
  rewrite (phaseGrounded_rest dt _ 0%nat);
    [|exact Hs|exact Hon|game_simpl; rewrite F1, Hcam; vm_compute; reflexivity].
  game_simpl.
  rewrite phaseJumping_grounded by exact Hs.
  rewrite phaseCamera_footprint. game_simpl.
  rewrite F1, Hcam. cbn [Egg.y Camera.y Platform.y Platform.speed startPlatform].
  assert (Hc : Qltb (540 - EGG_R - H * 0.55) 0 = false) by (vm_compute; reflexivity).
  rewrite Hc.
  eexists. split; [reflexivity|]. split; [|reflexivity].
  unfold quiet. game_simpl. cbn [Egg.onPlatform Egg.x].
  split; [exact Hs|]. split; [exact Hx|]. split; [exact Hb|].
  split; [reflexivity|]. split; [exact F1|]. split; [reflexivity|].
  split; [|split].
  - rewrite <- Hys. apply map_ext. intro r. apply F2.
  - apply Q.min_glb; [exact Hhr|]. vm_compute. discriminate.
  - apply Q.max_lub; [vm_compute; discriminate|]. apply Q.le_min_l.
Qed.

(** A whole frame for an idle player: it returns, the player is as idle
    as before, and the bird timer has grown by [dt]. *)
Lemma quiet_frame (M : MathEnv) (dt : Q) (g : Game) :
  quiet g ->
  birdTimer g + dt <= 99999 ->
  exists g', update M dt g = Some g' /\ quiet g' /\ birdTimer g' = birdTimer g + dt.
Proof.
  intros Hq Ht.
  destruct (quiet_prePhases M dt g Hq Ht) as (G & HG & HqG & HtG).
  destruct Hq as (Hs & _).
  unfold update. rewrite Hs, HG. clear HG.
  destruct HqG as (Gs & Gx & Gb & Gon & Gp0 & Gcam & Gys & Ghr & Gex).
  revert Gs Gx Gb Gon Gp0 Gcam Gys Ghr Gex. game_simpl.
  intros Gs Gx Gb Gon Gp0 Gcam Gys Ghr Gex.
  destruct columnHeights_top as (m & Hm & Hlow).
  rewrite (phaseColumn_settled M (platforms g) G m);
    [|rewrite Gys; exact Hm|rewrite Gcam; exact Hlow].
  rewrite Gcam. cbn [Camera.y].
  rewrite filter_all
    by (rewrite (forallb_heights (fun y => Qltb y (0 + H + 50)) (heap G)), Gys;
        exact columnHeights_on_screen).
  match goal with |- context [phaseEffects dt ?X] =>
    destruct (phaseEffects_footprint dt X) as (pf & fx & ps & -> & _)
  end.
  eexists. split; [reflexivity|]. split; [|exact HtG].
  unfold quiet. game_simpl.
  repeat (split; [assumption|]). assumption.
Qed.

Lemma run_app (M : MathEnv) (evs1 evs2 : list Event) (g : Game) :
  run M (evs1 ++ evs2) g
  = match run M evs1 g with
    | Some g1 => run M evs2 g1
    | None => None
    end.
Proof.
  revert g. induction evs1 as [|ev evs1 IH]; intro g; cbn [run app]; [reflexivity|].
  destruct (apply M ev g) as [g1|]; [apply IH|reflexivity].
Qed.

(** [n] idle frames in a row. *)
Lemma quiet_frames (M : MathEnv) (dt : Q) (n : nat) :
  0 <= dt ->
  forall g,
    quiet g ->
    birdTimer g + ofNat n * dt <= 99999 ->
    exists g',
      run M (repeat (Frame dt) n) g = Some g'
      /\ quiet g'
      /\ birdTimer g' == birdTimer g + ofNat n * dt.
Proof.
  intro Hdt. induction n as [|n IH]; intros g Hq Ht.
  - exists g. split; [reflexivity|]. split; [exact Hq|].
    change (ofNat 0) with 0. ring.
  - assert (Hn : ofNat (S n) == ofNat n + 1).
    { unfold ofNat. rewrite Nat2Z.inj_succ. unfold Z.succ.
      rewrite inject_Z_plus. reflexivity. }
    rewrite Hn in Ht.
    assert (Hpos : 0 <= ofNat n).
    { unfold ofNat. change 0 with (inject_Z 0). rewrite <- Zle_Qle. lia. }
    assert (Hnd : 0 <= ofNat n * dt) by (apply Qmult_le_0_compat; assumption).
    destruct (quiet_frame M dt g Hq) as (g1 & Hu & Hq1 & Ht1); [lra|].
    destruct (IH g1 Hq1) as (g' & Hr & Hq' & Ht').
    { rewrite Ht1. lra. }
    exists g'. cbn [repeat run apply]. rewrite Hu. split; [exact Hr|].
    split; [exact Hq'|]. rewrite Ht', Ht1, Hn. ring.
Qed.

Lemma fresh_quiet : quiet fresh.
Proof.
  unfold quiet.
  split; [reflexivity|]. split; [reflexivity|]. split; [reflexivity|].
  split; [reflexivity|]. split; [reflexivity|]. split; [reflexivity|].
  split; [reflexivity|]. split; vm_compute; discriminate.
Qed.

(** *** The frame in which the timer passes 99999 *)

Lemma phaseSpawn_fires (M : MathEnv) (dt : Q) (g : Game) :
  (metres (heightReached g) < 40)%Z ->
  99999 < birdTimer g + dt ->
  phaseSpawn M dt g
  = set_seed (seed g + 2) (set_birds (birds g ++ [newBird M g]) (set_birdTimer 0 g)).
Proof.
  intros Hh Ht. unfold phaseSpawn. cbv zeta. game_simpl.
  destruct (birdInterval_bands (metres (heightReached g))) as (Hb & _).
  rewrite (Hb Hh). apply Qltb_lt in Ht. rewrite Ht. reflexivity.
Qed.

Lemma birdStep_miss (M : MathEnv) (dt : Q) (b : Bird.t) (g : Game) :
  birdHits (egg g) (flyBird dt b) = false ->
  birdStep M dt b g = (flyBird dt b, g).
Proof. intro Hm. unfold birdStep. cbv zeta. rewrite Hm. reflexivity. Qed.

Lemma birdHits_position (e e' : Egg.t) (b : Bird.t) :
  Egg.x e' = Egg.x e -> Egg.y e' = Egg.y e -> birdHits e' b = birdHits e b.
Proof. intros Hx Hy. unfold birdHits. rewrite Hx, Hy. reflexivity. Qed.

(** The birds a frame ends with are those the bird phase left. *)
Lemma update_birds (M : MathEnv) (dt : Q) (g g' : Game) :
  state g <> gameover ->
  update M dt g = Some g' ->
  birds g'
  = birds (phaseBirds M dt (phaseSpawn M dt
      (phaseTimed dt (platforms g) (phaseMove dt (platforms g) (phasePower dt g))))).
Proof.
  intros Hg Hu.
  destruct (update_tail M dt g g' Hg Hu) as (_ & _ & _ & _ & _ & _ & -> & _).
  unfold prePhases.
  destruct (phaseCamera_fields dt (beforeCamera M dt (platforms g) g))
    as (_ & _ & _ & _ & _ & _ & -> & _).
  unfold beforeCamera. rewrite phaseJumping_keeps_birds.
  generalize (phaseBirds M dt (phaseSpawn M dt
      (phaseTimed dt (platforms g) (phaseMove dt (platforms g) (phasePower dt g))))).
  intro B.
  destruct (phaseDecay_footprint M dt B) as (ps & sd & si & x & t & -> & _).
  match goal with |- context [phaseGrounded dt ?X] =>
    destruct (phaseGrounded_footprint dt X) as (e & st & -> & _)
  end.
  reflexivity.
Qed.

(** The defect in general: in a frame that starts with no bird, below
    the lowest band, with the accumulated timer passing 99999, a bird is
    created; it is there at the end of the frame unless it hits the egg
    or leaves the screen at once. *)
Lemma sentinel_frame (M : MathEnv) (dt : Q) (g g' : Game) :
  state g <> gameover ->
  update M dt g = Some g' ->
  birds g = [] ->
  (metres (heightReached g) < 40)%Z ->
  99999 < birdTimer g + dt ->
  birdHits (egg g) (flyBird dt (newBird M g)) = false ->
  Qltb (-50) (Bird.x (flyBird dt (newBird M g))) = true ->
  birds g' = [flyBird dt (newBird M g)].
Proof.
  intros Hg Hu Hb Hh Ht Hmiss Hin.
  rewrite (update_birds M dt g g' Hg Hu).
  rewrite (phasePower_footprint dt g). unfold phaseMove. game_simpl.
  match goal with |- context [phaseTimed dt ?pl ?X] =>
    destruct (phaseTimed_footprint dt pl X) as (hp & e & st & pl3 & -> & _ & He & _ & _)
  end.
  game_simpl_in He.
  assert (Hex : Egg.x e = Egg.x (egg g) /\ Egg.y e = Egg.y (egg g))
    by (destruct He as [-> | ->]; split; reflexivity).
  destruct Hex as [Hex Hey].
  rewrite phaseSpawn_fires; [|exact Hh|exact Ht]. game_simpl.
  rewrite Hb. cbn [app].
  unfold phaseBirds. game_simpl. cbn [birdLoop].
  unfold newBird in Hmiss, Hin |- *. game_simpl.
  rewrite birdStep_miss.
  - cbn [filter]. rewrite Hin. reflexivity.
  - game_simpl. rewrite (birdHits_position (egg g) e _ Hex Hey). exact Hmiss.
Qed.

(** The bird created for an idle player flies clear of the egg and stays
    on screen. *)
Lemma idle_bird_survives (g : Game) :
  quiet g ->
  let b := flyBird 2.5 (newBird hostHalf g) in
  birdHits (egg g) b = false /\ Qltb (-50) (Bird.x b) = true.
Proof.
  intros (_ & _ & _ & _ & _ & _ & _ & _ & Hex) b. subst b.
  unfold flyBird, newBird.
  cbn [Bird.x Bird.y Bird.speed Bird.frame Bird.set_x Bird.set_frame hostHalf random].
  set (s := 1.5 + 0.5 * 1.2 + Qmin 2 (inject_Z (metres (heightReached g)) * 0.01)).
  assert (Hs : s <= 4.1).
  { subst s. pose proof (Q.le_min_l 2 (inject_Z (metres (heightReached g)) * 0.01)). lra. }
  assert (Hbx : 419 <= W + 30 - s * 2.5) by (unfold W; lra).
  split.
  - unfold birdHits. cbn [Bird.x Bird.y Bird.set_x Bird.set_frame].
    assert (Hfar : Qltb (Qabs (Egg.x (egg g) - (W + 30 - s * 2.5))) (EGG_R + 14) = false).
    { apply Qltb_ge.
      apply Qle_trans with (- (Egg.x (egg g) - (W + 30 - s * 2.5))).
      - unfold EGG_R. lra.
      - rewrite <- Qabs_opp. apply Qle_Qabs. }
    rewrite Hfar. reflexivity.
  - cbn [Bird.x Bird.set_x Bird.set_frame]. apply Qltb_lt. lra.
Qed.

Lemma quiet_column_nonempty (g : Game) : quiet g -> platforms g <> [].
Proof.
  intros (_ & _ & _ & _ & _ & _ & Hys & _) He. rewrite He in Hys.
  cbn [map] in Hys. revert Hys. vm_compute. discriminate.
Qed.

Lemma run_idling (M : MathEnv) (n : nat) :
  run M (idling n) game0 = run M (repeat (Frame 2.5) n) (initGame M game0).
Proof. reflexivity. Qed.

(** C7, reached from the initial game: a player who resets and then
    leaves the egg on the starting platform (one metre up, far below the
    40 m band) for 39999 frames of [dt = 2.5] has met no bird; the next
    such frame creates one. *)
Theorem idle_player_meets_bird :
  returns (run hostHalf (idling longWait) game0) (fun g =>
    state g = idle
    /\ birds g = []
    /\ (metres (heightReached g) < 40)%Z
    /\ returns (update hostHalf 2.5 g) (fun g' => List.length (birds g') = 1%nat)).
Proof.
  rewrite (run_idling hostHalf longWait). fold fresh.
  assert (Hdt : 0 <= 2.5) by discriminate.
  assert (Hn : ofNat longWait * 2.5 == 99997.5) by (vm_compute; reflexivity).
  destruct (quiet_frames hostHalf 2.5 longWait Hdt fresh fresh_quiet)
    as (g & Hrun & Hq & Ht).
  { rewrite Hn. vm_compute. discriminate. }
  rewrite Hrun. cbn [returns].
  pose proof Hq as (Hs & _ & Hb & _ & _ & _ & _ & Hhr & _).
  split; [exact Hs|]. split; [exact Hb|].
  split; [apply metres_low; exact Hhr|].
  destruct (update_returns hostHalf 2.5 g (quiet_column_nonempty g Hq)) as (g' & Hu).
  rewrite Hu. cbn [returns].
  destruct (idle_bird_survives g Hq) as [Hmiss Hin].
  rewrite (sentinel_frame hostHalf 2.5 g g'); try assumption.
  - reflexivity.
  - rewrite Hs. discriminate.
  - apply metres_low. exact Hhr.
  - rewrite Ht, Hn. change (birdTimer fresh) with 0. vm_compute. reflexivity.
Qed.

(** * Further properties *)

(** ** The evolution table *)

Lemma getStage_cases (j : Z) :
  ((j < 15)%Z /\ getStage j = 0%nat)
  \/ ((15 <= j < 40)%Z /\ getStage j = 1%nat)
  \/ ((40 <= j < 75)%Z /\ getStage j = 2%nat)
  \/ ((75 <= j < 120)%Z /\ getStage j = 3%nat)
  \/ ((120 <= j < 180)%Z /\ getStage j = 4%nat)
  \/ ((180 <= j < 260)%Z /\ getStage j = 5%nat)
  \/ ((260 <= j)%Z /\ getStage j = 6%nat).
Proof.
  unfold getStage. cbn [List.length STAGES Nat.sub getStageFrom].
  change (needAt 6) with 260%Z. change (needAt 5) with 180%Z.
  change (needAt 4) with 120%Z. change (needAt 3) with 75%Z.
  change (needAt 2) with 40%Z. change (needAt 1) with 15%Z.
  change (needAt 0) with 0%Z.
  destruct (Z.leb_spec 260 j); [do 6 right; split; [lia|reflexivity]|].
  destruct (Z.leb_spec 180 j); [do 5 right; left; split; [lia|reflexivity]|].
  destruct (Z.leb_spec 120 j); [do 4 right; left; split; [lia|reflexivity]|].
  destruct (Z.leb_spec 75 j); [do 3 right; left; split; [lia|reflexivity]|].
  destruct (Z.leb_spec 40 j); [do 2 right; left; split; [lia|reflexivity]|].
  destruct (Z.leb_spec 15 j); [right; left; split; [lia|reflexivity]|].
  left. split; [lia|]. destruct (0 <=? j)%Z; reflexivity.
Qed.

Lemma needAt_values :
  needAt 0 = 0%Z /\ needAt 1 = 15%Z /\ needAt 2 = 40%Z /\ needAt 3 = 75%Z
  /\ needAt 4 = 120%Z /\ needAt 5 = 180%Z /\ needAt 6 = 260%Z.
Proof. repeat split; reflexivity. Qed.

(** X1: [getStage] answers a row of the table, and it is the highest row
    whose threshold the value has reached: that row's threshold is at
    most the value (for a value that is not negative), and no row above
    it has a threshold at most the value.  A negative value gives row 0. *)
Theorem getStage_is_highest_reached_tier (j : Z) :
  (getStage j <= 6)%nat
  /\ ((0 <= j)%Z -> (needAt (getStage j) <= j)%Z)
  /\ (forall i, (getStage j < i <= 6)%nat -> (j < needAt i)%Z)
  /\ ((j < 0)%Z -> getStage j = 0%nat).
Proof.
  destruct needAt_values as (N0 & N1 & N2 & N3 & N4 & N5 & N6).
  assert (Hi : forall i, (i <= 6)%nat ->
            i = 0%nat \/ i = 1%nat \/ i = 2%nat \/ i = 3%nat \/ i = 4%nat
            \/ i = 5%nat \/ i = 6%nat) by (intros; lia).
  destruct (getStage_cases j) as [[Hj ->]|[[Hj ->]|[[Hj ->]|[[Hj ->]|[[Hj ->]|[[Hj ->]|[Hj ->]]]]]]];
    (split; [lia|]); (split; [intro; lia|]);
    (split; [intros i Hr; destruct (Hi i ltac:(lia)) as [->|[->|[->|[->|[->|[->| ->]]]]]]; lia
            | intro; first [reflexivity | lia]]).
Qed.

Lemma getStage_is_highest_reached_tier_witness : (needAt (getStage 50) <= 50)%Z.
Proof. apply (proj1 (proj2 (getStage_is_highest_reached_tier 50))). lia. Defined.

(** X2: a larger value never gives a lower tier. *)
Theorem getStage_monotone (j1 j2 : Z) :
  (j1 <= j2)%Z -> (getStage j1 <= getStage j2)%nat.
Proof.
  intro Hle.
  destruct (getStage_cases j1) as [[H1 ->]|[[H1 ->]|[[H1 ->]|[[H1 ->]|[[H1 ->]|[[H1 ->]|[H1 ->]]]]]]];
    destruct (getStage_cases j2) as [[H2 ->]|[[H2 ->]|[[H2 ->]|[[H2 ->]|[[H2 ->]|[[H2 ->]|[H2 ->]]]]]]];
    lia.
Qed.

Lemma getStage_monotone_witness : (getStage 39 <= getStage 40)%nat.
Proof. apply (getStage_monotone 39 40). lia. Defined.

(** ** The experience bar *)

Lemma ratio_bounds (a d : Q) :
  0 < d -> 0 <= a -> a < d -> 0 <= a / d * 100 /\ a / d * 100 < 100.
Proof.
  intros Hd Ha Had.
  assert (H0 : 0 <= a / d).
  { apply Qle_shift_div_l; [exact Hd|]. lra. }
  assert (H1 : a / d < 1).
  { apply Qlt_shift_div_r; [exact Hd|]. lra. }
  split; lra.
Qed.

Lemma floor_bounds (x : Q) (lo hi : Z) :
  (lo <= Qfloor x < hi)%Z -> inject_Z lo <= x /\ x < inject_Z hi.
Proof.
  intros [Hlo Hhi]. split.
  - apply Qle_trans with (inject_Z (Qfloor x)); [|apply Qfloor_le].
    rewrite <- Zle_Qle. exact Hlo.
  - apply Qlt_le_trans with (inject_Z (Qfloor x + 1)); [apply Qlt_floor|].
    rewrite <- Zle_Qle. lia.
Qed.

(** X3: when the header's tier is the tier of its experience value (and
    the value is not negative), the experience bar is a width between 0
    and 100 percent: below 100 in every tier but the last, and exactly
    100 in the last tier. *)
Theorem xpProgress_is_a_percentage (x : Q) :
  0 <= x ->
  exists p,
    xpProgress (getStage (Qfloor x)) x = Some p
    /\ 0 <= p /\ p <= 100
    /\ ((getStage (Qfloor x) < 6)%nat -> p < 100)
    /\ (getStage (Qfloor x) = 6%nat -> p = 100).
Proof.
  intro Hx.
  assert (Hf : (0 <= Qfloor x)%Z).
  { change 0%Z with (Qfloor 0). apply Qfloor_resp_le. exact Hx. }
  assert (Hmid : forall a d, 0 < d -> 0 <= a -> a < d ->
            exists p, Some (Qmin 100 (a / d * 100)) = Some p
                      /\ 0 <= p /\ p <= 100 /\ p < 100).
  { intros a d Hd Ha Had. destruct (ratio_bounds a d Hd Ha Had) as [R0 R1].
    exists (Qmin 100 (a / d * 100)). split; [reflexivity|].
    split; [apply Q.min_glb; lra|].
    split; [apply Q.le_min_l|].
    apply Qle_lt_trans with (a / d * 100); [apply Q.le_min_r|exact R1]. }
  destruct (getStage_cases (Qfloor x))
    as [[Hj ->]|[[Hj ->]|[[Hj ->]|[[Hj ->]|[[Hj ->]|[[Hj ->]|[Hj ->]]]]]]].
  7: { exists 100. split; [reflexivity|]. split; [lra|]. split; [lra|].
       split; [intro; lia|reflexivity]. }
  all: unfold xpProgress; cbn [stageAt nth_error STAGES List.length Nat.sub Nat.ltb Nat.leb need];
       cbv zeta.
  - destruct (floor_bounds x 0 15 ltac:(lia)) as [B0 B1].
    destruct (Hmid (x - inject_Z 0) (inject_Z 15 - inject_Z 0))
      as (p & Hp & P0 & P1 & P2); try (unfold inject_Z in *; lra).
    exists p. split; [exact Hp|]. split; [exact P0|]. split; [exact P1|].
    split; [intros _; exact P2|intro; lia].
  - destruct (floor_bounds x 15 40 ltac:(lia)) as [B0 B1].
    destruct (Hmid (x - inject_Z 15) (inject_Z 40 - inject_Z 15))
      as (p & Hp & P0 & P1 & P2); try (unfold inject_Z in *; lra).
    exists p. split; [exact Hp|]. split; [exact P0|]. split; [exact P1|].
    split; [intros _; exact P2|intro; lia].
  - destruct (floor_bounds x 40 75 ltac:(lia)) as [B0 B1].
    destruct (Hmid (x - inject_Z 40) (inject_Z 75 - inject_Z 40))
      as (p & Hp & P0 & P1 & P2); try (unfold inject_Z in *; lra).
    exists p. split; [exact Hp|]. split; [exact P0|]. split; [exact P1|].
    split; [intros _; exact P2|intro; lia].
  - destruct (floor_bounds x 75 120 ltac:(lia)) as [B0 B1].
    destruct (Hmid (x - inject_Z 75) (inject_Z 120 - inject_Z 75))
      as (p & Hp & P0 & P1 & P2); try (unfold inject_Z in *; lra).
    exists p. split; [exact Hp|]. split; [exact P0|]. split; [exact P1|].
    split; [intros _; exact P2|intro; lia].
  - destruct (floor_bounds x 120 180 ltac:(lia)) as [B0 B1].
    destruct (Hmid (x - inject_Z 120) (inject_Z 180 - inject_Z 120))
      as (p & Hp & P0 & P1 & P2); try (unfold inject_Z in *; lra).
    exists p. split; [exact Hp|]. split; [exact P0|]. split; [exact P1|].
    split; [intros _; exact P2|intro; lia].
  - destruct (floor_bounds x 180 260 ltac:(lia)) as [B0 B1].
    destruct (Hmid (x - inject_Z 180) (inject_Z 260 - inject_Z 180))
      as (p & Hp & P0 & P1 & P2); try (unfold inject_Z in *; lra).
    exists p. split; [exact Hp|]. split; [exact P0|]. split; [exact P1|].
    split; [intros _; exact P2|intro; lia].
Qed.

Lemma xpProgress_is_a_percentage_witness :
  exists p, xpProgress (getStage (Qfloor 20)) 20 = Some p /\ 0 <= p /\ p <= 100.
Proof.
  destruct (xpProgress_is_a_percentage 20 ltac:(discriminate)) as (p & Hp & P0 & P1 & _).
  exists p. split; [exact Hp|]. split; [exact P0|exact P1].
Defined.

(** ** The platform generator *)

Lemma metres_nonneg (y : Q) : 0 <= inject_Z (metres y).
Proof.
  unfold metres. change 0 with (inject_Z 0). rewrite <- Zle_Qle. apply Z.le_max_l.
Qed.

Lemma unit_scale (r v : Q) : 0 <= r -> r <= 1 -> 0 <= v -> 0 <= r * v /\ r * v <= v.
Proof. intros H0 H1 Hv. split; nra. Qed.

(** The width drawn for a platform at height [hm] (in metres). *)
Lemma width_bounds (hm r : Q) :
  0 <= hm -> 0 <= r -> r <= 1 ->
  50 <= Qmax 50 (130 - hm * 0.35) + r * Qmax 10 (25 - hm * 0.08)
  /\ Qmax 50 (130 - hm * 0.35) + r * Qmax 10 (25 - hm * 0.08) <= 155.
Proof.
  intros Hh H0 H1.
  assert (B1 : 50 <= Qmax 50 (130 - hm * 0.35)) by apply Q.le_max_l.
  assert (B2 : Qmax 50 (130 - hm * 0.35) <= 130) by (apply Q.max_lub; lra).
  assert (V1 : 10 <= Qmax 10 (25 - hm * 0.08)) by apply Q.le_max_l.
  assert (V2 : Qmax 10 (25 - hm * 0.08) <= 25) by (apply Q.max_lub; lra).
  revert B1 B2 V1 V2.
  generalize (Qmax 50 (130 - hm * 0.35)) as wb.
  generalize (Qmax 10 (25 - hm * 0.08)) as wv.
  intros wv wb B1 B2 V1 V2. split; nra.
Qed.

Lemma createPlatform_fields (M : MathEnv) (y : Q) (index n : nat) :
  exists ty k,
    let w := Qmax 50 (130 - inject_Z (metres y) * 0.35)
             + random M n * Qmax 10 (25 - inject_Z (metres y) * 0.08) in
    fst (createPlatform M y index n)
    = Platform.mk (30 + random M k * (W - 60 - w)) y w 11
        (Platform.speed (fst (createPlatform M y index n)))
        (match ty with
         | timed => 0
         | fragile => 270
         | normal => ofNat ((index * 37) mod 360)
         end)
        ty (match ty with timed => 300 | _ => 0 end) false false
    /\ ((metres y < 15)%Z -> ty = normal)
    /\ ((15 <= metres y)%Z -> 0.33 <= random M (n + 3) -> ty = normal).
Proof.
  unfold createPlatform. cbv zeta.
  destruct (Z.leb_spec 15 (metres y)) as [Hm|Hm].
  - assert (Hh : 15 <= inject_Z (metres y)).
    { change 15 with (inject_Z 15). rewrite <- Zle_Qle. exact Hm. }
    assert (T0 : 0 <= Qmin 0.18 ((inject_Z (metres y) - 15) * 0.003))
      by (apply Q.min_glb; lra).
    assert (T1 : Qmin 0.18 ((inject_Z (metres y) - 15) * 0.003) <= 0.18)
      by apply Q.le_min_l.
    assert (F1 : Qmin 0.15 ((inject_Z (metres y) - 15) * 0.002) <= 0.15)
      by apply Q.le_min_l.
    destruct (Qltb (random M (n + 3)) (Qmin 0.18 _)) eqn:E1;
      [|destruct (Qltb (random M (n + 3)) (Qmin 0.18 _ + Qmin 0.15 _)) eqn:E2].
    + exists timed, (n + 4)%nat. cbn [fst Platform.speed].
      split; [reflexivity|]. split; [intro; lia|].
      intros _ Hr. apply Qltb_lt in E1. exfalso. lra.
    + exists fragile, (n + 4)%nat. cbn [fst Platform.speed].
      split; [reflexivity|]. split; [intro; lia|].
      intros _ Hr. apply Qltb_lt in E2. exfalso. lra.
    + exists normal, (n + 4)%nat. cbn [fst Platform.speed].
      split; [reflexivity|]. split; [intro; reflexivity|].
      intros; reflexivity.
  - exists normal, (n + 3)%nat. cbn [fst Platform.speed].
    split; [reflexivity|]. split; [intro; reflexivity|].
    intros; lia.
Qed.

Lemma createPlatform_y (M : MathEnv) (y : Q) (index n : nat) :
  Platform.y (fst (createPlatform M y index n)) = y.
Proof.
  destruct (createPlatform_fields M y index n) as (ty & k & Hp & _).
  cbv zeta in Hp. rewrite Hp. reflexivity.
Qed.

(** X4: with a host whose [Math.random] answers between 0 and 1 (both
    included), every generated platform sits at the height asked for, is
    11 thick and from 50 to 155 wide, lies between the 30-pixel side
    margins of the field (its left edge at 30 or more, its right edge at
    [W - 30] or less), and starts neither landed-on nor removed. *)
Theorem createPlatform_inside_field (M : MathEnv) (y : Q) (index n : nat) :
  closedRandom M ->
  let p := fst (createPlatform M y index n) in
  Platform.y p = y
  /\ Platform.h p = 11
  /\ 50 <= Platform.w p /\ Platform.w p <= 155
  /\ 30 <= Platform.x p /\ Platform.x p + Platform.w p <= W - 30
  /\ Platform.landed p = false
  /\ Platform.removing p = false.
Proof.
  intros HM p. subst p.
  destruct (createPlatform_fields M y index n) as (ty & k & Hp & _).
  cbv zeta in Hp. rewrite Hp.
  cbn [Platform.y Platform.h Platform.w Platform.x Platform.landed Platform.removing].
  destruct (HM n) as [R0 R1]. destruct (HM k) as [K0 K1].
  destruct (width_bounds (inject_Z (metres y)) (random M n) (metres_nonneg y) R0 R1)
    as [W0 W1].
  revert W0 W1.
  generalize (Qmax 50 (130 - inject_Z (metres y) * 0.35)
              + random M n * Qmax 10 (25 - inject_Z (metres y) * 0.08)) as w.
  intros w W0 W1. unfold W.
  split; [reflexivity|]. split; [reflexivity|].
  split; [exact W0|]. split; [exact W1|].
  split; [nra|]. split; [nra|]. split; reflexivity.
Qed.

Lemma hostHalf_unit : unitRandom hostHalf.
Proof. intro n. split; discriminate || reflexivity. Qed.

Lemma hostHalf_closed : closedRandom hostHalf.
Proof. intro n. split; discriminate. Qed.

(** In the middle and at the upper end of the random source's range. *)
Lemma createPlatform_inside_field_witness :
  (let p := fst (createPlatform hostHalf 460 1 0) in
   30 <= Platform.x p /\ Platform.x p + Platform.w p <= W - 30)
  /\ (let p := fst (createPlatform hostOne 460 1 0) in
      Platform.w p <= 155 /\ Platform.x p + Platform.w p <= W - 30).
Proof.
  split.
  - destruct (createPlatform_inside_field hostHalf 460 1 0 hostHalf_closed)
      as (_ & _ & _ & _ & Hx & Hr & _).
    split; [exact Hx|exact Hr].
  - assert (Hone : closedRandom hostOne) by (intro n; split; discriminate).
    destruct (createPlatform_inside_field hostOne 460 1 0 Hone)
      as (_ & _ & _ & Hw & _ & Hr & _).
    split; [exact Hw|exact Hr].
Defined.

(** X5: hazards are gated by height and by the roll.  Below 15 metres
    every platform is [normal]; from 15 metres on, a roll of 0.33 or more
    gives [normal] as well.  A platform's countdown starts at 300 exactly
    when it is [timed], and is 0 otherwise. *)
Theorem createPlatform_hazard_gating (M : MathEnv) (y : Q) (index n : nat) :
  let p := fst (createPlatform M y index n) in
  ((metres y < 15)%Z -> Platform.type p = normal)
  /\ ((15 <= metres y)%Z -> 0.33 <= random M (n + 3) -> Platform.type p = normal)
  /\ (Platform.type p = timed -> Platform.timer p = 300)
  /\ (Platform.type p <> timed -> Platform.timer p = 0).
Proof.
  intro p. subst p.
  destruct (createPlatform_fields M y index n) as (ty & k & Hp & Hlow & Hroll).
  cbv zeta in Hp. rewrite Hp. cbn [Platform.type Platform.timer].
  split; [exact Hlow|]. split; [exact Hroll|].
  split; [intros ->; reflexivity|].
  intro Hne. destruct ty; [reflexivity|contradiction|reflexivity].
Qed.

Lemma createPlatform_hazard_gating_witness :
  Platform.type (fst (createPlatform hostHalf 460 1 0)) = normal
  /\ Platform.type (fst (createPlatform hostHalf (-1000) 1 0)) = normal.
Proof.
  split.
  - apply (proj1 (createPlatform_hazard_gating hostHalf 460 1 0)). reflexivity.
  - apply (proj1 (proj2 (createPlatform_hazard_gating hostHalf (-1000) 1 0)));
      [vm_compute; discriminate | vm_compute; discriminate].
Defined.

Lemma product_bounds (a b c : Q) :
  0.6 <= a -> a <= 1.8 -> 0.6 <= b -> b <= 1 -> 0.8 <= c -> c < 1.2 ->
  0.288 <= a * b * c /\ a * b * c < 2.16.
Proof.
  intros A0 A1 B0 B1 C0 C1.
  assert (P0 : 0.36 <= a * b) by nra.
  assert (P1 : a * b <= 1.8) by nra.
  revert P0 P1. generalize (a * b) as ab. intros ab P0 P1. split; nra.
Qed.

(** X6: with such a host every generated platform moves: its speed is
    never 0, and its magnitude lies between 0.288 and 2.16 pixels per
    time unit. *)
Theorem createPlatform_always_moves (M : MathEnv) (y : Q) (index n : nat) :
  unitRandom M ->
  let s := Platform.speed (fst (createPlatform M y index n)) in
  0.288 <= Qabs s /\ Qabs s < 2.16 /\ ~ s == 0.
Proof.
  intros HM s.
  assert (Hs : exists a b c sg,
            s = a * b * c * sg
            /\ 0.6 <= a /\ a <= 1.8 /\ 0.6 <= b /\ b <= 1 /\ 0.8 <= c /\ c < 1.2
            /\ (sg = 1 \/ sg = -1)).
  { subst s. unfold createPlatform. cbv zeta.
    destruct (HM (n + 1)%nat) as [J0 J1].
    exists (0.6 + Qmin 1.2 (inject_Z (metres y) * 0.008)),
      (if Nat.eqb (index mod 2) 0 then 0.6 else 1.0),
      (0.8 + random M (n + 1) * 0.4),
      (if Qltb 0.5 (random M (n + 2)) then 1 else -1).
    split.
    { destruct (15 <=? metres y)%Z; reflexivity. }
    pose proof (metres_nonneg y) as Hh.
    assert (Q0 : 0 <= Qmin 1.2 (inject_Z (metres y) * 0.008)) by (apply Q.min_glb; lra).
    assert (Q1 : Qmin 1.2 (inject_Z (metres y) * 0.008) <= 1.2) by apply Q.le_min_l.
    split; [lra|]. split; [lra|].
    split; [destruct (Nat.eqb _ 0); lra|]. split; [destruct (Nat.eqb _ 0); lra|].
    split; [lra|]. split; [lra|].
    destruct (Qltb 0.5 _); [left|right]; reflexivity. }
  destruct Hs as (a & b & c & sg & Hs & A0 & A1 & B0 & B1 & C0 & C1 & Hsg).
  clearbody s. subst s.
  destruct (product_bounds a b c A0 A1 B0 B1 C0 C1) as [P0 P1].
  revert P0 P1. generalize (a * b * c) as t. intros t P0 P1.
  assert (Habs : Qabs (t * sg) == t).
  { destruct Hsg as [->| ->].
    - rewrite Qmult_1_r. apply Qabs_pos. lra.
    - assert (E : t * -1 == - t) by ring. rewrite E, Qabs_opp. apply Qabs_pos. lra. }
  rewrite Habs. split; [exact P0|]. split; [exact P1|].
  intro Hz. rewrite Hz in Habs. change (Qabs 0) with 0 in Habs. lra.
Qed.

Lemma createPlatform_always_moves_witness :
  ~ Platform.speed (fst (createPlatform hostHalf 460 1 0)) == 0.
Proof.
  exact (proj2 (proj2 (createPlatform_always_moves hostHalf 460 1 0 hostHalf_unit))).
Defined.

(** ** Reset *)

Lemma initLoop_heap (M : MathEnv) (l : list nat) :
  forall ps hp nr sd,
    exists hp' sd',
      fold_left (fun acc i => initPlatform M (S i) acc) l (ps, hp, nr, sd)
      = (ps ++ seq nr (List.length l), hp', (nr + List.length l)%nat, sd')
      /\ (forall r, (r < nr)%nat -> hp' r = hp r)
      /\ (forall j, (j < List.length l)%nat ->
            exists n,
              hp' (nr + j)%nat
              = fst (createPlatform M (540 - ofNat (S (nth j l O)) * PLATFORM_GAP)
                       (S (nth j l O)) n)).
Proof.
  induction l as [|i l IH]; intros ps hp nr sd; cbn [fold_left List.length].
  - exists hp, sd. cbn [seq]. rewrite app_nil_r, Nat.add_0_r.
    split; [reflexivity|]. split; [reflexivity|]. intros j Hj. lia.
  - unfold initPlatform at 2.
    destruct (createPlatform M (540 - ofNat (S i) * PLATFORM_GAP) (S i) sd) as [p sd1] eqn:Ep.
    destruct (IH (ps ++ [nr]) (store nr p hp) (S nr) sd1) as (hp' & sd' & IHeq & Hold & Hnew).
    exists hp', sd'. rewrite IHeq. split; [|split].
    + cbn [seq]. rewrite <- app_assoc. cbn [app]. rewrite Nat.add_succ_r. reflexivity.
    + intros r Hr. rewrite Hold by lia. apply store_other. lia.
    + intros j Hj. destruct j as [|j].
      * exists sd. rewrite Nat.add_0_r, Hold by lia. rewrite store_same.
        cbn [nth]. rewrite Ep. reflexivity.
      * destruct (Hnew j ltac:(lia)) as (n & Hn). exists n.
        rewrite Nat.add_succ_r. cbn [nth]. exact Hn.
Qed.

Lemma initGame_heap (M : MathEnv) (g : Game) :
  heap (initGame M g) (nextRef g) = startPlatform
  /\ (forall i, (1 <= i <= 25)%nat ->
        exists n,
          heap (initGame M g) (nextRef g + i)%nat
          = fst (createPlatform M (540 - ofNat i * PLATFORM_GAP) i n))
  /\ (forall r, (r < nextRef g)%nat -> heap (initGame M g) r = heap g r).
Proof.
  unfold initGame, forUpTo. cbv beta.
  destruct (initLoop_heap M (seq 0 25) [nextRef g]
              (store (nextRef g) startPlatform (heap g)) (S (nextRef g)) (seed g))
    as (hp' & sd' & Heq & Hold & Hnew).
  rewrite Heq. cbn [heap]. split; [|split].
  - rewrite Hold by lia. apply store_same.
  - intros i Hi. destruct i as [|i]; [lia|].
    destruct (Hnew i) as (n & Hn); [rewrite length_seq; lia|].
    rewrite seq_nth in Hn by lia. cbn [Nat.add] in Hn.
    exists n. rewrite Nat.add_succ_r. exact Hn.
  - intros r Hr. rewrite Hold by lia. apply store_other. lia.
Qed.

Lemma initGame_fields (M : MathEnv) (g : Game) :
  state (initGame M g) = idle
  /\ egg (initGame M g) = Egg.mk (W / 2) (540 - EGG_R) 0 0 (Some (nextRef g))
  /\ camera (initGame M g) = Camera.mk 0
  /\ power (initGame M g) = Power.mk 50 1 1.6
  /\ score (initGame M g) = 0%Z
  /\ highScore (initGame M g) = highScore g
  /\ xp (initGame M g) = 0
  /\ stageIdx (initGame M g) = O
  /\ particles (initGame M g) = []
  /\ birds (initGame M g) = []
  /\ heightReached (initGame M g) = 540
  /\ highestPlatformY (initGame M g) = 540.
Proof.
  unfold initGame. destruct (forUpTo 25 _ _) as [[[ps hp] nr] sd].
  repeat (split; [reflexivity|]). reflexivity.
Qed.



(** ** Charging and releasing *)

Lemma ofNat_nonneg (n : nat) : 0 <= ofNat n.
Proof. unfold ofNat. change 0 with (inject_Z 0). rewrite <- Zle_Qle. lia. Qed.

Lemma startCharging_idle (g : Game) :
  state g = idle ->
  startCharging g
  = set_state charging (set_power (Power.mk 0 1 (Power.speed (power g))) g).
Proof. intro Hs. unfold startCharging. rewrite Hs. reflexivity. Qed.

Lemma tap_egg_state (M : MathEnv) (g : Game) :
  state g = idle ->
  state (releaseJump M (startCharging g)) = jumping
  /\ Egg.vy (egg (releaseJump M (startCharging g)))
     = - (MAX_JUMP_VEL * Qmax 0.15 (0 / 100) * (1 + ofNat (stageIdx g) * 0.12))
  /\ Egg.onPlatform (egg (releaseJump M (startCharging g))) = None
  /\ xp (releaseJump M (startCharging g)) = xp g.
Proof.
  intro Hs. rewrite (startCharging_idle g Hs).
  generalize (Power.speed (power g)). intro sp.
  assert (Hc : state (set_state charging (set_power (Power.mk 0 1 sp) g)) = charging)
    by reflexivity.
  destruct (releaseJump_egg_state M _ Hc) as [He Hst].
  split; [exact Hst|]. rewrite He. cbn [Egg.vy Egg.onPlatform].
  split; [reflexivity|]. split; [reflexivity|].
  destruct (releaseJump_footprint M _ Hc) as (ps & sd & fx & pf & e & pl & hp & -> & _).
  reflexivity.
Qed.

(** X8: a tap (begin-charge at rest immediately followed by release)
    empties the bar and still jumps, at the floor of 15 percent of the
    full launch speed, scaled by the tier bonus; it earns no experience. *)
Theorem tap_gives_the_floor_jump (M : MathEnv) (g : Game) :
  state g = idle ->
  let c := startCharging g in
  state c = charging
  /\ Power.value (power c) = 0 /\ Power.dir (power c) = 1
  /\ egg c = egg g
  /\ state (releaseJump M c) = jumping
  /\ - Egg.vy (egg (releaseJump M c))
     == MAX_JUMP_VEL * 0.15 * (1 + ofNat (stageIdx g) * 0.12)
  /\ xp (releaseJump M c) = xp g.
Proof.
  intros Hs c. subst c.
  destruct (tap_egg_state M g Hs) as (Hst & Hv & _ & Hx).
  rewrite Hst, Hv, Hx. rewrite (startCharging_idle g Hs).
  split; [reflexivity|]. split; [reflexivity|]. split; [reflexivity|].
  split; [reflexivity|]. split; [reflexivity|]. split; [|reflexivity].
  rewrite Qopp_involutive.
  assert (Hm : Qmax 0.15 (0 / 100) == 0.15) by reflexivity.
  rewrite Hm. reflexivity.
Qed.

Lemma tap_gives_the_floor_jump_witness :
  - Egg.vy (egg (releaseJump hostHalf (startCharging fresh)))
  == MAX_JUMP_VEL * 0.15 * (1 + ofNat (stageIdx fresh) * 0.12).
Proof.
  destruct (tap_gives_the_floor_jump hostHalf fresh eq_refl)
    as (_ & _ & _ & _ & _ & Hv & _).
  exact Hv.
Defined.

Lemma launch_speed_bounds (v : Q) (s : nat) :
  0 <= v -> v <= 100 -> (s <= 6)%nat ->
  MAX_JUMP_VEL * 0.15 <= MAX_JUMP_VEL * Qmax 0.15 (v / 100) * (1 + ofNat s * 0.12)
  /\ MAX_JUMP_VEL * Qmax 0.15 (v / 100) * (1 + ofNat s * 0.12) <= MAX_JUMP_VEL * 1.72.
Proof.
  intros V0 V1 Hs.
  assert (M0 : 0.15 <= Qmax 0.15 (v / 100)) by apply Q.le_max_l.
  assert (M1 : Qmax 0.15 (v / 100) <= 1).
  { apply Q.max_lub; [discriminate|]. apply Qle_shift_div_r; [reflexivity|]. lra. }
  assert (B0 : 0 <= ofNat s) by apply ofNat_nonneg.
  assert (B1 : ofNat s <= 6).
  { unfold ofNat. change 6 with (inject_Z 6). rewrite <- Zle_Qle. lia. }
  revert M0 M1 B0 B1. generalize (Qmax 0.15 (v / 100)) as m. generalize (ofNat s) as b.
  intros b m M0 M1 B0 B1. unfold MAX_JUMP_VEL. split; nra.
Qed.

(** X9: a release always sends the egg upwards.  With the bar between 0
    and 100 and a tier of the table, the launch speed lies between 15
    percent of [MAX_JUMP_VEL] and 1.72 times [MAX_JUMP_VEL]. *)
Theorem release_launches_upwards (M : MathEnv) (g : Game) :
  state g = charging ->
  0 <= Power.value (power g) -> Power.value (power g) <= 100 ->
  (stageIdx g <= 6)%nat ->
  let vy := Egg.vy (egg (releaseJump M g)) in
  vy < 0 /\ MAX_JUMP_VEL * 0.15 <= - vy /\ - vy <= MAX_JUMP_VEL * 1.72.
Proof.
  intros Hs V0 V1 Hst vy. subst vy.
  destruct (releaseJump_egg_state M g Hs) as [He _]. rewrite He. cbn [Egg.vy].
  destruct (launch_speed_bounds _ _ V0 V1 Hst) as [L0 L1].
  revert L0 L1.
  generalize (MAX_JUMP_VEL * Qmax 0.15 (Power.value (power g) / 100)
              * (1 + ofNat (stageIdx g) * 0.12)) as v.
  intros v L0 L1. unfold MAX_JUMP_VEL in *.
  rewrite Qopp_involutive. split; [|split]; lra.
Qed.

Lemma release_launches_upwards_witness :
  Egg.vy (egg (releaseJump hostHalf fullCharge)) < 0.
Proof.
  refine (proj1 (release_launches_upwards hostHalf fullCharge eq_refl _ _ _)).
  - discriminate.
  - discriminate.
  - apply Nat.le_0_l.
Defined.

(** X10: the launch speed grows with the charge and with the tier: of
    two charging games, the one with at least as much power and at least
    as high a tier is launched at least as fast. *)
Theorem stronger_charge_jumps_higher (M : MathEnv) (g1 g2 : Game) :
  state g1 = charging -> state g2 = charging ->
  Power.value (power g1) <= Power.value (power g2) ->
  (stageIdx g1 <= stageIdx g2)%nat ->
  - Egg.vy (egg (releaseJump M g1)) <= - Egg.vy (egg (releaseJump M g2)).
Proof.
  intros Hs1 Hs2 Hv Hst.
  destruct (releaseJump_egg_state M g1 Hs1) as [He1 _].
  destruct (releaseJump_egg_state M g2 Hs2) as [He2 _].
  rewrite He1, He2. cbn [Egg.vy]. rewrite !Qopp_involutive.
  assert (M0 : 0.15 <= Qmax 0.15 (Power.value (power g1) / 100)) by apply Q.le_max_l.
  assert (M1 : Qmax 0.15 (Power.value (power g1) / 100)
               <= Qmax 0.15 (Power.value (power g2) / 100)).
  { apply Q.max_le_compat_l. apply Qmult_le_compat_r; [exact Hv|discriminate]. }
  assert (B0 : 0 <= ofNat (stageIdx g1)) by apply ofNat_nonneg.
  assert (B1 : ofNat (stageIdx g1) <= ofNat (stageIdx g2)).
  { unfold ofNat. rewrite <- Zle_Qle. lia. }
  revert M0 M1 B0 B1.
  generalize (Qmax 0.15 (Power.value (power g1) / 100)) as m1.
  generalize (Qmax 0.15 (Power.value (power g2) / 100)) as m2.
  generalize (ofNat (stageIdx g1)) as b1. generalize (ofNat (stageIdx g2)) as b2.
  intros b2 b1 m2 m1 M0 M1 B0 B1. unfold MAX_JUMP_VEL. nra.
Qed.

Lemma stronger_charge_jumps_higher_witness :
  - Egg.vy (egg (releaseJump hostHalf (startCharging fresh)))
  <= - Egg.vy (egg (releaseJump hostHalf fullCharge)).
Proof.
  apply (stronger_charge_jumps_higher hostHalf (startCharging fresh) fullCharge).
  - reflexivity.
  - reflexivity.
  - discriminate.
  - apply Nat.le_refl.
Defined.

(** *** Particles of a release *)

Lemma emits_pushParticle (M : MathEnv) (k : nat) lit : emits 1 (pushParticle M k lit).
Proof. intro g. eexists _, _. split; reflexivity. Qed.

Lemma emits_fold (body : nat -> Game -> Game) (l : list nat) :
  (forall i, emits 1 (body i)) ->
  forall g, exists ps sd,
    fold_left (fun acc i => body i acc) l g
    = set_seed sd (set_particles (particles g ++ ps) g)
    /\ List.length ps = List.length l.
Proof.
  intros Hb. induction l as [|i l IH]; intro g; cbn [fold_left List.length].
  - exists [], (seed g). rewrite app_nil_r. split; [destruct g; reflexivity|reflexivity].
  - destruct (Hb i g) as (ps & sd & -> & Hl).
    destruct (IH (set_seed sd (set_particles (particles g ++ ps) g)))
      as (ps' & sd' & -> & Hl').
    exists (ps ++ ps'), sd'. game_simpl. rewrite <- app_assoc.
    split; [reflexivity|]. rewrite length_app. lia.
Qed.

Lemma emits_forUpTo (n : nat) (body : nat -> Game -> Game) :
  (forall i, emits 1 (body i)) -> emits n (forUpTo n body).
Proof.
  intros Hb g. unfold forUpTo.
  destruct (emits_fold body (seq 0 n) Hb g) as (ps & sd & -> & Hl).
  exists ps, sd. split; [reflexivity|]. rewrite Hl. apply length_seq.
Qed.

Lemma emits_perfectBurst (M : MathEnv) (i : nat) : emits 1 (perfectBurst M i).
Proof. intro g. eexists _, _. split; reflexivity. Qed.

Lemma emits_sparkleRing (M : MathEnv) (i : nat) : emits 1 (sparkleRing M i).
Proof. intro g. eexists _, _. split; reflexivity. Qed.

Lemma emits_launchDust (M : MathEnv) (i : nat) : emits 1 (launchDust M i).
Proof. intro g. eexists _, _. split; reflexivity. Qed.

Lemma celebrate_cases (M : MathEnv) (g : Game) :
  exists ps sd,
    celebrate M g
    = (if Qleb 99 (Power.value (power g))
       then
         set_seed sd (set_particles (particles g ++ ps)
           (set_landingFx
              (Some (LandingFx.mk (Egg.y (egg g)) (Egg.x (egg g)) 40
                       "✨ PERFECT! +5 XP ✨"))
              (set_perfectFlash 30 (set_xp (xp g + 5) g))))
       else set_seed sd (set_particles (particles g ++ ps) g))
    /\ List.length ps = (if Qleb 99 (Power.value (power g)) then 36 else 6)%nat.
Proof.
  unfold celebrate. destruct (Qleb 99 _).
  - cbv zeta.
    destruct (emits_forUpTo 24 (perfectBurst M) (emits_perfectBurst M)
                (set_xp (xp g + 5) (set_perfectFlash 30 g))) as (ps1 & sd1 & -> & L1).
    match goal with |- context [forUpTo 12 (sparkleRing M) ?X] =>
      destruct (emits_forUpTo 12 (sparkleRing M) (emits_sparkleRing M) X)
        as (ps2 & sd2 & -> & L2)
    end.
    exists (ps1 ++ ps2), sd2. game_simpl. rewrite <- app_assoc.
    split; [reflexivity|]. rewrite length_app. lia.
  - destruct (emits_forUpTo 6 (launchDust M) (emits_launchDust M) g) as (ps & sd & -> & L).
    exists ps, sd. split; [reflexivity|exact L].
Qed.

Lemma launch_footprint (g : Game) :
  exists e pl hp,
    launch g = set_state jumping (set_egg e (set_platforms pl (set_heap hp g)))
    /\ Egg.x e = Egg.x (egg g) /\ Egg.y e = Egg.y (egg g)
    /\ Egg.onPlatform e = None.
Proof.
  unfold launch. cbv zeta.
  destruct (breakFragile_footprint g) as (pl & hp & -> & _).
  eexists _, pl, hp. split; [reflexivity|]. repeat split; reflexivity.
Qed.

(** X11: releasing with the bar at 99 or more is a perfect jump: it adds
    5 experience, lights the flash for 30 time units, shows the PERFECT
    cue at the egg for 40 time units and emits 36 particles.  Any other
    release adds no experience, leaves flash and cue alone and emits 6
    particles. *)
Theorem perfect_release_bonus (M : MathEnv) (g : Game) :
  state g = charging ->
  let g' := releaseJump M g in
  (99 <= Power.value (power g) ->
   xp g' = xp g + 5
   /\ perfectFlash g' = 30
   /\ landingFx g'
      = Some (LandingFx.mk (Egg.y (egg g)) (Egg.x (egg g)) 40 "✨ PERFECT! +5 XP ✨")
   /\ exists ps, particles g' = particles g ++ ps /\ List.length ps = 36%nat)
  /\ (Power.value (power g) < 99 ->
      xp g' = xp g
      /\ perfectFlash g' = perfectFlash g
      /\ landingFx g' = landingFx g
      /\ exists ps, particles g' = particles g ++ ps /\ List.length ps = 6%nat).
Proof.
  intros Hs g'. subst g'. unfold releaseJump. rewrite Hs.
  destruct (launch_footprint g) as (e & pl & hp & -> & Hx & Hy & _).
  destruct (celebrate_cases M
              (set_state jumping (set_egg e (set_platforms pl (set_heap hp g)))))
    as (ps & sd & -> & Hl).
  game_simpl_in Hl. game_simpl. split; intro Hp.
  - apply Qleb_le in Hp. rewrite Hp in Hl |- *. game_simpl. rewrite Hx, Hy.
    split; [reflexivity|]. split; [reflexivity|]. split; [reflexivity|].
    exists ps. split; [reflexivity|exact Hl].
  - apply Qleb_gt in Hp. rewrite Hp in Hl |- *. game_simpl.
    split; [reflexivity|]. split; [reflexivity|]. split; [reflexivity|].
    exists ps. split; [reflexivity|exact Hl].
Qed.

Lemma perfect_release_bonus_witness :
  xp (releaseJump hostHalf fullCharge) = xp fullCharge + 5.
Proof.
  refine (proj1 (proj1 (perfect_release_bonus hostHalf fullCharge eq_refl) _)).
  discriminate.
Defined.

(** ** The input handlers *)

(** X12: pressing and releasing the space bar at rest launches one jump,
    and nothing the player does in the air launches another: once
    airborne, key and pointer handlers all leave the game as it is.
    Auto-repeated key-down events and other keys are ignored, and the
    pointer handlers act like a (non-repeated) space bar. *)
Theorem press_release_jumps_once (M : MathEnv) (g : Game) :
  state g = idle ->
  let g' := onKeyUp M true (onKeyDown M true false g) in
  state g' = jumping
  /\ Egg.vy (egg g') < 0
  /\ Egg.onPlatform (egg g') = None
  /\ (forall rep, onKeyDown M true rep g' = g')
  /\ onKeyUp M true g' = g'
  /\ handlePointerDown M g' = g'
  /\ handlePointerUp M g' = g'
  /\ (forall G rep, onKeyDown M false rep G = G /\ onKeyUp M false G = G
                    /\ onKeyDown M true true G = G)
  /\ (forall G, handlePointerDown M G = onKeyDown M true false G
                /\ handlePointerUp M G = onKeyUp M true G).
Proof.
  intros Hs g'. subst g'. unfold onKeyUp, onKeyDown. rewrite Hs.
  destruct (tap_egg_state M g Hs) as (Hst & Hv & Hon & _).
  revert Hst Hv Hon. generalize (releaseJump M (startCharging g)). intros J Hst Hv Hon.
  split; [exact Hst|]. rewrite Hv.
  split.
  { pose proof (ofNat_nonneg (stageIdx g)) as B.
    revert B. generalize (ofNat (stageIdx g)). intros b B. unfold MAX_JUMP_VEL.
    assert (Hm : Qmax 0.15 (0 / 100) == 0.15) by reflexivity. rewrite Hm. nra. }
  split; [exact Hon|].
  split; [intros [|]; [reflexivity|unfold startCharging; rewrite Hst; reflexivity]|].
  split; [unfold releaseJump; rewrite Hst; reflexivity|].
  split; [unfold handlePointerDown, startCharging; rewrite Hst; reflexivity|].
  split; [unfold handlePointerUp, releaseJump; rewrite Hst; reflexivity|].
  split; [intros G rep; repeat split; reflexivity|].
  intro G. split; reflexivity.
Qed.

Lemma press_release_jumps_once_witness :
  state (onKeyUp hostHalf true (onKeyDown hostHalf true false fresh)) = jumping.
Proof.
  exact (proj1 (press_release_jumps_once hostHalf fresh eq_refl)).
Defined.

(** ** Frames, phase by phase *)

Lemma gameover_dec (g : Game) : {state g = gameover} + {state g <> gameover}.
Proof. destruct (state g); (left; reflexivity) || (right; discriminate). Qed.

(** What a frame leaves in an observation that its last three steps
    cannot change. *)
Lemma update_obs {B : Type} (f : Game -> B) (M : MathEnv) (dt : Q) (g g' : Game) :
  tailStable f ->
  state g <> gameover ->
  update M dt g = Some g' ->
  f g' = f (beforeCamera M dt (platforms g) g).
Proof.
  intros Hf Hs Hu. destruct (update_unfold M dt g g' Hs Hu) as (g1 & Hc & ->).
  unfold prePhases in Hc. revert Hc.
  generalize (beforeCamera M dt (platforms g) g). intros G Hc.
  rewrite phaseCamera_footprint in Hc.
  apply phaseColumn_footprint in Hc. destruct Hc as (k & hp & sd & -> & _).
  match goal with |- context [phaseEffects dt ?X] =>
    destruct (phaseEffects_footprint dt X) as (pf & fx & ps & -> & _)
  end.
  apply Hf.
Qed.

Lemma beforeCamera_preserves (P : Game -> Prop) (M : MathEnv) (dt : Q)
    (plats : list Ref) (g : Game) :
  (forall G, P G -> P (phasePower dt G)) ->
  (forall G, P G -> P (phaseMove dt plats G)) ->
  (forall G, P G -> P (phaseTimed dt plats G)) ->
  (forall G, P G -> P (phaseSpawn M dt G)) ->
  (forall G, P G -> P (phaseBirds M dt G)) ->
  (forall G, P G -> P (phaseDecay M dt G)) ->
  (forall G, P G -> P (phaseGrounded dt G)) ->
  (forall G, P G -> P (phaseJumping M dt plats G)) ->
  P g -> P (beforeCamera M dt plats g).
Proof.
  intros H1 H2 H3 H4 H5 H6 H7 H8 Hg. unfold beforeCamera.
  apply H8, H7, H6, H5, H4, H3, H2, H1, Hg.
Qed.

(** A property that the last three steps of a frame cannot break holds
    after a frame when each earlier phase preserves it. *)
Lemma update_preserves (P : Game -> Prop) (M : MathEnv) (dt : Q) (g g' : Game) :
  (forall pf fx ps pl sd nr hp hr cam G,
     P G ->
     P (set_perfectFlash pf (set_landingFx fx (set_particles ps (set_platforms pl
          (set_seed sd (set_nextRef nr (set_heap hp
             (set_heightReached hr (set_camera cam G)))))))))) ->
  (forall G, P G -> P (phasePower dt G)) ->
  (forall G, P G -> P (phaseMove dt (platforms g) G)) ->
  (forall G, P G -> P (phaseTimed dt (platforms g) G)) ->
  (forall G, P G -> P (phaseSpawn M dt G)) ->
  (forall G, P G -> P (phaseBirds M dt G)) ->
  (forall G, P G -> P (phaseDecay M dt G)) ->
  (forall G, P G -> P (phaseGrounded dt G)) ->
  (forall G, P G -> P (phaseJumping M dt (platforms g) G)) ->
  P g -> update M dt g = Some g' -> P g'.
Proof.
  intros Ht H1 H2 H3 H4 H5 H6 H7 H8 Hg Hu.
  destruct (gameover_dec g) as [Hs|Hs].
  - rewrite (gameover_frame_noop_aux M dt g Hs) in Hu. injection Hu as <-. exact Hg.
  - destruct (update_unfold M dt g g' Hs Hu) as (g1 & Hc & ->).
    unfold prePhases in Hc. revert Hc.
    generalize (beforeCamera_preserves P M dt (platforms g) g H1 H2 H3 H4 H5 H6 H7 H8 Hg).
    generalize (beforeCamera M dt (platforms g) g). intros G HG Hc.
    rewrite phaseCamera_footprint in Hc.
    apply phaseColumn_footprint in Hc. destruct Hc as (k & hp & sd & -> & _).
    match goal with |- context [phaseEffects dt ?X] =>
      destruct (phaseEffects_footprint dt X) as (pf & fx & ps & -> & _)
    end.
    apply Ht. exact HG.
Qed.

Lemma run_preserves (P : Game -> Prop) (M : MathEnv) :
  (forall ev g g', P g -> apply M ev g = Some g' -> P g') ->
  forall evs g g', P g -> run M evs g = Some g' -> P g'.
Proof.
  intros Hstep. induction evs as [|ev evs IH]; intros g g' Hg; cbn [run].
  - intro He. injection He as <-. exact Hg.
  - destruct (apply M ev g) as [g1|] eqn:Ea; [|discriminate].
    apply IH. exact (Hstep ev g g1 Hg Ea).
Qed.

(** *** The countdown phase *)

Lemma timedStep_outcome (dt : Q) (g : Game) (r : Ref) :
  exists hp e st,
    timedStep dt g r = set_state st (set_egg e (set_heap hp g))
    /\ ((st = state g /\ e = egg g) \/ (st = jumping /\ e = dropped (egg g)))
    /\ (forall r', Egg.onPlatform (egg g) <> Some r' -> hp r' = heap g r')
    /\ (forall r', Platform.removing (hp r') = true ->
          Platform.removing (heap g r') = true \/ Egg.onPlatform (egg g) = Some r').
Proof.
  unfold timedStep.
  destruct (isTimed _ && _ && Ref_eqb _ _) eqn:Ec.
  - apply andb_true_iff in Ec. destruct Ec as [_ Ec]. apply Ref_eqb_eq in Ec.
    cbv zeta. destruct (Qleb _ 0 && _).
    + game_simpl. rewrite Ec. cbn [Ref_eqb]. rewrite Nat.eqb_refl.
      eexists _, _, _. split; [reflexivity|].
      split; [right; split; reflexivity|].
      split; [intros r' Hr'; apply store_other; congruence|].
      intros r' Hr'. destruct (Nat.eq_dec r' r) as [->|Hne]; [right; reflexivity|].
      rewrite store_other in Hr' by exact Hne. left. exact Hr'.
    + exists (store r (Platform.set_timer (Platform.timer (heap g r) - dt) (heap g r)) (heap g)),
             (egg g), (state g).
      split; [destruct g; reflexivity|].
      split; [left; split; reflexivity|].
      split; [intros r' Hr'; apply store_other; congruence|].
      intros r' Hr'. destruct (Nat.eq_dec r' r) as [->|Hne].
      * rewrite store_same in Hr'. left. exact Hr'.
      * rewrite store_other in Hr' by exact Hne. left. exact Hr'.
  - exists (heap g), (egg g), (state g).
    split; [destruct g; reflexivity|].
    split; [left; split; reflexivity|].
    split; [reflexivity|]. intros r' Hr'. left. exact Hr'.
Qed.

Lemma timedLoop_outcome (dt : Q) (plats : list Ref) (g : Game) :
  exists hp e st,
    fold_left (timedStep dt) plats g = set_state st (set_egg e (set_heap hp g))
    /\ ((st = state g /\ e = egg g) \/ (st = jumping /\ e = dropped (egg g)))
    /\ (forall r', Egg.onPlatform (egg g) <> Some r' -> hp r' = heap g r')
    /\ (forall r', Platform.removing (hp r') = true ->
          Platform.removing (heap g r') = true \/ Egg.onPlatform (egg g) = Some r').
Proof.
  revert g. induction plats as [|r plats IH]; intro g; cbn [fold_left].
  - exists (heap g), (egg g), (state g).
    split; [destruct g; reflexivity|].
    split; [left; split; reflexivity|].
    split; [reflexivity|]. intros r' Hr'. left. exact Hr'.
  - destruct (timedStep_outcome dt g r) as (hp1 & e1 & st1 & -> & Hc1 & Hf1 & Hr1).
    destruct (IH (set_state st1 (set_egg e1 (set_heap hp1 g))))
      as (hp2 & e2 & st2 & -> & Hc2 & Hf2 & Hr2).
    game_simpl_in Hc2. game_simpl_in Hf2. game_simpl_in Hr2.
    exists hp2, e2, st2. split; [reflexivity|].
    assert (He1 : Egg.onPlatform e1 = Egg.onPlatform (egg g) \/ Egg.onPlatform e1 = None).
    { destruct Hc1 as [[_ ->]|[_ ->]]; [left|right]; reflexivity. }
    split; [|split].
    + destruct Hc2 as [[-> ->]|[-> ->]]; [exact Hc1|].
      right. split; [reflexivity|].
      destruct Hc1 as [[_ ->]|[_ ->]]; reflexivity.
    + intros r' Hr'. rewrite Hf2; [apply Hf1; exact Hr'|].
      destruct He1 as [->| ->]; [exact Hr'|discriminate].
    + intros r' Hr'. destruct (Hr2 r' Hr') as [Hx|Hx].
      * apply Hr1. exact Hx.
      * right. destruct He1 as [He1|He1]; rewrite He1 in Hx; [exact Hx|discriminate Hx].
Qed.

Lemma phaseTimed_outcome (dt : Q) (plats : list Ref) (g : Game) :
  exists hp e st,
    phaseTimed dt plats g
    = set_platforms (filter (fun r => negb (expiredTimed hp r)) (platforms g))
        (set_state st (set_egg e (set_heap hp g)))
    /\ ((st = state g /\ e = egg g) \/ (st = jumping /\ e = dropped (egg g)))
    /\ (forall r', Egg.onPlatform (egg g) <> Some r' -> hp r' = heap g r')
    /\ (forall r', Platform.removing (hp r') = true ->
          Platform.removing (heap g r') = true \/ Egg.onPlatform (egg g) = Some r').
Proof.
  unfold phaseTimed.
  destruct (timedLoop_outcome dt plats g) as (hp & e & st & -> & Hc & Hf & Hr).
  exists hp, e, st. split; [reflexivity|]. split; [exact Hc|]. split; assumption.
Qed.

(** *** The bird loop *)

Lemma birdStep_outcome (M : MathEnv) (dt : Q) (b : Bird.t) (g : Game) :
  exists ps sd e st,
    snd (birdStep M dt b g) = set_seed sd (set_particles ps (set_state st (set_egg e g)))
    /\ staysOrFalls g st e
    /\ Egg.x e = Egg.x (egg g) /\ Egg.y e = Egg.y (egg g).
Proof.
  unfold birdStep. cbv zeta. destruct (birdHits _ _).
  - cbn [snd].
    match goal with |- context [forUpTo 6 (hitDust M) ?g2] =>
      destruct (fxOnly_forUpTo 6 (hitDust M) (fxOnly_hitDust M) g2) as (ps & sd & ->)
    end.
    cbn [state set_egg].
    destruct (isGrounded (state g)).
    + eexists ps, sd, _, jumping. split; [reflexivity|].
      split; [right; split; reflexivity|]. split; reflexivity.
    + exists ps, sd, (Egg.set_vx (-4) (egg g)), (state g).
      split; [destruct g; reflexivity|].
      split; [left; split; reflexivity|]. split; reflexivity.
  - exists (particles g), (seed g), (egg g), (state g).
    split; [destruct g; reflexivity|].
    split; [left; split; reflexivity|]. split; reflexivity.
Qed.

Lemma staysOrFalls_trans (g : Game) (st1 st2 : GameState) (e1 e2 : Egg.t) (G1 : Game) :
  state G1 = st1 -> egg G1 = e1 ->
  staysOrFalls g st1 e1 -> staysOrFalls G1 st2 e2 -> staysOrFalls g st2 e2.
Proof.
  intros Hs He H1 H2. unfold staysOrFalls in *. rewrite Hs, He in H2.
  destruct H2 as [[-> ->]|[-> ->]]; [exact H1|right; split; reflexivity].
Qed.

Lemma birdLoop_outcome (M : MathEnv) (dt : Q) (bs : list Bird.t) (g : Game) :
  exists ps sd e st,
    snd (birdLoop M dt bs g) = set_seed sd (set_particles ps (set_state st (set_egg e g)))
    /\ staysOrFalls g st e
    /\ Egg.x e = Egg.x (egg g) /\ Egg.y e = Egg.y (egg g).
Proof.
  revert g. induction bs as [|b bs IH]; intro g; cbn [birdLoop].
  - exists (particles g), (seed g), (egg g), (state g).
    split; [destruct g; reflexivity|].
    split; [left; split; reflexivity|]. split; reflexivity.
  - destruct (birdStep_outcome M dt b g) as (ps1 & sd1 & e1 & st1 & H1 & Hc1 & Hx1 & Hy1).
    destruct (birdStep M dt b g) as [b1 g1]. cbn [snd] in H1. subst g1.
    destruct (IH (set_seed sd1 (set_particles ps1 (set_state st1 (set_egg e1 g)))))
      as (ps2 & sd2 & e2 & st2 & H2 & Hc2 & Hx2 & Hy2).
    destruct (birdLoop M dt bs _) as [bs1 g2]. cbn [snd] in H2 |- *. subst g2.
    exists ps2, sd2, e2, st2. split; [reflexivity|].
    game_simpl_in Hx2. game_simpl_in Hy2.
    split; [|split; congruence].
    eapply staysOrFalls_trans; [| |exact Hc1|exact Hc2]; reflexivity.
Qed.

Lemma phaseBirds_outcome (M : MathEnv) (dt : Q) (g : Game) :
  exists bs ps sd e st,
    phaseBirds M dt g
    = set_birds bs (set_seed sd (set_particles ps (set_state st (set_egg e g))))
    /\ staysOrFalls g st e
    /\ Egg.x e = Egg.x (egg g) /\ Egg.y e = Egg.y (egg g).
Proof.
  unfold phaseBirds.
  destruct (birdLoop_outcome M dt (birds g) g) as (ps & sd & e & st & H1 & Hc & Hx & Hy).
  destruct (birdLoop M dt (birds g) g) as [bs g1]. cbn [snd] in H1. subst g1.
  eexists _, ps, sd, e, st. split; [reflexivity|]. repeat split; assumption.
Qed.

(** *** Decay and the grounded egg *)

Lemma phaseDecay_outcome (M : MathEnv) (dt : Q) (g : Game) :
  exists ps sd si x t,
    phaseDecay M dt g
    = set_seed sd (set_particles ps (set_stageIdx si (set_xp x (set_xpDecayTimer t g))))
    /\ ((si = stageIdx g /\ x = xp g)
        \/ (si = getStage (Qfloor x) /\ x = Qmax 0 (xp g - 0.008 * dt))).
Proof.
  unfold phaseDecay. destruct (isGrounded (state g) && Qltb 0 (xp g)).
  - cbv zeta. destruct (_ <? _)%nat.
    + match goal with |- context [forUpTo 10 (devolveDust M) ?g2] =>
        destruct (fxOnly_forUpTo 10 (devolveDust M) (fxOnly_devolveDust M) g2)
          as (ps & sd & ->)
      end.
      exists ps, sd, (getStage (Qfloor (Qmax 0 (xp g - 0.008 * dt)))),
        (Qmax 0 (xp g - 0.008 * dt)), (xpDecayTimer g + dt).
      split; [reflexivity|]. right. split; reflexivity.
    + exists (particles g), (seed g), (getStage (Qfloor (Qmax 0 (xp g - 0.008 * dt)))),
        (Qmax 0 (xp g - 0.008 * dt)), (xpDecayTimer g + dt).
      split; [destruct g; reflexivity|]. right. split; reflexivity.
  - exists (particles g), (seed g), (stageIdx g), (xp g), (xpDecayTimer g).
    split; [destruct g; reflexivity|]. left. split; reflexivity.
Qed.

Lemma clamp_inField (x : Q) :
  EGG_R <= Qmax EGG_R (Qmin (W - EGG_R) x) /\ Qmax EGG_R (Qmin (W - EGG_R) x) <= W - EGG_R.
Proof.
  split; [apply Q.le_max_l|].
  apply Q.max_lub; [discriminate|apply Q.le_min_l].
Qed.

Lemma phaseGrounded_outcome (dt : Q) (g : Game) :
  exists e st,
    phaseGrounded dt g = set_state st (set_egg e g)
    /\ staysOrFalls g st e
    /\ (Egg.x e = Egg.x (egg g) \/ inField e).
Proof.
  unfold phaseGrounded. destruct (Egg.onPlatform (egg g)) as [r|] eqn:Eon.
  - destruct (isGrounded (state g)).
    + cbv zeta. destruct (Qltb H _).
      * eexists _, _. split; [reflexivity|].
        split; [right; split; reflexivity|]. left. reflexivity.
      * match goal with |- context [set_egg ?e g] => exists e, (state g) end.
        split; [destruct g; reflexivity|].
        split; [left; split; [reflexivity|]; cbn; rewrite Eon; reflexivity|].
        right. unfold inField. cbn [Egg.x Egg.set_y Egg.set_x]. apply clamp_inField.
    + exists (egg g), (state g). split; [destruct g; reflexivity|].
      split; [left; split; reflexivity|]. left. reflexivity.
  - exists (egg g), (state g). split; [destruct g; reflexivity|].
    split; [left; split; reflexivity|]. left. reflexivity.
Qed.

(** *** The jumping block *)


Lemma integrate_onPlatform (dt : Q) (e : Egg.t) :
  Egg.onPlatform (integrate dt e) = Egg.onPlatform e.
Proof.
  unfold integrate. cbv zeta.
  destruct (Qltb _ EGG_R); cbn [Egg.x Egg.set_x Egg.set_vx Egg.set_y Egg.set_vy];
    destruct (Qltb (W - EGG_R) _); reflexivity.
Qed.

(** What the landing test says of a platform it accepts. *)
Lemma landsOn_true (dt : Q) (g : Game) (r : Ref) :
  landsOn dt g r = true ->
  - (20) <= Platform.y (heap g r) - Camera.y (camera g)
  /\ Platform.y (heap g r) - Camera.y (camera g) <= H
  /\ Platform.removing (heap g r) = false
  /\ Egg.y (egg g) - Egg.vy (egg g) * dt + EGG_R <= Platform.y (heap g r) + 4
  /\ Platform.y (heap g r) - 2 <= Egg.y (egg g) + EGG_R
  /\ Platform.x (heap g r) < Egg.x (egg g) + EGG_R * 0.6
  /\ Egg.x (egg g) - EGG_R * 0.6 < Platform.x (heap g r) + Platform.w (heap g r).
Proof.
  unfold landsOn. cbv zeta.
  destruct (Qltb _ (-20)) eqn:E1; [discriminate|].
  destruct (Qltb H _) eqn:E2; [discriminate|].
  cbn [orb]. destruct (Platform.removing _) eqn:E3; [discriminate|].
  intro Hl. apply andb_true_iff in Hl. destruct Hl as [Hl H4].
  apply andb_true_iff in Hl. destruct Hl as [Hl H3].
  apply andb_true_iff in Hl. destruct Hl as [H1 H2].
  apply Qltb_ge in E1. apply Qltb_ge in E2.
  apply Qleb_le in H1. apply Qleb_le in H2. apply Qltb_lt in H3. apply Qltb_lt in H4.
  repeat split; assumption.
Qed.

(** The egg put on a platform that passed the landing test is above the
    line of the game-over check. *)
Lemma landed_not_fallen (dt : Q) (F : Game) (r : Ref) ps sd ef :
  landsOn dt F r = true ->
  fallCheck (set_seed sd (set_particles ps (set_evolveFlash ef (landed r F))))
  = set_seed sd (set_particles ps (set_evolveFlash ef (landed r F))).
Proof.
  intro Hl. apply landsOn_true in Hl. destruct Hl as (_ & Hs & _).
  unfold fallCheck.
  assert (Hc : Camera.y (camera (set_seed sd (set_particles ps (set_evolveFlash ef (landed r F)))))
               = Camera.y (camera F)) by reflexivity.
  assert (He : Egg.y (egg (set_seed sd (set_particles ps (set_evolveFlash ef (landed r F)))))
               = Platform.y (heap F r) - EGG_R) by reflexivity.
  rewrite Hc, He.
  assert (Hq : Qltb (Camera.y (camera F) + H + 20) (Platform.y (heap F r) - EGG_R) = false).
  { apply Qltb_ge. unfold EGG_R, H in *. lra. }
  rewrite Hq. reflexivity.
Qed.

(** The four ways through the jumping block. *)
Lemma phaseJumping_outcome (M : MathEnv) (dt : Q) (plats : list Ref) (g : Game) :
  (state g <> jumping /\ phaseJumping M dt plats g = g)
  \/ (state g = jumping /\ exists ps sd,
        phaseJumping M dt plats g = flown dt ps sd g
        /\ Egg.y (integrate dt (egg g)) <= Camera.y (camera g) + H + 20)
  \/ (state g = jumping /\ exists ps sd,
        phaseJumping M dt plats g
        = set_highScore (Z.max (highScore g) (score g))
            (set_state gameover (flown dt ps sd g))
        /\ Camera.y (camera g) + H + 20 < Egg.y (integrate dt (egg g)))
  \/ (state g = jumping /\ exists ps sd r ps' sd' ef,
        find (landsOn dt (flown dt ps sd g)) plats = Some r
        /\ 0 < Egg.vy (integrate dt (egg g))
        /\ phaseJumping M dt plats g
           = set_seed sd' (set_particles ps' (set_evolveFlash ef
               (landed r (flown dt ps sd g))))).
Proof.
  destruct (phaseJumping_cases M dt plats g)
    as [[Hn He]|[[Hs (ps & sd & He)]|[Hs (ps & sd & r & ps' & sd' & ef & Hf & Hv & He)]]].
  - left. split; assumption.
  - right. unfold fallCheck in He.
    destruct (Qltb _ _) eqn:Ec.
    + right. left. split; [exact Hs|]. exists ps, sd. split; [exact He|].
      apply Qltb_lt in Ec. exact Ec.
    + left. split; [exact Hs|]. exists ps, sd. split; [exact He|].
      apply Qltb_ge in Ec. exact Ec.
  - right. right. right. split; [exact Hs|].
    exists ps, sd, r, ps', sd', ef. split; [exact Hf|].
    split; [apply Qltb_lt; exact Hv|].
    rewrite He. apply (landed_not_fallen dt).
    apply find_some in Hf. exact (proj2 Hf).
Qed.

(** ** Tools for frames and runs *)

Lemma returns_intro {A : Type} (o : option A) (P : A -> Prop) :
  isSome o = true -> (forall a, o = Some a -> P a) -> returns o P.
Proof.
  destruct o as [a|]; [|discriminate]. intros _ HP. apply HP. reflexivity.
Defined.

(** Phases that leave a property alone because they do not set the
    fields it reads. *)
Ltac quiet_phase :=
  let G := fresh "G" in
  let HG := fresh "HG" in
  intros G HG;
  first
    [ rewrite (phasePower_footprint _ G); exact HG
    | unfold phaseMove; exact HG
    | match goal with
      | |- context [phaseSpawn ?M ?dt G] =>
          destruct (phaseSpawn_footprint M dt G) as (? & ? & ? & ->); exact HG
      end
    | match goal with
      | |- context [phaseDecay ?M ?dt G] =>
          destruct (phaseDecay_footprint M dt G) as (? & ? & ? & ? & ? & -> & _); exact HG
      end ].

(** ** The power meter over a run *)






(** ** The side walls *)








(** ** Grounded means supported *)

Lemma staysOrFalls_supported (G : Game) (st : GameState) (e : Egg.t) :
  staysOrFalls G st e -> supported G -> supported (set_state st (set_egg e G)).
Proof.
  unfold supported. game_simpl.
  intros [[-> ->]|[-> ->]] HG; [exact HG|].
  split; [discriminate|reflexivity].
Qed.

Lemma phaseJumping_supported (M : MathEnv) (dt : Q) (plats : list Ref) (G : Game) :
  supported G -> supported (phaseJumping M dt plats G).
Proof.
  intro HG.
  destruct (phaseJumping_outcome M dt plats G)
    as [[_ ->]|[[Hs (ps & sd & -> & _)]|[[Hs (ps & sd & -> & _)]
       |[_ (ps & sd & r & ps' & sd' & ef & _ & _ & ->)]]]].
  - exact HG.
  - unfold supported, flown. game_simpl. rewrite Hs, integrate_onPlatform.
    split; [discriminate|]. intros _. apply (proj2 HG). rewrite Hs. reflexivity.
  - unfold supported, flown. game_simpl. rewrite integrate_onPlatform.
    split; [discriminate|]. intros _. apply (proj2 HG). rewrite Hs. reflexivity.
  - split; [intros _; discriminate|discriminate].
Qed.

Lemma update_supported (M : MathEnv) (dt : Q) (g g' : Game) :
  supported g -> update M dt g = Some g' -> supported g'.
Proof.
  apply (update_preserves supported).
  - intros. assumption.
  - quiet_phase.
  - quiet_phase.
  - intros G HG.
    destruct (phaseTimed_outcome dt (platforms g) G) as (hp & e & st & -> & Hc & _).
    assert (Hsf : staysOrFalls G st e).
    { destruct Hc as [[-> ->]|[-> ->]]; [left|right]; split; reflexivity. }
    exact (staysOrFalls_supported G st e Hsf HG).
  - quiet_phase.
  - intros G HG.
    destruct (phaseBirds_outcome M dt G) as (bs & ps & sd & e & st & -> & Hc & _).
    exact (staysOrFalls_supported G st e Hc HG).
  - quiet_phase.
  - intros G HG.
    destruct (phaseGrounded_outcome dt G) as (e & st & -> & Hc & _).
    exact (staysOrFalls_supported G st e Hc HG).
  - intros G HG. apply phaseJumping_supported. exact HG.
Qed.

Lemma initGame_supported (M : MathEnv) (g : Game) : supported (initGame M g).
Proof.
  unfold supported.
  destruct (initGame_fields M g) as (-> & -> & _).
  split; [intros _; discriminate|discriminate].
Qed.

Lemma apply_supported (M : MathEnv) (ev : Event) (g g' : Game) :
  supported g -> apply M ev g = Some g' -> supported g'.
Proof.
  intros Hm. destruct ev as [dt| | |]; cbn [apply].
  - apply update_supported. exact Hm.
  - intro Hg. injection Hg as <-. unfold startCharging.
    destruct (state g) eqn:Es; try exact Hm.
    unfold supported in *. game_simpl. rewrite Es in Hm.
    split; [intros _; apply (proj1 Hm); reflexivity|discriminate].
  - intro Hg. injection Hg as <-.
    destruct (state g) eqn:Es; try (unfold releaseJump; rewrite Es; exact Hm).
    unfold supported.
    destruct (releaseJump_egg_state M g Es) as [-> ->].
    split; [discriminate|reflexivity].
  - intro Hg. injection Hg as <-. apply initGame_supported.
Qed.

(** X15: from a reset on, the egg is on a platform exactly when the game
    is [idle] or [charging]: resting states always have a platform under
    the egg, and in [jumping] and [gameover] the egg is on none. *)
Theorem grounded_means_supported (M : MathEnv) (evs : list Event) (g g' : Game) :
  run M (Reset :: evs) g = Some g' -> supported g'.
Proof.
  cbn [run apply]. intro Hr.
  exact (run_preserves supported M (apply_supported M) evs (initGame M g) g'
           (initGame_supported M g) Hr).
Qed.

Lemma grounded_means_supported_witness :
  supported (releaseJump hostHalf (startCharging (initGame hostHalf game0))).
Proof.
  exact (grounded_means_supported hostHalf [BeginCharge; ReleaseJump] game0 _ eq_refl).
Defined.

(** ** Tier and experience *)

Lemma synced_ext (G G' : Game) :
  state G' = state G \/ state G' = jumping ->
  stageIdx G' = stageIdx G -> xp G' = xp G ->
  synced G -> synced G'.
Proof.
  unfold synced. intros [Hs|Hs] Hi Hx HG; rewrite Hs; [|discriminate].
  rewrite Hi, Hx. exact HG.
Qed.

Lemma staysOrFalls_state (G : Game) (st : GameState) (e : Egg.t) :
  staysOrFalls G st e -> st = state G \/ st = jumping.
Proof. intros [[-> _]|[-> _]]; [left|right]; reflexivity. Qed.

Lemma phaseJumping_synced (M : MathEnv) (dt : Q) (plats : list Ref) (G : Game) :
  synced G -> synced (phaseJumping M dt plats G).
Proof.
  intro HG.
  destruct (phaseJumping_outcome M dt plats G)
    as [[_ ->]|[[Hs (ps & sd & -> & _)]|[[Hs (ps & sd & -> & _)]
       |[_ (ps & sd & r & ps' & sd' & ef & _ & _ & ->)]]]].
  - exact HG.
  - unfold synced, flown. game_simpl. rewrite Hs. discriminate.
  - unfold synced, flown. game_simpl. discriminate.
  - intros _. reflexivity.
Qed.

Lemma update_synced (M : MathEnv) (dt : Q) (g g' : Game) :
  synced g -> update M dt g = Some g' -> synced g'.
Proof.
  apply (update_preserves synced).
  - intros. assumption.
  - quiet_phase.
  - quiet_phase.
  - intros G HG.
    destruct (phaseTimed_outcome dt (platforms g) G) as (hp & e & st & -> & Hc & _).
    apply (synced_ext G); [|reflexivity|reflexivity|exact HG]. game_simpl.
    destruct Hc as [[-> _]|[-> _]]; [left|right]; reflexivity.
  - quiet_phase.
  - intros G HG.
    destruct (phaseBirds_outcome M dt G) as (bs & ps & sd & e & st & -> & Hc & _).
    apply (synced_ext G); [|reflexivity|reflexivity|exact HG]. game_simpl.
    exact (staysOrFalls_state G st e Hc).
  - intros G HG.
    destruct (phaseDecay_outcome M dt G) as (ps & sd & si & x & t & -> & Hc).
    unfold synced in *. game_simpl.
    destruct Hc as [[-> ->]|[-> _]]; [exact HG|intros _; reflexivity].
  - intros G HG.
    destruct (phaseGrounded_outcome dt G) as (e & st & -> & Hc & _).
    apply (synced_ext G); [|reflexivity|reflexivity|exact HG]. game_simpl.
    exact (staysOrFalls_state G st e Hc).
  - intros G HG. apply phaseJumping_synced. exact HG.
Qed.

Lemma apply_synced (M : MathEnv) (ev : Event) (g g' : Game) :
  synced g -> apply M ev g = Some g' -> synced g'.
Proof.
  intros Hm. destruct ev as [dt| | |]; cbn [apply].
  - apply update_synced. exact Hm.
  - intro Hg. injection Hg as <-. unfold startCharging.
    destruct (state g) eqn:Es; try exact Hm.
    unfold synced in *. game_simpl. rewrite Es in Hm. exact Hm.
  - intro Hg. injection Hg as <-.
    destruct (state g) eqn:Es; try (unfold releaseJump; rewrite Es; exact Hm).
    unfold synced.
    destruct (releaseJump_egg_state M g Es) as [_ ->]. discriminate.
  - intro Hg. injection Hg as <-. unfold synced.
    destruct (initGame_fields M g) as (_ & _ & _ & _ & _ & _ & -> & -> & _).
    intros _. reflexivity.
Qed.

(** X16: whenever the egg rests ([idle] or [charging]), the tier is the
    tier that the evolution table gives for the whole part of the
    experience: decay steps the tier down with the experience, a landing
    steps it up, and the bonus of a perfect release is taken into account
    by the time the egg rests again. *)
Theorem tier_follows_experience_at_rest (M : MathEnv) (evs : list Event) (g g' : Game) :
  synced g -> run M evs g = Some g' -> synced g'.
Proof.
  intros Hm Hr.
  exact (run_preserves synced M (apply_synced M) evs g g' Hm Hr).
Qed.

(** At rest with the experience just above 15, one frame of decay takes
    the experience below 15 and the tier from 1 to 0. *)
Lemma tier_follows_experience_at_rest_witness :
  synced evolved
  /\ stageIdx evolved = 1%nat
  /\ returns (run hostHalf [Frame 1] evolved) (fun g' =>
       state g' = idle
       /\ stageIdx g' = getStage (Qfloor (xp g'))
       /\ stageIdx g' = 0%nat).
Proof.
  assert (Hs : synced evolved) by (intros _; vm_compute; reflexivity).
  split; [exact Hs|]. split; [reflexivity|].
  apply returns_intro; [vm_compute; reflexivity|].
  intros g' E.
  assert (Hc : option_map
                 (fun g' => (GameState_eqb (state g') idle, Nat.eqb (stageIdx g') 0))
                 (run hostHalf [Frame 1] evolved) = Some (true, true))
    by (vm_compute; reflexivity).
  rewrite E in Hc. cbn [option_map] in Hc. injection Hc as Hst Hti.
  assert (Hi : state g' = idle)
    by (destruct (state g'); try discriminate Hst; reflexivity).
  split; [exact Hi|]. split.
  - apply (tier_follows_experience_at_rest hostHalf [Frame 1] evolved g' Hs E).
    rewrite Hi. reflexivity.
  - apply Nat.eqb_eq. exact Hti.
Defined.

(** ** Score and high score *)







(** ** Game over *)

(** The phases before the jumping block neither end the run nor touch
    the scores and the camera. *)
Lemma groundPhases_scores (M : MathEnv) (dt : Q) (plats : list Ref) (g : Game) :
  let B := phaseGrounded dt (phaseDecay M dt (phaseBirds M dt (phaseSpawn M dt
             (phaseTimed dt plats (phaseMove dt plats (phasePower dt g)))))) in
  (state B = state g \/ state B = jumping)
  /\ score B = score g /\ highScore B = highScore g /\ camera B = camera g
  /\ highestPlatformY B = highestPlatformY g
  /\ heightReached B = heightReached g.
Proof.
  intro B. subst B. open_ground_phases.
  split; [|repeat split].
  destruct Hst1 as [->| ->]; [|right; reflexivity].
  destruct Hst0 as [->| ->]; [|right; reflexivity].
  destruct Hst as [->| ->]; [left|right]; reflexivity.
Qed.

(** X18: a frame ends the run only by the fall check of the jumping
    block: if a frame that does not start in [gameover] ends in it, the
    egg is more than 20 below the bottom edge of the view the frame began
    with, the score is as it was and the high score becomes the larger of
    the old high score and the score. *)
Theorem game_over_only_by_falling (M : MathEnv) (dt : Q) (g g' : Game) :
  state g <> gameover ->
  update M dt g = Some g' ->
  state g' = gameover ->
  Camera.y (camera g) + H + 20 < Egg.y (egg g')
  /\ score g' = score g
  /\ highScore g' = Z.max (highScore g) (score g).
Proof.
  intros Hs Hu Hgo.
  pose proof (update_obs (fun G => (state G, egg G, score G, highScore G)) M dt g g') as Ho.
  cbv beta in Ho. specialize (Ho ltac:(intros ? ? ? ? ? ? ? ? ? ?; reflexivity) Hs Hu).
  injection Ho as Ho1 Ho2 Ho3 Ho4. rewrite Ho2, Ho3, Ho4. rewrite Ho1 in Hgo.
  clear Ho1 Ho2 Ho3 Ho4 Hu. revert Hgo. unfold beforeCamera.
  generalize (groundPhases_scores M dt (platforms g) g). cbv zeta.
  generalize (phaseGrounded dt (phaseDecay M dt (phaseBirds M dt (phaseSpawn M dt
                (phaseTimed dt (platforms g) (phaseMove dt (platforms g) (phasePower dt g))))))).
  intros B (HB & Hsc & Hhs & Hcam & _) Hgo.
  rewrite <- Hsc, <- Hhs, <- Hcam.
  destruct (phaseJumping_outcome M dt (platforms g) B)
    as [[_ He]|[[Hj (ps & sd & He & _)]|[[_ (ps & sd & He & Hy)]
       |[_ (ps & sd & r & ps' & sd' & ef & _ & _ & He)]]]];
    rewrite He in Hgo |- *.
  - exfalso. destruct HB as [HB|HB]; rewrite HB in Hgo; [contradiction|discriminate Hgo].
  - exfalso. unfold flown in Hgo. game_simpl_in Hgo. rewrite Hj in Hgo. discriminate Hgo.
  - unfold flown. game_simpl. split; [exact Hy|]. split; reflexivity.
  - exfalso. discriminate Hgo.
Qed.

Lemma game_over_only_by_falling_witness :
  returns (update hostHalf 1 falling) (fun g' =>
    state g' = gameover /\ Camera.y (camera falling) + H + 20 < Egg.y (egg g')).
Proof.
  assert (Hc : option_map (fun g' => GameState_eqb (state g') gameover)
                 (update hostHalf 1 falling) = Some true)
    by (vm_compute; reflexivity).
  destruct (update hostHalf 1 falling) as [g'|] eqn:E; [|discriminate Hc].
  cbn [option_map] in Hc. injection Hc as Hst. cbn [returns].
  assert (Hgo : state g' = gameover)
    by (destruct (state g'); try discriminate Hst; reflexivity).
  split; [exact Hgo|].
  refine (proj1 (game_over_only_by_falling hostHalf 1 falling g' _ E Hgo)).
  discriminate.
Defined.

(** ** The best heights *)

Lemma landed_highest (r : Ref) (F : Game) sd ps ef :
  highestPlatformY (set_seed sd (set_particles ps (set_evolveFlash ef (landed r F))))
  <= highestPlatformY F.
Proof.
  unfold landed. cbv zeta. game_simpl.
  destruct (Qltb _ _) eqn:E; [|apply Qle_refl].
  apply Qltb_lt in E. apply Qlt_le_weak. exact E.
Qed.

Lemma phaseJumping_highest (M : MathEnv) (dt : Q) (plats : list Ref) (G : Game) :
  highestPlatformY (phaseJumping M dt plats G) <= highestPlatformY G
  /\ heightReached (phaseJumping M dt plats G) = heightReached G.
Proof.
  destruct (phaseJumping_outcome M dt plats G)
    as [[_ ->]|[[_ (ps & sd & -> & _)]|[[_ (ps & sd & -> & _)]
       |[_ (ps & sd & r & ps' & sd' & ef & _ & _ & ->)]]]].
  - split; [apply Qle_refl|reflexivity].
  - split; [apply Qle_refl|reflexivity].
  - split; [apply Qle_refl|reflexivity].
  - split; [|reflexivity].
    exact (landed_highest r (flown dt ps sd G) sd' ps' ef).
Qed.

(** X19: the two records of a run only improve (heights grow upwards,
    so smaller is better): after a frame the best platform height and
    the best height reached are at most what they were, and the best
    height reached is at most the egg's own height. *)
Theorem best_heights_only_improve (M : MathEnv) (dt : Q) (g g' : Game) :
  state g <> gameover ->
  update M dt g = Some g' ->
  highestPlatformY g' <= highestPlatformY g
  /\ heightReached g' <= heightReached g
  /\ heightReached g' <= Egg.y (egg g').
Proof.
  intros Hs Hu.
  pose proof (update_obs (fun G => highestPlatformY G) M dt g g') as Ho.
  cbv beta in Ho. specialize (Ho ltac:(intros ? ? ? ? ? ? ? ? ? ?; reflexivity) Hs Hu).
  destruct (update_tail M dt g g' Hs Hu) as (_ & He & _ & _ & _ & _ & _ & _ & Hh & _).
  rewrite Ho, He, Hh. clear Ho He Hh Hu. unfold prePhases.
  assert (HB : highestPlatformY (beforeCamera M dt (platforms g) g) <= highestPlatformY g
               /\ heightReached (beforeCamera M dt (platforms g) g) = heightReached g).
  { unfold beforeCamera.
    generalize (groundPhases_scores M dt (platforms g) g). cbv zeta.
    generalize (phaseGrounded dt (phaseDecay M dt (phaseBirds M dt (phaseSpawn M dt
                  (phaseTimed dt (platforms g) (phaseMove dt (platforms g)
                     (phasePower dt g))))))).
    intros B (_ & _ & _ & _ & Hhp & Hhr).
    destruct (phaseJumping_highest M dt (platforms g) B) as [J1 J2].
    rewrite J2, Hhr, <- Hhp. split; [exact J1|reflexivity]. }
  revert HB. generalize (beforeCamera M dt (platforms g) g). intros G [H1 H2].
  rewrite phaseCamera_footprint. game_simpl. rewrite H2.
  split; [exact H1|]. split; [apply Q.le_min_l|apply Q.le_min_r].
Qed.

Lemma best_heights_only_improve_witness :
  returns (update hostHalf 1 airborne) (fun g' =>
    heightReached g' <= heightReached airborne).
Proof.
  apply returns_intro; [vm_compute; reflexivity|].
  intros g' E.
  refine (proj1 (proj2 (best_heights_only_improve hostHalf 1 airborne g' _ E))).
  discriminate.
Defined.

(** ** The state machine *)

Lemma phaseJumping_no_charge (M : MathEnv) (dt : Q) (plats : list Ref) (G : Game) :
  state (phaseJumping M dt plats G) = charging -> state G = charging.
Proof.
  destruct (phaseJumping_outcome M dt plats G)
    as [[_ ->]|[[Hs (ps & sd & -> & _)]|[[_ (ps & sd & -> & _)]
       |[_ (ps & sd & r & ps' & sd' & ef & _ & _ & ->)]]]].
  - intro Hc. exact Hc.
  - unfold flown. game_simpl. intro Hc. exact Hc.
  - intro Hc. discriminate Hc.
  - intro Hc. discriminate Hc.
Qed.

Lemma update_no_charge (M : MathEnv) (dt : Q) (g g' : Game) :
  update M dt g = Some g' -> state g' = charging -> state g = charging.
Proof.
  intro Hu.
  refine (update_preserves (fun G => state G = charging -> state g = charging)
            M dt g g' _ _ _ _ _ _ _ _ _ _ Hu).
  - intros. auto.
  - quiet_phase.
  - quiet_phase.
  - intros G HG.
    destruct (phaseTimed_outcome dt (platforms g) G) as (hp & e & st & -> & Hc & _).
    game_simpl. destruct Hc as [[-> _]|[-> _]]; [exact HG|discriminate].
  - quiet_phase.
  - intros G HG.
    destruct (phaseBirds_outcome M dt G) as (bs & ps & sd & e & st & -> & Hc & _).
    game_simpl. destruct (staysOrFalls_state G st e Hc) as [->| ->]; [exact HG|discriminate].
  - quiet_phase.
  - intros G HG.
    destruct (phaseGrounded_outcome dt G) as (e & st & -> & Hc & _).
    game_simpl. destruct (staysOrFalls_state G st e Hc) as [->| ->]; [exact HG|discriminate].
  - intros G HG Hc. apply HG. exact (phaseJumping_no_charge M dt (platforms g) G Hc).
  - intro Hc. exact Hc.
Qed.

(** X20: the state machine of the game.  A frame never starts a charge
    (it ends [charging] only if it began so) and never leaves [gameover];
    begin-charge only takes [idle] to [charging]; release only takes
    [charging] to [jumping]; reset always leads to [idle]. *)
Theorem events_respect_the_state_machine (M : MathEnv) (ev : Event) (g g' : Game) :
  apply M ev g = Some g' -> stepOk ev (state g) (state g').
Proof.
  destruct ev as [dt| | |]; cbn [apply stepOk].
  - intro Hu. split; [exact (update_no_charge M dt g g' Hu)|].
    intro Hs. rewrite (gameover_frame_noop_aux M dt g Hs) in Hu.
    injection Hu as <-. exact Hs.
  - intro Hg. injection Hg as <-. unfold startCharging.
    destruct (state g) eqn:Es; try (right; split; [discriminate|exact Es]).
    left. split; reflexivity.
  - intro Hg. injection Hg as <-.
    destruct (state g) eqn:Es;
      try (right; split; [discriminate|unfold releaseJump; rewrite Es; exact Es]).
    left. split; [reflexivity|]. exact (proj2 (releaseJump_egg_state M g Es)).
  - intro Hg. injection Hg as <-. exact (proj1 (initGame_fields M g)).
Qed.

Lemma events_respect_the_state_machine_witness :
  stepOk BeginCharge (state game0) (state (startCharging game0)).
Proof.
  exact (events_respect_the_state_machine hostHalf BeginCharge game0 _ eq_refl).
Defined.

(** ** Moving platforms *)

Lemma Qeqb_false (a b : Q) : Qeqb a b = false <-> ~ a == b.
Proof.
  unfold Qeqb. split.
  - intros Hf He. apply Qeq_bool_iff in He. congruence.
  - intro Hn. destruct (Qeq_bool a b) eqn:E; [|reflexivity].
    apply Qeq_bool_iff in E. contradiction.
Qed.

(** X21: the side margins reflect a moving platform.  A platform
    narrower than the field between the 8-pixel margins, once moved, lies
    between the margins; its speed keeps its magnitude; when it ends on
    the left margin it is heading right, and on the right margin left.  A
    platform of speed 0 is not moved at all. *)
Theorem margins_reflect_platforms (dt : Q) (p : Platform.t) :
  Platform.w p < W - 16 ->
  let p' := movePlatform dt p in
  (Platform.speed p == 0 -> p' = p)
  /\ (~ Platform.speed p == 0 ->
      8 <= Platform.x p' /\ Platform.x p' + Platform.w p' <= W - 8
      /\ Qabs (Platform.speed p') == Qabs (Platform.speed p)
      /\ (Platform.x p' == 8 -> 0 <= Platform.speed p')
      /\ (Platform.x p' + Platform.w p' == W - 8 -> Platform.speed p' <= 0)).
Proof.
  intros Hw p'. subst p'. unfold movePlatform. split.
  - intro Hz. apply Qeq_bool_iff in Hz. unfold Qeqb. rewrite Hz. reflexivity.
  - intro Hnz. apply Qeqb_false in Hnz. rewrite Hnz. cbv zeta.
    pose proof (Qabs_nonneg (Platform.speed p)) as Ha.
    unfold W in *.
    destruct (Qleb _ 8) eqn:E1;
      cbn [Platform.x Platform.w Platform.speed Platform.set_x Platform.set_speed] in *.
    + destruct (Qleb (400 - 8) (8 + Platform.w p)) eqn:E2.
      * apply Qleb_le in E2. exfalso. lra.
      * cbn [Platform.x Platform.w Platform.speed Platform.set_x Platform.set_speed].
        apply Qleb_gt in E2.
        split; [lra|]. split; [lra|].
        split; [apply Qabs_pos; exact Ha|].
        split; [intros _; exact Ha|]. intro Hc. exfalso. lra.
    + apply Qleb_gt in E1.
      destruct (Qleb (400 - 8) _) eqn:E2;
        cbn [Platform.x Platform.w Platform.speed Platform.set_x Platform.set_speed].
      * split; [lra|]. split; [lra|].
        split; [rewrite Qabs_opp; apply Qabs_pos; exact Ha|].
        split; [intro Hc; exfalso; lra|]. intros _. lra.
      * apply Qleb_gt in E2.
        split; [lra|]. split; [lra|]. split; [reflexivity|].
        split; intro Hc; exfalso; lra.
Qed.

Lemma margins_reflect_platforms_witness :
  Platform.x (movePlatform 1 (Platform.mk 290 100 100 11 3 0 normal 0 false false)) + 100
  <= W - 8.
Proof.
  refine (proj1 (proj2 (proj2 (margins_reflect_platforms 1
            (Platform.mk 290 100 100 11 3 0 normal 0 false false) _) _))).
  - reflexivity.
  - discriminate.
Defined.

(** ** Birds over a frame *)

Lemma birdStep_bird (M : MathEnv) (dt : Q) (b : Bird.t) (g : Game) :
  fst (birdStep M dt b g) = flyBird dt b
  \/ fst (birdStep M dt b g) = Bird.set_x (-100) (flyBird dt b).
Proof.
  unfold birdStep. cbv zeta. destruct (birdHits _ _); [right|left]; reflexivity.
Qed.

Lemma birdLoop_birds (M : MathEnv) (dt : Q) (bs : list Bird.t) :
  forall g,
    Forall2 (fun b b' => b' = flyBird dt b \/ b' = Bird.set_x (-100) (flyBird dt b))
      bs (fst (birdLoop M dt bs g)).
Proof.
  induction bs as [|b bs IH]; intro g; cbn [birdLoop].
  - constructor.
  - pose proof (birdStep_bird M dt b g) as Hb.
    destruct (birdStep M dt b g) as [b1 g1]. cbn [fst] in Hb.
    specialize (IH g1). destruct (birdLoop M dt bs g1) as [bs1 g2]. cbn [fst] in IH |- *.
    constructor; assumption.
Qed.

Lemma phaseBirds_birds (M : MathEnv) (dt : Q) (g : Game) :
  (List.length (birds (phaseBirds M dt g)) <= List.length (birds g))%nat
  /\ forall b', In b' (birds (phaseBirds M dt g)) ->
       - (50) < Bird.x b' /\ exists b, In b (birds g) /\ b' = flyBird dt b.
Proof.
  unfold phaseBirds.
  pose proof (birdLoop_birds M dt (birds g) g) as Hl.
  destruct (birdLoop M dt (birds g) g) as [bs g1]. cbn [fst] in Hl. game_simpl.
  split.
  - rewrite (Forall2_length Hl). apply filter_length_le.
  - intros b' Hb'. apply filter_In in Hb'. destruct Hb' as [Hin Hx].
    apply Qltb_lt in Hx. split; [exact Hx|].
    revert Hin. induction Hl as [|b0 b0' l l' H0 Hl IH]; [intros []|].
    intros [<-|Hin].
    + destruct H0 as [H0|H0]; [exists b0; split; [left; reflexivity|exact H0]|].
      exfalso. rewrite H0 in Hx. cbn in Hx. revert Hx. discriminate.
    + destruct (IH Hin) as (b & Hb & He). exists b. split; [right; exact Hb|exact He].
Qed.

Lemma phaseSpawn_birds (M : MathEnv) (dt : Q) (g : Game) :
  birds (phaseSpawn M dt g) = birds g
  \/ exists b, birds (phaseSpawn M dt g) = birds g ++ [b] /\ Bird.x b = W + 30.
Proof.
  unfold phaseSpawn. cbv zeta. destruct (Qltb _ _); [right|left; reflexivity].
  eexists. split; reflexivity.
Qed.

(** X22: birds only fly left and leave.  Every bird a frame ends with is
    right of the line 50 pixels left of the field, and is a bird that
    flew for this frame's time delta: either one the frame began with or
    one just created at the right edge ([W + 30]); at most one bird is
    added per frame, and a bird that struck the egg is gone. *)
Theorem birds_fly_left_and_leave (M : MathEnv) (dt : Q) (g g' : Game) :
  state g <> gameover ->
  update M dt g = Some g' ->
  (List.length (birds g') <= S (List.length (birds g)))%nat
  /\ forall b', In b' (birds g') ->
       - (50) < Bird.x b'
       /\ exists b, (In b (birds g) \/ Bird.x b = W + 30) /\ b' = flyBird dt b.
Proof.
  intros Hs Hu. rewrite (update_birds M dt g g' Hs Hu).
  rewrite (phasePower_footprint dt g). unfold phaseMove. game_simpl.
  match goal with |- context [phaseTimed dt ?pl ?X] =>
    destruct (phaseTimed_footprint dt pl X) as (hp & e & st & pl3 & -> & _)
  end.
  match goal with |- context [phaseSpawn M dt ?X] =>
    pose proof (phaseSpawn_birds M dt X) as Hsp;
    assert (Hb0 : birds X = birds g) by reflexivity;
    rewrite Hb0 in Hsp; clear Hb0;
    generalize dependent (phaseSpawn M dt X)
  end.
  intros S0 Hsp.
  destruct (phaseBirds_birds M dt S0) as [Hlen Hin]. split.
  - destruct Hsp as [Hsp|(b & Hsp & _)]; rewrite Hsp in Hlen; [lia|].
    rewrite length_app in Hlen. cbn [List.length] in Hlen. lia.
  - intros b' Hb'. destruct (Hin b' Hb') as (Hx & b & Hb & He).
    split; [exact Hx|]. exists b. split; [|exact He].
    destruct Hsp as [Hsp|(b0 & Hsp & Hx0)]; rewrite Hsp in Hb; [left; exact Hb|].
    apply in_app_or in Hb. destruct Hb as [Hb|[<-|[]]]; [left; exact Hb|right; exact Hx0].
Qed.

Lemma birds_fly_left_and_leave_witness :
  returns (update hostHalf 1 chargingUnderBird) (fun g' =>
    (List.length (birds g') <= S (List.length (birds chargingUnderBird)))%nat).
Proof.
  apply returns_intro; [vm_compute; reflexivity|].
  intros g' E.
  refine (proj1 (birds_fly_left_and_leave hostHalf 1 chargingUnderBird g' _ E)).
  discriminate.
Defined.

(** ** Effects over a frame *)

Lemma phaseEffects_alive (dt : Q) (g : Game) :
  (forall p, In p (particles (phaseEffects dt g)) -> 0 < Particle.life p)
  /\ (forall fx, landingFx (phaseEffects dt g) = Some fx -> 0 < LandingFx.timer fx).
Proof.
  unfold phaseEffects. cbv zeta. game_simpl.
  assert (Hp : forall p,
             In p (filter (fun p => Qltb 0 (Particle.life p))
                     (map (stepParticle dt) (particles g))) ->
             0 < Particle.life p).
  { intros p Hp. apply filter_In in Hp. apply Qltb_lt. exact (proj2 Hp). }
  revert Hp. generalize (filter (fun p => Qltb 0 (Particle.life p))
                           (map (stepParticle dt) (particles g))). intros ps Hp.
  destruct (landingFx g) as [f|] eqn:Ef.
  - cbn [LandingFx.timer LandingFx.set_timer]. destruct (Qleb _ 0) eqn:Et; game_simpl.
    + destruct (Qltb 0 (perfectFlash g)); game_simpl;
        (split; [exact Hp|]; intros fx Hfx; discriminate Hfx).
    + apply Qleb_gt in Et.
      destruct (Qltb 0 (perfectFlash g)); game_simpl;
        (split; [exact Hp|]; intros fx Hfx; injection Hfx as <-; exact Et).
  - game_simpl. destruct (Qltb 0 (perfectFlash g)); game_simpl; rewrite ?Ef;
      (split; [exact Hp|]; intros fx Hfx; discriminate Hfx).
Qed.

(** X23: effects die out.  After a frame every particle still listed has
    life left, and a landing cue still shown has time left; a frame
    never leaves an expired particle or cue behind. *)
Theorem expired_effects_are_removed (M : MathEnv) (dt : Q) (g g' : Game) :
  state g <> gameover ->
  update M dt g = Some g' ->
  (forall p, In p (particles g') -> 0 < Particle.life p)
  /\ (forall fx, landingFx g' = Some fx -> 0 < LandingFx.timer fx).
Proof.
  intros Hs Hu. destruct (update_unfold M dt g g' Hs Hu) as (g1 & _ & ->).
  exact (phaseEffects_alive dt g1).
Qed.

Lemma expired_effects_are_removed_witness :
  returns (update hostHalf 1 airborne) (fun g' =>
    forall p, In p (particles g') -> 0 < Particle.life p).
Proof.
  apply returns_intro; [vm_compute; reflexivity|].
  intros g' E.
  refine (proj1 (expired_effects_are_removed hostHalf 1 airborne g' _ E)).
  discriminate.
Defined.

(** ** The store over a frame *)

(** Platform management leaves the objects allocated before the frame as
    the earlier phases left them. *)
Lemma update_heap_old (M : MathEnv) (dt : Q) (g g' : Game) (r : Ref) :
  state g <> gameover ->
  update M dt g = Some g' ->
  (r < nextRef g)%nat ->
  heap g' r = heap (beforeCamera M dt (platforms g) g) r.
Proof.
  intros Hg Hu Hlt.
  destruct (update_unfold M dt g g' Hg Hu) as (g1 & Hc & ->).
  unfold prePhases in Hc. revert Hc.
  generalize (beforeCamera_nextRef M dt (platforms g) g).
  generalize (beforeCamera M dt (platforms g) g). intros G HnG Hc.
  destruct (phaseCamera_heap dt G) as [Hh Hn].
  apply phaseColumn_footprint in Hc. destruct Hc as (k & hp & sd & -> & Hhp).
  match goal with |- context [phaseEffects dt ?X] =>
    destruct (phaseEffects_footprint dt X) as (pf & fx & ps & -> & _)
  end.
  game_simpl. rewrite Hhp by (rewrite Hn, HnG; exact Hlt).
  rewrite Hh. reflexivity.
Qed.

Lemma sameButMotion_fields (p p' : Platform.t) :
  sameButMotion p p' ->
  Platform.y p' = Platform.y p /\ Platform.w p' = Platform.w p
  /\ Platform.type p' = Platform.type p /\ Platform.timer p' = Platform.timer p
  /\ Platform.landed p' = Platform.landed p
  /\ Platform.removing p' = Platform.removing p.
Proof. unfold sameButMotion. intros ->. repeat split. Qed.

(** ** Landing *)

(** A frame that starts in the air with the egg on no platform reaches
    the jumping block in the air, the platforms moved and otherwise as
    they were. *)
Lemma airborne_ground_phases (M : MathEnv) (dt : Q) (plats : list Ref) (g : Game) :
  state g = jumping ->
  Egg.onPlatform (egg g) = None ->
  exists B,
    beforeCamera M dt plats g = phaseJumping M dt plats B
    /\ state B = jumping
    /\ camera B = camera g
    /\ Egg.onPlatform (egg B) = None
    /\ (forall r, sameButMotion (heap g r) (heap B r)).
Proof.
  intros Hs Hon. unfold beforeCamera.
  assert (Hb : exists B,
             phaseBirds M dt (phaseSpawn M dt (phaseTimed dt plats
               (phaseMove dt plats (phasePower dt g)))) = B
             /\ state B = jumping /\ camera B = camera g
             /\ Egg.onPlatform (egg B) = None
             /\ (forall r, sameButMotion (heap g r) (heap B r))).
  { eexists. split; [reflexivity|].
    rewrite (phasePower_footprint dt g). unfold phaseMove. game_simpl.
    match goal with |- context [phaseTimed dt ?pl ?X] =>
      destruct (phaseTimed_outcome dt pl X) as (hp & e & st & -> & Hc & Hf & _)
    end.
    game_simpl_in Hc. game_simpl_in Hf.
    match goal with |- context [phaseSpawn M dt ?X] =>
      destruct (phaseSpawn_footprint M dt X) as (sd1 & bs1 & t1 & ->)
    end.
    match goal with |- context [phaseBirds M dt ?X] =>
      destruct (phaseBirds_outcome M dt X) as (bs & ps & sd & e2 & st2 & -> & Hc2 & _)
    end.
    unfold staysOrFalls in Hc2. game_simpl_in Hc2. game_simpl.
    assert (Hst : st = jumping /\ Egg.onPlatform e = None).
    { destruct Hc as [[-> ->]|[-> ->]]; split; auto. }
    destruct Hst as [-> He].
    split; [destruct Hc2 as [[-> _]|[-> _]]; reflexivity|].
    split; [reflexivity|].
    split; [destruct Hc2 as [[_ ->]|[_ ->]]; [exact He|reflexivity]|].
    intro r. rewrite Hf by (rewrite Hon; discriminate). apply moveAll_motion. }
  destruct Hb as (B & -> & HsB & HcB & HoB & HhB).
  exists B.
  assert (Hgr : isGrounded (state B) = false) by (rewrite HsB; reflexivity).
  rewrite (phaseDecay_airborne M dt B Hgr), (phaseGrounded_airborne dt B Hgr).
  repeat split; assumption.
Qed.

Lemma landed_egg_heap (r : Ref) (F : Game) sd ps ef :
  egg (set_seed sd (set_particles ps (set_evolveFlash ef (landed r F))))
  = Egg.mk (Egg.x (egg F)) (Platform.y (heap F r) - EGG_R) 0 0 (Some r)
  /\ heap (set_seed sd (set_particles ps (set_evolveFlash ef (landed r F)))) r
     = (if isTimed (heap F r) then Platform.set_landed true (heap F r) else heap F r).
Proof.
  split; [reflexivity|].
  unfold landed. cbv zeta. game_simpl.
  destruct (isTimed (heap F r)); [apply store_same|reflexivity].
Qed.

(** What a frame that starts in the air and ends at rest has done. *)
Lemma landing_frame (M : MathEnv) (dt : Q) (g g' : Game) :
  state g = jumping ->
  Egg.onPlatform (egg g) = None ->
  allocated g ->
  update M dt g = Some g' ->
  state g' = idle ->
  exists r F,
    In r (platforms g)
    /\ landsOn dt F r = true
    /\ camera F = camera g
    /\ sameButMotion (heap g r) (heap F r)
    /\ egg g' = Egg.mk (Egg.x (egg F)) (Platform.y (heap F r) - EGG_R) 0 0 (Some r)
    /\ heap g' r
       = (if isTimed (heap F r) then Platform.set_landed true (heap F r) else heap F r).
Proof.
  intros Hs Hon Hal Hu Hi.
  assert (Hg : state g <> gameover) by (rewrite Hs; discriminate).
  pose proof (update_obs (fun G => (state G, egg G)) M dt g g') as Ho.
  cbv beta in Ho. specialize (Ho ltac:(intros ? ? ? ? ? ? ? ? ? ?; reflexivity) Hg Hu).
  injection Ho as Ho1 Ho2. rewrite Ho1 in Hi. rewrite Ho2. clear Ho1 Ho2.
  pose proof (fun r Hr => update_heap_old M dt g g' r Hg Hu (Hal r Hr)) as Hh.
  clear Hu.
  destruct (airborne_ground_phases M dt (platforms g) g Hs Hon)
    as (B & HB & HsB & HcB & _ & HhB).
  rewrite HB in Hi, Hh |- *. clear HB.
  destruct (phaseJumping_outcome M dt (platforms g) B)
    as [[Hn _]|[[_ (ps & sd & He & _)]|[[_ (ps & sd & He & _)]
       |[_ (ps & sd & r & ps' & sd' & ef & Hf & _ & He)]]]].
  - contradiction.
  - exfalso. rewrite He in Hi. unfold flown in Hi. game_simpl_in Hi. congruence.
  - exfalso. rewrite He in Hi. discriminate Hi.
  - rewrite He in Hh |- *. clear He Hi.
    apply find_some in Hf. destruct Hf as [Hin Hl].
    exists r, (flown dt ps sd B).
    destruct (landed_egg_heap r (flown dt ps sd B) sd' ps' ef) as [Le Lh].
    split; [exact Hin|]. split; [exact Hl|].
    split; [exact HcB|]. split; [exact (HhB r)|].
    split; [exact Le|]. rewrite (Hh r Hin). exact Lh.
Qed.

(** X24: a landing puts the egg on the platform.  When a frame starts
    in the air and ends at rest, the egg is on a platform of the column
    the frame began with, at rest (no speed), its centre one egg radius
    above the platform's surface, and over the platform sideways: within
    0.6 egg radius of the platform's extent as it is at the end of the
    frame. *)
Theorem landing_rests_on_the_platform (M : MathEnv) (dt : Q) (g g' : Game) :
  state g = jumping ->
  Egg.onPlatform (egg g) = None ->
  allocated g ->
  update M dt g = Some g' ->
  state g' = idle ->
  exists r,
    In r (platforms g)
    /\ Egg.onPlatform (egg g') = Some r
    /\ Egg.y (egg g') = Platform.y (heap g r) - EGG_R
    /\ Egg.vx (egg g') = 0 /\ Egg.vy (egg g') = 0
    /\ Platform.x (heap g' r) < Egg.x (egg g') + EGG_R * 0.6
    /\ Egg.x (egg g') - EGG_R * 0.6 < Platform.x (heap g' r) + Platform.w (heap g' r).
Proof.
  intros Hs Hon Hal Hu Hi.
  destruct (landing_frame M dt g g' Hs Hon Hal Hu Hi)
    as (r & F & Hin & Hl & _ & Hm & He & Hh).
  apply landsOn_true in Hl. destruct Hl as (_ & _ & _ & _ & _ & Hx1 & Hx2).
  destruct (sameButMotion_fields _ _ Hm) as (Hy & _).
  exists r. rewrite He, Hh. cbn [Egg.onPlatform Egg.y Egg.vx Egg.vy Egg.x].
  split; [exact Hin|]. split; [reflexivity|]. split; [rewrite Hy; reflexivity|].
  split; [reflexivity|]. split; [reflexivity|].
  destruct (isTimed (heap F r)); cbn [Platform.x Platform.w Platform.set_landed];
    split; assumption.
Qed.

Lemma descending_allocated : allocated descending.
Proof.
  intros r Hr. change (platforms descending) with (platforms fresh) in Hr.
  change (nextRef descending) with (nextRef fresh).
  destruct (initGame_platforms hostHalf game0) as [Hp Hn].
  unfold fresh in *. rewrite Hp in Hr. rewrite Hn. apply in_seq in Hr. lia.
Qed.

Lemma landing_rests_on_the_platform_witness :
  returns (update hostHalf 1 descending) (fun g' =>
    exists r, Egg.onPlatform (egg g') = Some r
              /\ Egg.y (egg g') = Platform.y (heap descending r) - EGG_R).
Proof.
  apply returns_intro; [vm_compute; reflexivity|].
  intros g' E.
  assert (Hc : option_map (fun g' => GameState_eqb (state g') idle)
                 (update hostHalf 1 descending) = Some true)
    by (vm_compute; reflexivity).
  rewrite E in Hc. cbn [option_map] in Hc. injection Hc as Hst.
  assert (Hi : state g' = idle)
    by (destruct (state g'); try discriminate Hst; reflexivity).
  destruct (landing_rests_on_the_platform hostHalf 1 descending g'
              eq_refl eq_refl descending_allocated E Hi)
    as (r & _ & Hon & Hy & _).
  exists r. split; [exact Hon|exact Hy].
Defined.

(** X25: the egg lands only on a platform that can carry it.  The
    platform a frame lands the egg on is not marked as removed, and its
    surface is on screen at the camera position the frame began with
    (between 20 above the top edge and the bottom edge); a timed platform
    landed on has its countdown started ([landed] set), and no other kind
    of platform is marked. *)
Theorem landing_platform_is_eligible (M : MathEnv) (dt : Q) (g g' : Game) (r : Ref) :
  state g = jumping ->
  Egg.onPlatform (egg g) = None ->
  allocated g ->
  update M dt g = Some g' ->
  state g' = idle ->
  Egg.onPlatform (egg g') = Some r ->
  Platform.removing (heap g r) = false
  /\ Platform.removing (heap g' r) = false
  /\ - (20) <= Platform.y (heap g r) - Camera.y (camera g)
  /\ Platform.y (heap g r) - Camera.y (camera g) <= H
  /\ (Platform.type (heap g r) = timed -> Platform.landed (heap g' r) = true)
  /\ (Platform.type (heap g r) <> timed ->
      Platform.landed (heap g' r) = Platform.landed (heap g r)).
Proof.
  intros Hs Hon Hal Hu Hi Hr.
  destruct (landing_frame M dt g g' Hs Hon Hal Hu Hi)
    as (r' & F & Hin & Hl & Hc & Hm & He & Hh).
  rewrite He in Hr. cbn [Egg.onPlatform] in Hr. injection Hr as ->.
  apply landsOn_true in Hl. destruct Hl as (S1 & S2 & Hrm & _).
  destruct (sameButMotion_fields _ _ Hm) as (Hy & _ & Hty & _ & Hla & Hre).
  rewrite Hc, Hy in S1, S2. rewrite Hre in Hrm. rewrite Hh.
  split; [exact Hrm|].
  unfold isTimed. rewrite Hty.
  destruct (Platform.type (heap g r)) eqn:Et; cbn [PlatformType_eqb];
    cbn [Platform.removing Platform.landed Platform.set_landed]; rewrite ?Hre, ?Hla;
    (split; [exact Hrm|]); (split; [exact S1|]); (split; [exact S2|]);
    split; intro Hq; try reflexivity; try discriminate Hq; contradiction.
Qed.

Lemma landing_platform_is_eligible_witness :
  returns (update hostHalf 1 descending) (fun g' =>
    Platform.removing (heap descending 0%nat) = false
    /\ Platform.y (heap descending 0%nat) - Camera.y (camera descending) <= H).
Proof.
  apply returns_intro; [vm_compute; reflexivity|].
  intros g' E.
  assert (Hc : option_map
                 (fun g' => (GameState_eqb (state g') idle,
                             Ref_eqb (Egg.onPlatform (egg g')) (Some 0%nat)))
                 (update hostHalf 1 descending) = Some (true, true))
    by (vm_compute; reflexivity).
  rewrite E in Hc. cbn [option_map] in Hc. injection Hc as Hst Ho.
  assert (Hi : state g' = idle)
    by (destruct (state g'); try discriminate Hst; reflexivity).
  assert (Hr : Egg.onPlatform (egg g') = Some 0%nat).
  { destruct (Egg.onPlatform (egg g')) as [[|n]|]; try discriminate Ho. reflexivity. }
  destruct (landing_platform_is_eligible hostHalf 1 descending g' 0%nat
              eq_refl eq_refl descending_allocated E Hi Hr)
    as (H1 & _ & _ & H4 & _).
  split; [exact H1|exact H4].
Defined.

(** ** Countdowns over a frame *)

Lemma landed_heap_marks (r r' : Ref) (F : Game) sd ps ef :
  Platform.timer (heap (set_seed sd (set_particles ps (set_evolveFlash ef (landed r F)))) r')
  = Platform.timer (heap F r')
  /\ Platform.removing
       (heap (set_seed sd (set_particles ps (set_evolveFlash ef (landed r F)))) r')
     = Platform.removing (heap F r').
Proof.
  unfold landed. cbv zeta. game_simpl.
  destruct (isTimed (heap F r)); [|split; reflexivity].
  destruct (Nat.eq_dec r' r) as [->|Hne].
  - rewrite store_same. split; reflexivity.
  - rewrite store_other by exact Hne. split; reflexivity.
Qed.

(** The phases after the countdown leave every timer and every removal
    mark alone, and never put the egg on a platform marked as removed. *)
Lemma laterPhases_marks (M : MathEnv) (dt : Q) (plats : list Ref) (T : Game) (r : Ref) :
  let E := phaseJumping M dt plats (phaseGrounded dt (phaseDecay M dt
             (phaseBirds M dt (phaseSpawn M dt T)))) in
  Platform.timer (heap E r) = Platform.timer (heap T r)
  /\ Platform.removing (heap E r) = Platform.removing (heap T r)
  /\ (Platform.removing (heap T r) = true ->
      Egg.onPlatform (egg T) <> Some r -> Egg.onPlatform (egg E) <> Some r).
Proof.
  intro E. subst E.
  assert (Hb : exists B,
             phaseGrounded dt (phaseDecay M dt (phaseBirds M dt (phaseSpawn M dt T))) = B
             /\ heap B = heap T
             /\ (Egg.onPlatform (egg B) = Egg.onPlatform (egg T)
                 \/ Egg.onPlatform (egg B) = None)).
  { eexists. split; [reflexivity|].
    destruct (phaseSpawn_footprint M dt T) as (sd1 & bs1 & t1 & ->).
    match goal with |- context [phaseBirds M dt ?X] =>
      destruct (phaseBirds_outcome M dt X) as (bs & ps & sd & e2 & st2 & -> & Hc2 & _)
    end.
    match goal with |- context [phaseDecay M dt ?X] =>
      destruct (phaseDecay_footprint M dt X) as (ps3 & sd3 & si & x & t & -> & _)
    end.
    match goal with |- context [phaseGrounded dt ?X] =>
      destruct (phaseGrounded_outcome dt X) as (e4 & st4 & -> & Hc4 & _)
    end.
    unfold staysOrFalls in Hc2, Hc4. game_simpl_in Hc2. game_simpl_in Hc4. game_simpl.
    split; [reflexivity|].
    destruct Hc4 as [[_ ->]|[_ ->]]; [|right; reflexivity].
    destruct Hc2 as [[_ ->]|[_ ->]]; [left|right]; reflexivity. }
  destruct Hb as (B & -> & HhB & HoB). rewrite <- HhB.
  assert (HoB' : Egg.onPlatform (egg T) <> Some r -> Egg.onPlatform (egg B) <> Some r).
  { intro Hne. destruct HoB as [->| ->]; [exact Hne|discriminate]. }
  clear HoB HhB.
  destruct (phaseJumping_outcome M dt plats B)
    as [[_ ->]|[[_ (ps & sd & -> & _)]|[[_ (ps & sd & -> & _)]
       |[_ (ps & sd & r' & ps' & sd' & ef & Hf & _ & ->)]]]].
  - split; [reflexivity|]. split; [reflexivity|]. intros _. exact HoB'.
  - unfold flown. game_simpl. rewrite integrate_onPlatform.
    split; [reflexivity|]. split; [reflexivity|]. intros _. exact HoB'.
  - unfold flown. game_simpl. rewrite integrate_onPlatform.
    split; [reflexivity|]. split; [reflexivity|]. intros _. exact HoB'.
  - destruct (landed_heap_marks r' r (flown dt ps sd B) sd' ps' ef) as [Lt Lr].
    destruct (landed_egg_heap r' (flown dt ps sd B) sd' ps' ef) as [Le _].
    rewrite Lt, Lr, Le. cbn [Egg.onPlatform].
    split; [reflexivity|]. split; [reflexivity|].
    intros Hrm _ Heq. injection Heq as ->.
    apply find_some in Hf. destruct Hf as [_ Hl]. apply landsOn_true in Hl.
    destruct Hl as (_ & _ & Hnr & _).
    change (heap (flown dt ps sd B) r) with (heap B r) in Hnr, Hrm. congruence.
Qed.


Lemma onTimed_column : platforms onTimed = seq 0 26 /\ nextRef onTimed = 26%nat.
Proof. split; vm_compute; reflexivity. Qed.


(** X27: under the egg the countdown loses the frame's time delta.  With
    the egg resting on a timed platform that it has landed on, a frame
    leaves the platform's timer lowered by [dt] as long as that stays
    above 0; otherwise (and unless the platform is already marked) the
    timer ends at 0, the platform is marked as removed, and the egg is no
    longer on it when the frame ends. *)
Theorem countdown_ticks_under_the_egg (M : MathEnv) (dt : Q) (g g' : Game) (r : Ref) :
  state g <> gameover ->
  update M dt g = Some g' ->
  NoDup (platforms g) -> In r (platforms g) -> (r < nextRef g)%nat ->
  Egg.onPlatform (egg g) = Some r ->
  Platform.type (heap g r) = timed ->
  Platform.landed (heap g r) = true ->
  (0 < Platform.timer (heap g r) - dt ->
   Platform.timer (heap g' r) = Platform.timer (heap g r) - dt
   /\ Platform.removing (heap g' r) = Platform.removing (heap g r))
  /\ (Platform.timer (heap g r) - dt <= 0 -> Platform.removing (heap g r) = false ->
      Platform.timer (heap g' r) = 0
      /\ Platform.removing (heap g' r) = true
      /\ Egg.onPlatform (egg g') <> Some r).
Proof.
  intros Hs Hu Hnd Hin Hlt Hon Hty Hla.
  rewrite (update_heap_old M dt g g' r Hs Hu Hlt).
  pose proof (update_obs (fun G => egg G) M dt g g') as Ho.
  cbv beta in Ho. specialize (Ho ltac:(intros ? ? ? ? ? ? ? ? ? ?; reflexivity) Hs Hu).
  rewrite Ho. clear Ho Hu. unfold beforeCamera.
  assert (HG : exists G,
             phaseMove dt (platforms g) (phasePower dt g) = G
             /\ platforms G = platforms g /\ egg G = egg g
             /\ sameButMotion (heap g r) (heap G r)).
  { eexists. split; [reflexivity|].
    rewrite (phasePower_footprint dt g). unfold phaseMove. game_simpl.
    split; [reflexivity|]. split; [reflexivity|]. apply moveAll_motion. }
  destruct HG as (G & -> & HpG & HeG & HmG).
  destruct (sameButMotion_fields _ _ HmG) as (_ & _ & HtyG & HtiG & HlaG & HreG).
  rewrite <- HpG in Hnd, Hin. rewrite <- HeG in Hon.
  rewrite <- HtyG in Hty. rewrite <- HlaG in Hla. rewrite <- HtiG, <- HreG.
  rewrite <- HpG.
  pose proof (countdown_under_egg dt G r Hnd Hin Hon Hty Hla) as Hcd. cbv zeta in Hcd.
  destruct (laterPhases_marks M dt (platforms G) (phaseTimed dt (platforms G) G) r)
    as (-> & -> & Hlater).
  revert Hcd Hlater. generalize (phaseTimed dt (platforms G) G). intros T Hcd Hlater.
  split.
  - intro Hpos.
    assert (Hq : Qleb (Platform.timer (heap G r) - dt) 0 = false)
      by (apply Qleb_gt; exact Hpos).
    rewrite Hq in Hcd. cbn [andb] in Hcd. destruct Hcd as (H1 & H2 & _).
    split; assumption.
  - intros Hle Hnr.
    assert (Hq : Qleb (Platform.timer (heap G r) - dt) 0 = true)
      by (apply Qleb_le; exact Hle).
    rewrite Hq, Hnr in Hcd. cbn [andb negb] in Hcd.
    destruct Hcd as (H1 & H2 & _ & H4 & _).
    split; [exact H1|]. split; [exact H2|].
    apply Hlater; [exact H2|]. rewrite H4. discriminate.
Qed.

Lemma countdown_ticks_under_the_egg_witness :
  returns (update hostHalf 1 onTimed) (fun g' =>
    Platform.timer (heap g' 1%nat) = 0
    /\ Platform.removing (heap g' 1%nat) = true
    /\ Egg.onPlatform (egg g') <> Some 1%nat).
Proof.
  apply returns_intro; [vm_compute; reflexivity|].
  intros g' E. destruct onTimed_column as [Hp Hn].
  refine (proj2 (countdown_ticks_under_the_egg hostHalf 1 onTimed g' 1%nat
                   _ E _ _ _ eq_refl eq_refl eq_refl) _ eq_refl).
  - discriminate.
  - rewrite Hp. apply seq_NoDup.
  - rewrite Hp. apply in_seq. lia.
  - rewrite Hn. lia.
  - vm_compute. discriminate.
Defined.

(** ** The column over a frame *)

Lemma Qmin_cases (a b : Q) : Qmin a b = a \/ Qmin a b = b.
Proof.
  unfold Qmin, GenericMinMax.gmin. destruct (a ?= b); [left|left|right]; reflexivity.
Qed.

Lemma minOf_In (ys : list Q) (m : Q) : minOf ys = Some m -> In m ys.
Proof.
  revert m. induction ys as [|y ys IH]; intros m; cbn [minOf]; [discriminate|].
  destruct (minOf ys) as [m'|].
  - intro Hm. injection Hm as <-. destruct (Qmin_cases y m') as [->| ->].
    + left. reflexivity.
    + right. apply IH. reflexivity.
  - intro Hm. injection Hm as <-. left. reflexivity.
Qed.

Lemma minOf_none (ys : list Q) : minOf ys = None -> ys = [].
Proof.
  destruct ys as [|y ys]; [reflexivity|]. cbn [minOf].
  destruct (minOf ys); discriminate.
Qed.

Lemma minOf_le (ys : list Q) (m : Q) : minOf ys = Some m -> forall y, In y ys -> m <= y.
Proof.
  revert m. induction ys as [|y0 ys IH]; intros m; cbn [minOf]; [discriminate|].
  destruct (minOf ys) as [m'|] eqn:Em.
  - intro Hm. injection Hm as <-. intros y [<-|Hy].
    + apply Q.le_min_l.
    + apply Qle_trans with m'; [apply Q.le_min_r|]. apply (IH m' eq_refl). exact Hy.
  - intro Hm. injection Hm as <-. intros y [<-|Hy]; [apply Qle_refl|].
    rewrite (minOf_none ys Em) in Hy. destruct Hy.
Qed.

Lemma createPlatform_flags (M : MathEnv) (y : Q) (index n : nat) :
  Platform.removing (fst (createPlatform M y index n)) = false
  /\ Platform.landed (fst (createPlatform M y index n)) = false.
Proof.
  destruct (createPlatform_fields M y index n) as (ty & k & Hp & _).
  cbv zeta in Hp. rewrite Hp. split; reflexivity.
Qed.

Lemma ofNat_S (n : nat) : ofNat (S n) == ofNat n + 1.
Proof.
  unfold ofNat. rewrite Nat2Z.inj_succ. unfold Z.succ. rewrite inject_Z_plus. reflexivity.
Qed.

(** The loop in full: it creates [k] platforms at fresh references, one
    gap apart above [minY], as long as the top is less than 300 above the
    camera and no longer. *)
Lemma extendColumn_spacing (M : MathEnv) (fuel : nat) (camY : Q) :
  forall minY ps hp nr sd c',
    extendColumn M fuel camY minY (ps, hp, nr, sd) = Some c' ->
    exists k hp' sd',
      c' = (ps ++ seq nr k, hp', (nr + k)%nat, sd')
      /\ (forall r, (r < nr)%nat -> hp' r = hp r)
      /\ (forall j, (j < k)%nat ->
            exists y idx n,
              hp' (nr + j)%nat = fst (createPlatform M y idx n)
              /\ y == minY - ofNat (S j) * PLATFORM_GAP
              /\ camY - 300 < minY - ofNat j * PLATFORM_GAP)
      /\ minY - ofNat k * PLATFORM_GAP <= camY - 300.
Proof.
  induction fuel as [|fuel IH]; intros minY ps hp nr sd c'; cbn [extendColumn].
  - destruct (Qltb _ minY) eqn:Ec; [discriminate|].
    intro Hc. injection Hc as <-. exists O, hp, sd.
    cbn [seq]. rewrite app_nil_r, Nat.add_0_r. split; [reflexivity|].
    split; [reflexivity|]. split; [intros j Hj; lia|].
    apply Qltb_ge in Ec. change (ofNat 0) with 0. lra.
  - destruct (Qltb _ minY) eqn:Ec.
    + destruct (createPlatform M (minY - PLATFORM_GAP) (List.length ps) sd) as [p sd1] eqn:Ep.
      intro Hc. apply IH in Hc.
      destruct Hc as (k & hp' & sd' & -> & Hold & Hnew & Htop).
      apply Qltb_lt in Ec.
      exists (S k), hp', sd'. split; [|split; [|split]].
      * cbn [seq]. rewrite <- app_assoc. cbn [app]. rewrite Nat.add_succ_r. reflexivity.
      * intros r Hr. rewrite Hold by lia. apply store_other. lia.
      * intros j Hj. destruct j as [|j].
        -- exists (minY - PLATFORM_GAP), (List.length ps), sd.
           rewrite Nat.add_0_r, Hold by lia. rewrite store_same, Ep.
           split; [reflexivity|]. change (ofNat 1) with 1. change (ofNat 0) with 0.
           split; [ring|]. lra.
        -- destruct (Hnew j ltac:(lia)) as (y & idx & n & Hp & Hy & Hc).
           exists y, idx, n. rewrite Nat.add_succ_r. split; [exact Hp|].
           rewrite (ofNat_S (S j)), (ofNat_S j). rewrite (ofNat_S j) in Hy.
           unfold PLATFORM_GAP in *. split; [rewrite Hy; ring|]. lra.
      * rewrite (ofNat_S k). unfold PLATFORM_GAP in *. lra.
    + intro Hc. injection Hc as <-. exists O, hp, sd.
      cbn [seq]. rewrite app_nil_r, Nat.add_0_r. split; [reflexivity|].
      split; [reflexivity|]. split; [intros j Hj; lia|].
      apply Qltb_ge in Ec. change (ofNat 0) with 0. lra.
Qed.

(** Platform management in full. *)
Lemma phaseColumn_spacing (M : MathEnv) (plats : list Ref) (g g' : Game) :
  phaseColumn M plats g = Some g' ->
  exists k hp sd m,
    g' = set_platforms
           (filter (fun r => Qltb (Platform.y (hp r)) (Camera.y (camera g) + H + 50))
              (plats ++ seq (nextRef g) k))
           (set_seed sd (set_nextRef (nextRef g + k)%nat (set_heap hp g)))
    /\ (forall r, (r < nextRef g)%nat -> hp r = heap g r)
    /\ In m (map (fun r => Platform.y (heap g r)) plats)
    /\ (forall r, In r plats -> m <= Platform.y (heap g r))
    /\ (forall j, (j < k)%nat ->
          exists y idx n,
            hp (nextRef g + j)%nat = fst (createPlatform M y idx n)
            /\ y == m - ofNat (S j) * PLATFORM_GAP
            /\ Camera.y (camera g) - 300 < m - ofNat j * PLATFORM_GAP)
    /\ m - ofNat k * PLATFORM_GAP <= Camera.y (camera g) - 300.
Proof.
  unfold phaseColumn. destruct (minOf _) as [m|] eqn:Em; [|discriminate].
  cbv zeta. destruct (extendColumn M _ _ m _) as [c|] eqn:Ec; [|discriminate].
  apply extendColumn_spacing in Ec.
  destruct Ec as (k & hp & sd & -> & Hold & Hnew & Htop).
  intro Hg. injection Hg as <-. exists k, hp, sd, m.
  split; [reflexivity|]. split; [exact Hold|].
  split; [apply minOf_In; exact Em|].
  split; [|split; assumption].
  intros r Hr. apply (minOf_le _ m Em).
  apply in_map_iff. exists r. split; [reflexivity|exact Hr].
Qed.

(** What a frame outside [gameover] does to the column. *)
Lemma update_column (M : MathEnv) (dt : Q) (g g' : Game) :
  state g <> gameover ->
  update M dt g = Some g' ->
  exists k m,
    nextRef g' = (nextRef g + k)%nat
    /\ platforms g'
       = filter (fun r => Qltb (Platform.y (heap g' r)) (Camera.y (camera g') + H + 50))
           (platforms g ++ seq (nextRef g) k)
    /\ (forall r, (r < nextRef g)%nat ->
          heap g' r = heap (beforeCamera M dt (platforms g) g) r)
    /\ In m (map (fun r => Platform.y (heap g r)) (platforms g))
    /\ (forall r, In r (platforms g) -> m <= Platform.y (heap g r))
    /\ (forall j, (j < k)%nat ->
          exists y idx n,
            heap g' (nextRef g + j)%nat = fst (createPlatform M y idx n)
            /\ y == m - ofNat (S j) * PLATFORM_GAP
            /\ Camera.y (camera g') - 300 < m - ofNat j * PLATFORM_GAP)
    /\ m - ofNat k * PLATFORM_GAP <= Camera.y (camera g') - 300.
Proof.
  intros Hg Hu.
  destruct (update_unfold M dt g g' Hg Hu) as (g1 & Hc & ->).
  unfold prePhases in Hc. revert Hc.
  generalize (beforeCamera_nextRef M dt (platforms g) g).
  generalize (beforeCamera_heap_y M dt (platforms g) g).
  generalize (beforeCamera M dt (platforms g) g). intros G HyG HnG Hc.
  destruct (phaseCamera_heap dt G) as [Hh Hn].
  apply phaseColumn_spacing in Hc.
  destruct Hc as (k & hp & sd & m & -> & Hold & Hm & Hle & Hnew & Htop).
  rewrite Hh in Hm, Hle. rewrite Hn, HnG in Hold, Hnew |- *.
  match goal with |- context [phaseEffects dt ?X] =>
    destruct (phaseEffects_footprint dt X) as (pf & fx & ps & -> & _)
  end.
  game_simpl. exists k, m.
  split; [reflexivity|]. split; [reflexivity|].
  split; [intros r Hr; rewrite (Hold r Hr), Hh; reflexivity|].
  split; [|split; [|split; assumption]].
  - erewrite map_ext; [exact Hm|]. intro r. cbv beta. symmetry. apply HyG.
  - intros r Hr. rewrite <- HyG. apply Hle. exact Hr.
Qed.

Lemma update_heap_y_old (M : MathEnv) (dt : Q) (g g' : Game) (r : Ref) :
  state g <> gameover ->
  update M dt g = Some g' ->
  (r < nextRef g)%nat ->
  Platform.y (heap g' r) = Platform.y (heap g r).
Proof.
  intros Hs Hu Hlt. rewrite (update_heap_old M dt g g' r Hs Hu Hlt).
  apply beforeCamera_heap_y.
Qed.

(** After a frame some platform of the column is at least 300 above the
    camera. *)
Lemma update_stocked (M : MathEnv) (dt : Q) (g g' : Game) :
  state g <> gameover ->
  allocated g ->
  update M dt g = Some g' ->
  exists r, In r (platforms g')
            /\ Platform.y (heap g' r) <= Camera.y (camera g') - 300.
Proof.
  intros Hs Hal Hu.
  destruct (update_column M dt g g' Hs Hu)
    as (k & m & Hn & Hp & Hold & Hm & _ & Hnew & Htop).
  destruct k as [|k].
  - apply in_map_iff in Hm. destruct Hm as (r & Hy & Hin).
    exists r. change (ofNat 0) with 0 in Htop.
    assert (Hyr : Platform.y (heap g' r) = m).
    { rewrite (update_heap_y_old M dt g g' r Hs Hu (Hal r Hin)). exact Hy. }
    split; [|rewrite Hyr; lra].
    rewrite Hp. apply filter_In. split; [apply in_or_app; left; exact Hin|].
    apply Qltb_lt. rewrite Hyr. unfold H. lra.
  - destruct (Hnew k ltac:(lia)) as (y & idx & n & Hh & Hy & _).
    exists (nextRef g + k)%nat.
    assert (Hyr : Platform.y (heap g' (nextRef g + k)) == m - ofNat (S k) * PLATFORM_GAP).
    { rewrite Hh, createPlatform_y. exact Hy. }
    split; [|rewrite Hyr; exact Htop].
    rewrite Hp. apply filter_In. split.
    + apply in_or_app. right. apply in_seq. lia.
    + apply Qltb_lt. rewrite Hyr. unfold H. lra.
Qed.

(** X28: platform management keeps the column stocked ahead of the egg
    and clears what fell behind.  After a frame (in a column of allocated
    references) some platform of the column is at least 300 above the
    camera, and every platform of the column is less than [H + 50] below
    it; so the column is never empty. *)
Theorem column_reaches_ahead_of_the_camera (M : MathEnv) (dt : Q) (g g' : Game) :
  state g <> gameover ->
  allocated g ->
  update M dt g = Some g' ->
  (exists r, In r (platforms g')
             /\ Platform.y (heap g' r) <= Camera.y (camera g') - 300)
  /\ (forall r, In r (platforms g') ->
        Platform.y (heap g' r) < Camera.y (camera g') + H + 50)
  /\ platforms g' <> [].
Proof.
  intros Hs Hal Hu.
  pose proof (update_stocked M dt g g' Hs Hal Hu) as Htopr.
  destruct (update_column M dt g g' Hs Hu) as (k & m & _ & Hp & _).
  split; [exact Htopr|]. split.
  - intros r Hr. rewrite Hp in Hr. apply filter_In in Hr. apply Qltb_lt. exact (proj2 Hr).
  - destruct Htopr as (r & Hr & _). intro He. rewrite He in Hr. exact Hr.
Qed.

Lemma airborne_allocated : allocated airborne.
Proof.
  assert (Hp : platforms airborne = seq 0 26) by (vm_compute; reflexivity).
  assert (Hn : nextRef airborne = 26%nat) by (vm_compute; reflexivity).
  intros r Hr. rewrite Hp in Hr. rewrite Hn. apply in_seq in Hr. lia.
Qed.

Lemma column_reaches_ahead_of_the_camera_witness :
  returns (update hostHalf 1 airborne) (fun g' => platforms g' <> []).
Proof.
  apply returns_intro; [vm_compute; reflexivity|].
  intros g' E.
  refine (proj2 (proj2 (column_reaches_ahead_of_the_camera hostHalf 1 airborne g'
                          _ airborne_allocated E))).
  discriminate.
Defined.

(** X29: new platforms are stacked one gap apart.  The platforms a frame
    creates take the next unused references; the j-th of them (from 0) is
    a generated platform [j + 1] gaps of 80 above the highest platform of
    the column the frame began with, and it is created only when the one
    before it is still less than 300 above the camera: the loop adds just
    enough platforms to reach 300 above the camera, and no more. *)
Theorem new_platforms_are_one_gap_apart (M : MathEnv) (dt : Q) (g g' : Game) :
  state g <> gameover ->
  update M dt g = Some g' ->
  exists k top,
    nextRef g' = (nextRef g + k)%nat
    /\ In top (map (fun r => Platform.y (heap g r)) (platforms g))
    /\ (forall r, In r (platforms g) -> top <= Platform.y (heap g r))
    /\ (forall j, (j < k)%nat ->
          Platform.y (heap g' (nextRef g + j)%nat) == top - ofNat (S j) * PLATFORM_GAP
          /\ Platform.removing (heap g' (nextRef g + j)%nat) = false
          /\ Platform.landed (heap g' (nextRef g + j)%nat) = false
          /\ Camera.y (camera g') - 300 < top - ofNat j * PLATFORM_GAP)
    /\ top - ofNat k * PLATFORM_GAP <= Camera.y (camera g') - 300.
Proof.
  intros Hs Hu.
  destruct (update_column M dt g g' Hs Hu)
    as (k & m & Hn & _ & _ & Hm & Hle & Hnew & Htop).
  exists k, m. split; [exact Hn|]. split; [exact Hm|]. split; [exact Hle|].
  split; [|exact Htop].
  intros j Hj. destruct (Hnew j Hj) as (y & idx & n & Hh & Hy & Hc).
  rewrite Hh, createPlatform_y.
  destruct (createPlatform_flags M y idx n) as [-> ->].
  split; [exact Hy|]. split; [reflexivity|]. split; [reflexivity|exact Hc].
Qed.

Lemma new_platforms_are_one_gap_apart_witness :
  returns (update hostHalf 1 climbed) (fun g' =>
    exists k top,
      nextRef g' = (nextRef climbed + k)%nat
      /\ top - ofNat k * PLATFORM_GAP <= Camera.y (camera g') - 300).
Proof.
  apply returns_intro; [vm_compute; reflexivity|].
  intros g' E.
  destruct (new_platforms_are_one_gap_apart hostHalf 1 climbed g' ltac:(discriminate) E)
    as (k & top & Hn & _ & _ & _ & Ht).
  exists k, top. split; [exact Hn|exact Ht].
Defined.

(** ** The game loop returns *)

Lemma update_camera_le (M : MathEnv) (dt : Q) (g g' : Game) :
  0 <= dt -> state g <> gameover -> update M dt g = Some g' ->
  Camera.y (camera g') <= Camera.y (camera g).
Proof.
  intros Hdt Hg Hu.
  destruct (update_tail M dt g g' Hg Hu) as (_ & _ & -> & _). unfold prePhases.
  generalize (beforeCamera_camera M dt (platforms g) g).
  generalize (beforeCamera M dt (platforms g) g). intros G Hk.
  destruct (phaseCamera_fields dt G) as (_ & _ & _ & _ & _ & _ & _ & _ & _ & ->).
  rewrite Hk. destruct (Qltb _ _) eqn:Et; [|apply Qle_refl].
  apply ease_moves_up; [exact Hdt|]. apply Qltb_lt. exact Et.
Qed.

(** The egg and the store as the phases before the jumping block leave
    them. *)
Lemma groundPhases_egg (M : MathEnv) (dt : Q) (plats : list Ref) (g : Game) :
  let B := phaseGrounded dt (phaseDecay M dt (phaseBirds M dt (phaseSpawn M dt
             (phaseTimed dt plats (phaseMove dt plats (phasePower dt g)))))) in
  camera B = camera g
  /\ (forall r, Platform.y (heap B r) = Platform.y (heap g r))
  /\ (Egg.onPlatform (egg B) = Egg.onPlatform (egg g) \/ Egg.onPlatform (egg B) = None).
Proof.
  intro B. subst B.
  rewrite (phasePower_footprint dt g). unfold phaseMove. game_simpl.
  match goal with |- context [phaseTimed dt ?pl ?X] =>
    destruct (phaseTimed_footprint dt pl X) as (hp & e & st & pl3 & -> & _ & He & Hhp & _)
  end.
  game_simpl_in He. game_simpl_in Hhp.
  match goal with |- context [phaseSpawn M dt ?X] =>
    destruct (phaseSpawn_footprint M dt X) as (sd1 & bs1 & t1 & ->)
  end.
  match goal with |- context [phaseBirds M dt ?X] =>
    destruct (phaseBirds_outcome M dt X) as (bs & ps & sd & e2 & st2 & -> & Hc2 & _)
  end.
  match goal with |- context [phaseDecay M dt ?X] =>
    destruct (phaseDecay_footprint M dt X) as (ps3 & sd3 & si & x & t & -> & _)
  end.
  match goal with |- context [phaseGrounded dt ?X] =>
    destruct (phaseGrounded_outcome dt X) as (e4 & st4 & -> & Hc4 & _)
  end.
  unfold staysOrFalls in Hc2, Hc4. game_simpl_in Hc2. game_simpl_in Hc4. game_simpl.
  split; [reflexivity|]. split.
  - intro r. rewrite (sameButTimer_y _ _ (Hhp r)).
    apply sameButMotion_y. apply moveAll_motion.
  - destruct Hc4 as [[_ ->]|[_ ->]]; [|right; reflexivity].
    destruct Hc2 as [[_ ->]|[_ ->]]; [|right; reflexivity].
    destruct He as [->| ->]; [left|right]; reflexivity.
Qed.

(** Where the egg can be when the jumping block is over: where it was,
    on no platform, or on a platform of the column that the landing test
    accepted. *)
Lemma beforeCamera_onPlatform (M : MathEnv) (dt : Q) (plats : list Ref) (g : Game) (r : Ref) :
  Egg.onPlatform (egg (beforeCamera M dt plats g)) = Some r ->
  Egg.onPlatform (egg g) = Some r
  \/ (In r plats /\ Camera.y (camera g) - 20 <= Platform.y (heap g r)).
Proof.
  unfold beforeCamera.
  generalize (groundPhases_egg M dt plats g). cbv zeta.
  generalize (phaseGrounded dt (phaseDecay M dt (phaseBirds M dt (phaseSpawn M dt
                (phaseTimed dt plats (phaseMove dt plats (phasePower dt g))))))).
  intros B (Hc & Hy & Ho).
  assert (HoB : Egg.onPlatform (egg B) = Some r -> Egg.onPlatform (egg g) = Some r).
  { intro Hb. destruct Ho as [Ho|Ho]; rewrite Ho in Hb; [exact Hb|discriminate Hb]. }
  destruct (phaseJumping_outcome M dt plats B)
    as [[_ ->]|[[_ (ps & sd & -> & _)]|[[_ (ps & sd & -> & _)]
       |[_ (ps & sd & r' & ps' & sd' & ef & Hf & _ & ->)]]]].
  - intro Hb. left. exact (HoB Hb).
  - unfold flown. game_simpl. rewrite integrate_onPlatform. intro Hb. left. exact (HoB Hb).
  - unfold flown. game_simpl. rewrite integrate_onPlatform. intro Hb. left. exact (HoB Hb).
  - destruct (landed_egg_heap r' (flown dt ps sd B) sd' ps' ef) as [-> _].
    cbn [Egg.onPlatform]. intro Hb. injection Hb as ->. right.
    apply find_some in Hf. destruct Hf as [Hin Hl]. apply landsOn_true in Hl.
    destruct Hl as (Hs & _).
    change (heap (flown dt ps sd B) r) with (heap B r) in Hs.
    change (camera (flown dt ps sd B)) with (camera B) in Hs.
    rewrite Hy, Hc in Hs. split; [exact Hin|]. lra.
Qed.

(** A removal mark found when the jumping block is over was there when
    the frame began, or is on the platform the egg then stood on. *)
Lemma beforeCamera_removing (M : MathEnv) (dt : Q) (plats : list Ref) (g : Game) (r : Ref) :
  Platform.removing (heap (beforeCamera M dt plats g) r) = true ->
  Platform.removing (heap g r) = true \/ Egg.onPlatform (egg g) = Some r.
Proof.
  unfold beforeCamera.
  destruct (laterPhases_marks M dt plats
              (phaseTimed dt plats (phaseMove dt plats (phasePower dt g))) r)
    as (_ & -> & _).
  rewrite (phasePower_footprint dt g). unfold phaseMove. game_simpl.
  match goal with |- context [phaseTimed dt ?pl ?X] =>
    destruct (phaseTimed_outcome dt pl X) as (hp & e & st & -> & _ & _ & Hr)
  end.
  game_simpl_in Hr. game_simpl. intro Hrm.
  destruct (Hr r Hrm) as [Hx|Hx]; [left|right; exact Hx].
  destruct (sameButMotion_fields _ _ (moveAll_motion dt plats (heap g) r))
    as (_ & _ & _ & _ & _ & Hre).
  rewrite <- Hre. exact Hx.
Qed.

Lemma update_sound (M : MathEnv) (dt : Q) (g g' : Game) :
  0 <= dt -> sound g -> update M dt g = Some g' -> sound g'.
Proof.
  intros Hdt (Hal & Hegg & Hmk & Hst) Hu.
  destruct (gameover_dec g) as [Hs|Hs].
  { rewrite (gameover_frame_noop_aux M dt g Hs) in Hu. injection Hu as <-.
    exact (conj Hal (conj Hegg (conj Hmk Hst))). }
  pose proof (update_camera_le M dt g g' Hdt Hs Hu) as Hcam.
  pose proof (update_stocked M dt g g' Hs Hal Hu) as Hst'.
  pose proof (update_obs (fun G => egg G) M dt g g') as Ho.
  cbv beta in Ho. specialize (Ho ltac:(intros ? ? ? ? ? ? ? ? ? ?; reflexivity) Hs Hu).
  pose proof (fun r => update_heap_y_old M dt g g' r Hs Hu) as Hy.
  destruct (update_column M dt g g' Hs Hu)
    as (k & m & Hn & Hp & Hold & _ & _ & Hnew & _).
  assert (Hmem : forall r, In r (platforms g') ->
            In r (platforms g) \/ exists j, (j < k)%nat /\ r = (nextRef g + j)%nat).
  { intros r Hr. rewrite Hp in Hr. apply filter_In in Hr. destruct Hr as [Hr _].
    apply in_app_or in Hr. destruct Hr as [Hr|Hr]; [left; exact Hr|right].
    apply in_seq in Hr. exists (r - nextRef g)%nat. split; lia. }
  split; [|split; [|split]].
  - intros r Hr. rewrite Hn. destruct (Hmem r Hr) as [Hin|(j & Hj & ->)]; [|lia].
    pose proof (Hal r Hin). lia.
  - intros r Hr. rewrite Ho in Hr.
    assert (Hr0 : (r < nextRef g)%nat
                  /\ Camera.y (camera g) - 20 <= Platform.y (heap g r)).
    { destruct (beforeCamera_onPlatform M dt (platforms g) g r Hr) as [Hx|[Hx Hv]].
      - exact (Hegg r Hx).
      - split; [exact (Hal r Hx)|exact Hv]. }
    destruct Hr0 as [Hlt Hv]. split; [rewrite Hn; lia|].
    rewrite (Hy r Hlt). lra.
  - intros r Hr Hrm. destruct (Hmem r Hr) as [Hin|(j & Hj & ->)].
    + pose proof (Hal r Hin) as Hlt. rewrite (Hold r Hlt) in Hrm.
      rewrite (Hy r Hlt).
      destruct (beforeCamera_removing M dt (platforms g) g r Hrm) as [Hx|Hx].
      * pose proof (Hmk r Hin Hx). lra.
      * pose proof (proj2 (Hegg r Hx)). lra.
    + exfalso. destruct (Hnew j Hj) as (y & idx & n & Hh & _).
      rewrite Hh in Hrm. rewrite (proj1 (createPlatform_flags M y idx n)) in Hrm.
      discriminate Hrm.
  - exact Hst'.
Qed.

Lemma breakFragile_cases (g : Game) :
  breakFragile g = g
  \/ exists r0,
       Egg.onPlatform (egg g) = Some r0
       /\ breakFragile g
          = set_platforms
              (filter (fun p => negb (Platform.removing
                         (store r0 (Platform.set_removing true (heap g r0)) (heap g) p)))
                 (platforms g))
              (set_heap (store r0 (Platform.set_removing true (heap g r0)) (heap g)) g).
Proof.
  unfold breakFragile. destruct (Egg.onPlatform (egg g)) as [r0|]; [|left; reflexivity].
  destruct (isFragile (heap g) r0); [|left; reflexivity].
  right. exists r0. split; reflexivity.
Qed.

Lemma releaseJump_sound (M : MathEnv) (g : Game) : sound g -> sound (releaseJump M g).
Proof.
  intros Hsd. destruct (state g) eqn:Es; try (unfold releaseJump; rewrite Es; exact Hsd).
  destruct Hsd as (Hal & Hegg & Hmk & t & Ht & Hty).
  unfold releaseJump. rewrite Es.
  destruct (celebrate_footprint M (launch g)) as (ps & sd & fx & pf & ->).
  unfold launch. cbv zeta.
  destruct (breakFragile_cases g) as [->|(r0 & Hon & ->)];
    unfold sound, allocated, eggInView, marksInView, stocked; game_simpl;
    cbn [Egg.onPlatform Egg.set_onPlatform Egg.set_vx Egg.set_vy].
  - split; [exact Hal|]. split; [intros r Hr; discriminate Hr|].
    split; [exact Hmk|]. exists t. split; assumption.
  - split; [intros r Hr; apply filter_In in Hr; exact (Hal r (proj1 Hr))|].
    split; [intros r Hr; discriminate Hr|].
    split.
    + intros r Hr Hrm. apply filter_In in Hr. destruct Hr as [_ Hr].
      rewrite Hrm in Hr. discriminate Hr.
    + pose proof (proj2 (Hegg r0 Hon)) as Hv.
      assert (Hne : t <> r0) by (intros ->; lra).
      exists t. rewrite (store_other r0 t _ _ Hne). split; [|exact Hty].
      apply filter_In. split; [exact Ht|].
      rewrite (store_other r0 t _ _ Hne).
      destruct (Platform.removing (heap g t)) eqn:Er; [|reflexivity].
      exfalso. pose proof (Hmk t Ht Er). lra.
Qed.

Lemma startCharging_sound (g : Game) : sound g -> sound (startCharging g).
Proof. unfold startCharging. destruct (state g); intro Hs; exact Hs. Qed.

Lemma initGame_sound (M : MathEnv) (g : Game) : sound (initGame M g).
Proof.
  destruct (initGame_platforms M g) as [Hp Hn].
  destruct (initGame_heap M g) as (H0 & Hi & _).
  destruct (initGame_fields M g) as (_ & He & Hc & _).
  unfold sound, allocated, eggInView, marksInView, stocked.
  rewrite Hp, Hn, He, Hc. cbn [Egg.onPlatform Camera.y].
  split; [intros r Hr; apply in_seq in Hr; lia|].
  split; [|split].
  - intros r Hr. injection Hr as <-. split; [lia|]. rewrite H0. vm_compute. discriminate.
  - intros r Hr Hrm. exfalso. apply in_seq in Hr.
    destruct (Nat.eq_dec r (nextRef g)) as [->|Hne].
    + rewrite H0 in Hrm. discriminate Hrm.
    + destruct (Hi (r - nextRef g)%nat ltac:(lia)) as (n & Hh).
      replace (nextRef g + (r - nextRef g))%nat with r in Hh by lia.
      rewrite Hh in Hrm. rewrite (proj1 (createPlatform_flags M _ _ n)) in Hrm.
      discriminate Hrm.
  - exists (nextRef g + 25)%nat. split; [apply in_seq; lia|].
    destruct (Hi 25%nat ltac:(lia)) as (n & ->). rewrite createPlatform_y.
    vm_compute. discriminate.
Qed.

Lemma sound_column (g : Game) : sound g -> platforms g <> [].
Proof.
  intros (_ & _ & _ & t & Ht & _) He. rewrite He in Ht. exact Ht.
Qed.

Lemma apply_sound (M : MathEnv) (ev : Event) (g : Game) :
  forward ev -> sound g -> exists g', apply M ev g = Some g' /\ sound g'.
Proof.
  intros Hf Hs. destruct ev as [dt| | |]; cbn [apply forward] in *.
  - destruct (update_returns M dt g (sound_column g Hs)) as [g' Hu].
    exists g'. split; [exact Hu|]. exact (update_sound M dt g g' Hf Hs Hu).
  - eexists. split; [reflexivity|]. apply startCharging_sound. exact Hs.
  - eexists. split; [reflexivity|]. apply releaseJump_sound. exact Hs.
  - eexists. split; [reflexivity|]. apply initGame_sound.
Qed.

Lemma run_sound (M : MathEnv) (evs : list Event) :
  forall g, Forall forward evs -> sound g -> exists g', run M evs g = Some g' /\ sound g'.
Proof.
  induction evs as [|ev evs IH]; intros g Hf Hs; cbn [run].
  - exists g. split; [reflexivity|exact Hs].
  - inversion Hf as [|? ? Hev Hrest]; subst.
    destruct (apply_sound M ev g Hev Hs) as (g1 & -> & Hs1).
    exact (IH g1 Hrest Hs1).
Qed.

(** X30: after a reset the game loop never hangs.  Whatever the player
    does and whatever the random source answers, as long as no frame has
    a negative time delta, every frame returns: the column never runs
    empty (not even when a fragile platform breaks under the egg), so
    the loop that extends it always finds its exit.  All along, the
    references of the column are allocated and some platform is at least
    300 above the camera. *)
Theorem loop_never_hangs_after_reset (M : MathEnv) (evs : list Event) (g : Game) :
  Forall forward evs ->
  returns (run M (Reset :: evs) g) (fun g' =>
    platforms g' <> [] /\ allocated g' /\ stocked g').
Proof.
  intro Hf. cbn [run apply].
  destruct (run_sound M evs (initGame M g) Hf (initGame_sound M g)) as (g' & -> & Hs).
  cbn [returns]. split; [exact (sound_column g' Hs)|].
  destruct Hs as (Hal & _ & _ & Hst). split; assumption.
Qed.

Lemma loop_never_hangs_after_reset_witness :
  returns (run hostHalf (Reset :: [BeginCharge; Frame 1; ReleaseJump; Frame 1]) game0)
    (fun g' => platforms g' <> []).
Proof.
  pose proof (loop_never_hangs_after_reset hostHalf
                [BeginCharge; Frame 1; ReleaseJump; Frame 1] game0) as Hl.
  assert (Hf : Forall forward [BeginCharge; Frame 1; ReleaseJump; Frame 1]).
  { repeat constructor; discriminate. }
  specialize (Hl Hf).
  destruct (run hostHalf (Reset :: [BeginCharge; Frame 1; ReleaseJump; Frame 1]) game0)
    as [g'|]; [|exact Hl].
  exact (proj1 Hl).
Defined.
